(** * TiffFileTileSource: the pyramid of a tiled TIFF file and its tile lookup

    A shallow embedding of [server/tilesource/tiff.py].  Python values are
    modelled as follows.

    - Python ints are [Z]; a level computed by [__init__] is a [nat] because
      it is used as a dict key and list index and is at least 0.
    - A call that may raise is an [outcome]: [Returns v] or [Raises e].
    - The recursion of [getTile] through itself is bounded by a fuel argument;
      [None] means that the fuel ran out before the call returned.
    - PIL images are symbolic terms ([Image]) that record which PIL calls
      built them, so that a statement can say which tiles were pasted where.
    - The two float expressions of [getTileFromEmptyDirectory] are exact
      rationals ([Q]).  The floats agree with them in every comparison the
      code makes as long as the image is less than 2^53 pixels wide and high
      and the pyramid has fewer than 1000 levels: the power of two and its
      product with the size are then exact, and the rounded quotient is on
      the same side of every integer as the exact one.
    - The float expression of [__init__] that computes a level is a
      parameter ([tileLevel]) about which nothing is assumed.
    - The list [alldir] is sorted as Python 2 sorts tuples of
      (int, int, object): objects of one class are ordered by identity.
    - [@methodcache] stores what [getTile] returned under its arguments; a
      stored result is the result of the call, so the cache is left out. *)

From Stdlib Require Import ZArith QArith String DecimalString.
From stdpp Require Import base option list gmap strings sorting.

Close Scope Q_scope.
Local Open Scope string_scope.
Local Open Scope Z_scope.

(** ** Exceptions and results *)

(** The exceptions the module raises or lets through.  [TiffException] is the
    base class of the three reader exceptions. *)
Inductive exn : Type :=
| IndexError (message : string)
| AttributeError (message : string)
| ValueError (message : string)
| ZeroDivisionError (message : string)
| TiffException (message : string)
| ValidationTiffException (message : string)
| InvalidOperationTiffException (message : string)
| IOTiffException (message : string)
| TileSourceException (message : string).

(** [e.message], also what [str(e)] and [%s] print. *)
Definition message_of (e : exn) : string :=
  match e with
  | IndexError m | AttributeError m | ValueError m | ZeroDivisionError m
  | TiffException m | ValidationTiffException m
  | InvalidOperationTiffException m | IOTiffException m
  | TileSourceException m => m
  end.

(** [isinstance(e, TiffException)]. *)
Definition isTiffException (e : exn) : bool :=
  match e with
  | TiffException _ | ValidationTiffException _
  | InvalidOperationTiffException _ | IOTiffException _ => true
  | _ => false
  end.

Inductive outcome (A : Type) : Type :=
| Returns (a : A)
| Raises (e : exn).
Arguments Returns {A} a.
Arguments Raises {A} e.

Definition obind {A B} (m : outcome A) (k : A → outcome B) : outcome B :=
  match m with
  | Returns a => k a
  | Raises e => Raises e
  end.

(** A call under fuel: [None] when the fuel ran out. *)
Definition fbind {A B} (m : option (outcome A)) (k : A → option (outcome B))
  : option (outcome B) :=
  match m with
  | None => None
  | Some (Raises e) => Some (Raises e)
  | Some (Returns a) => k a
  end.

(** [o is None]. *)
Definition isNone {A} (o : option A) : bool :=
  match o with None => true | Some _ => false end.

(** ** Python helpers *)

(** [l[i]] on a Python list: a negative index counts from the end, an index
    outside [-len(l), len(l)) raises IndexError. *)
Definition py_index {A} (l : list A) (i : Z) : outcome A :=
  let n := Z.of_nat (length l) in
  let j := if i <? 0 then i + n else i in
  if (0 <=? j) && (j <? n) then
    match l !! Z.to_nat j with
    | Some a => Returns a
    | None => Raises (IndexError "list index out of range")
    end
  else Raises (IndexError "list index out of range").

(** ['%d' % z]. *)
Definition str_of_Z (z : Z) : string := NilZero.string_of_int (Z.to_int z).

(** ** Images *)

(** Encoded tile bytes, as read from the file or produced by an encoder. *)
Definition bytes := string.

(** The [resample] argument of [resize]; [DEFAULT] when it is not given. *)
Inductive Filter := DEFAULT | LANCZOS.

(** A PIL image, as the term of PIL calls that produced it. *)
Inductive Image : Type :=
| Image_decoded (origin : string)                      (* handed over by the reader *)
| Image_open (data : bytes)                            (* PIL.Image.open(BytesIO(data)) *)
| Image_new (mode : string) (width height : Z)         (* PIL.Image.new(mode, (w, h)) *)
| Image_paste (canvas sub : Image) (left upper : Z)    (* canvas.paste(sub, (l, u)) *)
| Image_crop (im : Image) (left upper right lower : Z) (* im.crop((l, u, r, b)) *)
| Image_resize (im : Image) (width height : Z) (resample : Filter).

(** What a tile is at run time: a byte string or a PIL image; the code tells
    them apart with [isinstance(tile, PIL.Image.Image)]. *)
Inductive Tile : Type :=
| TileBytes (data : bytes)
| TileImage (im : Image).

(** [if not isinstance(t, PIL.Image.Image): t = PIL.Image.open(BytesIO(t))].
    [PIL.Image.open] is taken to return: [Image_open data] stands for the
    image it makes of [data], and the IOError it raises on bytes that are no
    image is left out.  Where a property depends on it, its statement says
    that the tiles are PIL images. *)
Definition asImage (t : Tile) : Image :=
  match t with
  | TileImage im => im
  | TileBytes b => Image_open b
  end.

(** Keyword arguments forwarded to [_outputTile]. *)
Inductive PyVal := PyBool (b : bool) | PyInt (z : Z) | PyStr (s : string).
Definition Kwargs := list (string * PyVal).
Definition edge_False : Kwargs := [("edge", PyBool false)].

(** ** Directories of the file *)

(** A [TiledTiffDirectory] as far as this module reads it.  [objId] is the
    identity of the Python object: the sort of [__init__] compares tuples
    whose last component is the directory itself, and Python 2 orders such
    objects by identity.  [getTile] is the reader's tile access for this
    directory. *)
Module TiledTiffDirectory.
Record t : Type := {
  objId : Z;
  tileWidth : Z;
  tileHeight : Z;
  imageWidth : Z;
  imageHeight : Z;
  _embeddedImages : list (string * bytes);
  getTile : Z → Z → outcome Tile
}.
End TiledTiffDirectory.
Abbreviation Directory := TiledTiffDirectory.t.

(** A file as the loop of [__init__] sees it: the outcome of
    [TiledTiffDirectory(largeImagePath, directoryNum)] for each directory
    number the file has, and the message of the IOTiffException that the
    reader raises for a directory number past the last one. *)
Record TiffFile : Type := {
  largeImagePath : string;
  ifds : list (outcome Directory);
  pastEnd : string
}.

(** ** The tile source *)

Record TiffFileTileSource : Type := {
  _tiffDirectories : list (option Directory);
  tileWidth : Z;
  tileHeight : Z;
  levels : Z;
  sizeX : Z;
  sizeY : Z
}.

(** The tuples of [alldir]: (tile area, level, directory). *)
Definition DirEntry : Type := Z * nat * Directory.

(** Python's order on these tuples: by area, then level, then the identity of
    the directory object. *)
Definition entry_leb (a b : DirEntry) : bool :=
  let '(aa, al, ad) := a in
  let '(ba, bl, bd) := b in
  (aa <? ba) ||
  ((aa =? ba) &&
   ((al <? bl)%nat ||
    ((al =? bl)%nat &&
     (TiledTiffDirectory.objId ad <=? TiledTiffDirectory.objId bd)))).

Definition entry_le (a b : DirEntry) : Prop := entry_leb a b = true.

Global Instance entry_le_dec a b : Decision (entry_le a b).
Proof. unfold entry_le. apply _. Defined.

(** The state of the enumeration loop when it is left by [break]. *)
Record Enumerated : Type := {
  alldir_of : list DirEntry;
  lastException_of : option exn
}.

(** ** What the module takes from its surroundings *)

(** The collaborators that are not part of this module.  Nothing is assumed
    about them beyond their types.

    - [tileLevel]: lines 79-81, the level of a directory, computed in floating
      point from (imageWidth, tileWidth, imageHeight, tileHeight);
      [max(0, int(...))] is a non-negative int.  The expression is taken to
      return, as it does when the image width or height is positive.
    - [PIL]: whether [import PIL.Image] succeeded.
    - [TILE_FORMAT_PIL]: the constant of [base].
    - [_outputTile]: [FileTileSource._outputTile] of [base], applied to
      self, tile, format, x, y, z, pilImageAllowed, kwargs. *)
Class Host : Type := {
  tileLevel : Z → Z → Z → Z → nat;
  PIL : bool;
  TILE_FORMAT_PIL : string;
  _outputTile :
    TiffFileTileSource → Tile → string → Z → Z → Z → bool → Kwargs → outcome Tile
}.

Section TileSource.

Context `{host : Host}.

(** *** [__init__] *)

(** Lines 65-83: [for directoryNum in itertools.count()].  The recursion is
    over the directories the file has; the empty list is the directory
    number past the end, for which the reader raises IOTiffException.  An
    exception that is not a TiffException leaves [__init__]. *)
Fixpoint enumerate (rest : list (outcome Directory)) (endMessage : string)
    (lastException : option exn) (alldir : list DirEntry)
  : outcome Enumerated :=
  match rest with
  | [] =>
      let exc := IOTiffException endMessage in
      Returns {| alldir_of := alldir;
                 lastException_of :=
                   match lastException with
                   | None => Some exc
                   | Some e => Some e
                   end |}
  | Raises exc :: rest' =>
      match exc with
      | ValidationTiffException _ =>
          enumerate rest' endMessage (Some exc) alldir
      | _ =>
          if isTiffException exc then
            Returns {| alldir_of := alldir;
                       lastException_of :=
                         match lastException with
                         | None => Some exc
                         | Some e => Some e
                         end |}
          else Raises exc
      end
  | Returns td :: rest' =>
      if (TiledTiffDirectory.tileWidth td =? 0)
         || (TiledTiffDirectory.tileHeight td =? 0)
      then enumerate rest' endMessage lastException alldir
      else
        let level :=
          tileLevel (TiledTiffDirectory.imageWidth td)
                    (TiledTiffDirectory.tileWidth td)
                    (TiledTiffDirectory.imageHeight td)
                    (TiledTiffDirectory.tileHeight td) in
        enumerate rest' endMessage lastException
          (alldir ++
           [(TiledTiffDirectory.tileWidth td * TiledTiffDirectory.tileHeight td,
             level, td)])
  end.

(** ['%s' % lastException]; [None] prints as its name. *)
Definition str_of_lastException (e : option exn) : string :=
  match e with
  | Some exc => message_of exc
  | None => "None"
  end.

(** Lines 86-87. *)
Definition openMessage (path : string) (lastException : option exn) : string :=
  "File " +:+ path +:+ " didn't meet requirements for tile source: "
  +:+ str_of_lastException lastException.

(** Lines 98-104: one step of the loop that fills the dict [directories]. *)
Definition keepDirectory (highest : Directory)
    (directories : gmap nat Directory) (dir : DirEntry)
  : gmap nat Directory :=
  let td := dir.2 in
  let level := dir.1.2 in
  if negb (TiledTiffDirectory.tileWidth td =? TiledTiffDirectory.tileWidth highest)
     || negb (TiledTiffDirectory.tileHeight td =? TiledTiffDirectory.tileHeight highest)
  then directories
  else <[level := td]> directories.

(** [max(directories.keys())]. *)
Definition maxKey (directories : gmap nat Directory) : outcome nat :=
  match (map_to_list directories).*1 with
  | [] => Raises (ValueError "max() arg is an empty sequence")
  | keys => Returns (max_list keys)
  end.

(** Lines 85-115. *)
Definition pyramid (alldir : list DirEntry) (path : string)
    (lastException : option exn) : outcome TiffFileTileSource :=
  if (length alldir =? 0)%nat then
    Raises (TileSourceException (openMessage path lastException))
  else
    let alldir := merge_sort entry_le alldir in
    obind (py_index alldir (-1)) (λ lastEntry,
    let highest := lastEntry.2 in
    let directories := foldl (keepDirectory highest) ∅ alldir in
    obind (maxKey directories) (λ top,
    let dirs := (λ key, directories !! key) <$> seq 0 (top + 1) in
    Returns {| _tiffDirectories := dirs;
               tileWidth := TiledTiffDirectory.tileWidth highest;
               tileHeight := TiledTiffDirectory.tileHeight highest;
               levels := Z.of_nat (length dirs);
               sizeX := TiledTiffDirectory.imageWidth highest;
               sizeY := TiledTiffDirectory.imageHeight highest |})).

Definition __init__ (file : TiffFile) : outcome TiffFileTileSource :=
  obind (enumerate (ifds file) (pastEnd file) None [])
    (λ st, pyramid (alldir_of st) (largeImagePath file) (lastException_of st)).

(** *** [getTileFromEmptyDirectory] and [getTile] *)

(** [range(n)]. *)
Definition range (n : Z) : list Z := Z.of_nat <$> seq 0 (Z.to_nat n).

(** A [for] loop whose body may raise or call on under fuel. *)
Fixpoint forEach {A S} (items : list A) (body : A → S → option (outcome S))
    (s : S) : option (outcome S) :=
  match items with
  | [] => Some (Returns s)
  | a :: items' => fbind (body a s) (forEach items' body)
  end.

(** Lines 181-183: [while self._tiffDirectories[z] is None: scale *= 2; z += 1].
    [steps] bounds the number of times the body runs; the result is the pair
    (scale, z) at the exit of the loop. *)
Fixpoint scanUp (steps : nat) (dirs : list (option Directory)) (scale z : Z)
  : option (outcome (Z * Z)) :=
  match py_index dirs z with
  | Raises e => Some (Raises e)
  | Returns (Some _) => Some (Returns (scale, z))
  | Returns None =>
      match steps with
      | O => None
      | S steps' => scanUp steps' dirs (scale * 2) (z + 1)
      end
  end.

(** Lines 186-187, [2.0 ** (z + 1 - levels) * size / tile], for a non-zero
    [tile]. *)
Definition gridBound (z levels size tile : Z) : Q :=
  (Qpower (2 # 1) (z + 1 - levels) * inject_Z size / inject_Z tile)%Q.

(** Lines 190-191: the condition under which a sub-cell is passed over. *)
Definition skipCell (x y scale newX newY : Z) (maxX maxY : Q) : bool :=
  (negb (newX =? 0) || negb (newY =? 0))
  && (Qle_bool maxX (inject_Z (x * scale + newX))
      || Qle_bool maxY (inject_Z (y * scale + newY))).

(** Lines 180-201.  [getTile] is the method the body calls back, applied to
    x, y, z, pilImageAllowed, sparseFallback and the keyword arguments. *)
Definition getTileFromEmptyDirectory
    (getTile : Z → Z → Z → bool → bool → Kwargs → option (outcome Tile))
    (self : TiffFileTileSource) (x y z : Z) : option (outcome Image) :=
  let dirs := _tiffDirectories self in
  fbind (scanUp (Z.to_nat (Z.of_nat (length dirs) - z)) dirs 1 z) (λ sz,
  let scale := sz.1 in
  let z := sz.2 in
  if negb PIL then
    Some (Raises (AttributeError "'NoneType' object has no attribute 'Image'"))
  else
  let tile :=
    Image_new "RGBA" (tileWidth self * scale) (tileHeight self * scale) in
  if tileWidth self =? 0 then
    Some (Raises (ZeroDivisionError "float division by zero"))
  else
  let maxX := gridBound z (levels self) (sizeX self) (tileWidth self) in
  if tileHeight self =? 0 then
    Some (Raises (ZeroDivisionError "float division by zero"))
  else
  let maxY := gridBound z (levels self) (sizeY self) (tileHeight self) in
  fbind
    (forEach (range scale) (λ newX tile,
       forEach (range scale) (λ newY tile,
         if skipCell x y scale newX newY maxX maxY then Some (Returns tile)
         else
           fbind (getTile (x * scale + newX) (y * scale + newY) z
                    true true edge_False) (λ subtile,
           Some (Returns
             (Image_paste tile (asImage subtile)
                (newX * tileWidth self) (newY * tileHeight self)))))
         tile)
       tile)
    (λ tile,
     Some (Returns
       (Image_resize tile (tileWidth self) (tileHeight self) LANCZOS)))).

(** [isinstance(tile, PIL.Image.Image)]. *)
Definition isImage (t : Tile) : bool :=
  match t with TileImage _ => true | TileBytes _ => false end.

(** Lines 160-164: the crop box of the quadrant. *)
Definition quadrant (self : TiffFileTileSource) (x y : Z) (image : Image) : Image :=
  Image_crop image
    (if negb (x mod 2 =? 0) then tileWidth self / 2 else 0)
    (if negb (y mod 2 =? 0) then tileHeight self / 2 else 0)
    (if negb (x mod 2 =? 0) then tileWidth self else tileWidth self / 2)
    (if negb (y mod 2 =? 0) then tileHeight self else tileHeight self / 2).

(** Lines 138-149: the body of the [try]. *)
Definition getTile_try
    (getTile : Z → Z → Z → bool → bool → Kwargs → option (outcome Tile))
    (self : TiffFileTileSource) (x y z : Z)
    (pilImageAllowed sparseFallback : bool) (kwargs : Kwargs)
  : option (outcome Tile) :=
  fbind (Some (py_index (_tiffDirectories self) z)) (λ slot,
  fbind
    match slot with
    | None =>
        if sparseFallback then
          Some (Raises (IOTiffException ("Missing z level " +:+ str_of_Z z)))
        else
          fbind (getTileFromEmptyDirectory getTile self x y z) (λ tile,
          Some (Returns (TileImage tile, TILE_FORMAT_PIL)))
    | Some td =>
        fbind (Some (TiledTiffDirectory.getTile td x y)) (λ tile,
        Some (Returns (tile, "JPEG")))
    end
    (λ tf,
     let tile := tf.1 in
     let format := if PIL && isImage tile then TILE_FORMAT_PIL else tf.2 in
     Some (_outputTile self tile format x y z pilImageAllowed kwargs))).

(** Lines 134-168, with [getTile] standing for the method in its two calls
    to itself (directly at line 156, and through
    [getTileFromEmptyDirectory]). *)
Definition getTile_body
    (getTile : Z → Z → Z → bool → bool → Kwargs → option (outcome Tile))
    (self : TiffFileTileSource) (x y z : Z)
    (pilImageAllowed sparseFallback : bool) (kwargs : Kwargs)
  : option (outcome Tile) :=
  match getTile_try getTile self x y z pilImageAllowed sparseFallback kwargs with
  | None => None
  | Some (Returns tile) => Some (Returns tile)
  | Some (Raises (IndexError _)) =>
      Some (Raises (TileSourceException "z layer does not exist"))
  | Some (Raises (InvalidOperationTiffException m)) =>
      Some (Raises (TileSourceException m))
  | Some (Raises (IOTiffException m)) =>
      if sparseFallback && negb (z =? 0) && PIL then
        fbind (getTile (x / 2) (y / 2) (z - 1) true sparseFallback edge_False)
          (λ image,
           let image := quadrant self x y (asImage image) in
           let image :=
             Image_resize image (tileWidth self) (tileHeight self) DEFAULT in
           Some (_outputTile self (TileImage image) "PIL" x y z
                   pilImageAllowed kwargs))
      else
        Some (Raises (TileSourceException ("Internal I/O failure: " +:+ m)))
  | Some (Raises e) => Some (Raises e)
  end.

(** The method under fuel.  Each activation of [getTile] uses one unit, so
    the least fuel with which a call returns is the number of activations of
    [getTile] that are nested at its deepest point. *)
Fixpoint getTile_fuel (fuel : nat) (self : TiffFileTileSource) (x y z : Z)
    (pilImageAllowed sparseFallback : bool) (kwargs : Kwargs)
  : option (outcome Tile) :=
  match fuel with
  | O => None
  | S fuel' =>
      getTile_body (getTile_fuel fuel' self) self x y z
        pilImageAllowed sparseFallback kwargs
  end.

(** Fuel that is enough for every call (see [getTile_total]). *)
Definition enoughFuel (self : TiffFileTileSource) : nat :=
  S (S (length (_tiffDirectories self))).

Definition getTile (self : TiffFileTileSource) (x y z : Z)
    (pilImageAllowed sparseFallback : bool) (kwargs : Kwargs)
  : option (outcome Tile) :=
  getTile_fuel (enoughFuel self) self x y z pilImageAllowed sparseFallback kwargs.

(** *** [getPreferredLevel] *)

(** Lines 213-214; [steps] bounds the number of times the body runs. *)
Fixpoint preferredScan (steps : nat) (self : TiffFileTileSource) (level : Z)
  : option (outcome Z) :=
  match py_index (_tiffDirectories self) level with
  | Raises e => Some (Raises e)
  | Returns slot =>
      if isNone slot && (level <? levels self - 1) then
        match steps with
        | O => None
        | S steps' => preferredScan steps' self (level + 1)
        end
      else Some (Returns level)
  end.

Definition getPreferredLevel (self : TiffFileTileSource) (level : Z)
  : option (outcome Z) :=
  let level := Z.max 0 (Z.min level (levels self - 1)) in
  preferredScan (Z.to_nat (levels self)) self level.

(** *** [getAssociatedImagesList] *)

(** Python's order on [str]: by character code, a proper prefix first. *)
Definition str_le (a b : string) : Prop := String.leb a b = true.

Global Instance str_le_dec a b : Decision (str_le a b).
Proof. unfold str_le. apply _. Defined.

(** [td._embeddedImages] for an entry of [self._tiffDirectories]: the entry
    of a missing level is [None], which has no such attribute. *)
Definition embeddedImagesOf (td : option Directory)
  : outcome (list (string * bytes)) :=
  match td with
  | Some d => Returns (TiledTiffDirectory._embeddedImages d)
  | None =>
      Raises (AttributeError
                "'NoneType' object has no attribute '_embeddedImages'")
  end.

(** Lines 223-225: the loop that builds the set [imageList]. *)
Fixpoint collectImages (dirs : list (option Directory)) (imageList : gset string)
  : outcome (gset string) :=
  match dirs with
  | [] => Returns imageList
  | td :: dirs' =>
      obind (embeddedImagesOf td) (λ images,
      collectImages dirs' (imageList ∪ list_to_set images.*1))
  end.

(** Lines 217-226. *)
Definition getAssociatedImagesList (self : TiffFileTileSource)
  : outcome (list string) :=
  obind (collectImages (_tiffDirectories self) ∅) (λ imageList,
  Returns (merge_sort str_le (elements imageList))).

(** *** Calls on an open source *)

(** The public methods, as requests to an open source. *)
Inductive Call : Type :=
| Call_getTile (x y z : Z) (pilImageAllowed sparseFallback : bool) (kwargs : Kwargs)
| Call_getTileFromEmptyDirectory (x y z : Z)
| Call_getPreferredLevel (level : Z)
| Call_getAssociatedImagesList.

Inductive Reply : Type :=
| Reply_tile (r : option (outcome Tile))
| Reply_image (r : option (outcome Image))
| Reply_level (r : option (outcome Z))
| Reply_names (r : outcome (list string)).

(** A method call, giving the object after the call and what the call
    produced.  No method other than [__init__] assigns to an attribute of
    [self], so the object after the call is the one before it. *)
Definition invoke (self : TiffFileTileSource) (c : Call)
  : TiffFileTileSource * Reply :=
  match c with
  | Call_getTile x y z p s kw => (self, Reply_tile (getTile self x y z p s kw))
  | Call_getTileFromEmptyDirectory x y z =>
      (self, Reply_image (getTileFromEmptyDirectory (getTile self) self x y z))
  | Call_getPreferredLevel level => (self, Reply_level (getPreferredLevel self level))
  | Call_getAssociatedImagesList => (self, Reply_names (getAssociatedImagesList self))
  end.

(** The object after a sequence of calls. *)
Definition invokeAll (self : TiffFileTileSource) (calls : list Call)
  : TiffFileTileSource :=
  foldl (λ s c, (invoke s c).1) self calls.

End TileSource.

(** ** What the description of the module says, as definitions *)

(** The indices of the populated slots of the pyramid. *)
Definition populatedLevels (self : TiffFileTileSource) : list nat :=
  filter (λ i, is_Some (mjoin (_tiffDirectories self !! i)))
         (seq 0 (length (_tiffDirectories self))).

(** The invariant of a pyramid whose reference directory is [ref]:
    levels is the highest populated index plus one, the top slot holds the
    reference directory, every populated slot has its tile size, and the
    source has its tile size and image size. *)
Definition pyramidInvariant (self : TiffFileTileSource) (ref : Directory) : Prop :=
  populatedLevels self ≠ []
  ∧ levels self = Z.of_nat (max_list (populatedLevels self) + 1)
  ∧ levels self = Z.of_nat (length (_tiffDirectories self))
  ∧ _tiffDirectories self !! Z.to_nat (levels self - 1) = Some (Some ref)
  ∧ (∀ i d, _tiffDirectories self !! i = Some (Some d) →
       TiledTiffDirectory.tileWidth d = TiledTiffDirectory.tileWidth ref
       ∧ TiledTiffDirectory.tileHeight d = TiledTiffDirectory.tileHeight ref)
  ∧ tileWidth self = TiledTiffDirectory.tileWidth ref
  ∧ tileHeight self = TiledTiffDirectory.tileHeight ref
  ∧ sizeX self = TiledTiffDirectory.imageWidth ref
  ∧ sizeY self = TiledTiffDirectory.imageHeight ref.

(** A directory that [__init__] keeps as a candidate: it was read without an
    exception and is tiled. *)
Definition usable (r : outcome Directory) : bool :=
  match r with
  | Returns td =>
      negb (TiledTiffDirectory.tileWidth td =? 0)
      && negb (TiledTiffDirectory.tileHeight td =? 0)
  | Raises _ => false
  end.

(** The validation failures among the outcomes of reading directories. *)
Definition validationFailures (rs : list (outcome Directory)) : list exn :=
  omap (λ r, match r with
             | Raises (ValidationTiffException m) => Some (ValidationTiffException m)
             | _ => None
             end) rs.

(** The tuple that [__init__] stores for a tiled directory. *)
Definition entryOf `{host : Host} (td : Directory) : DirEntry :=
  (TiledTiffDirectory.tileWidth td * TiledTiffDirectory.tileHeight td,
   tileLevel (TiledTiffDirectory.imageWidth td) (TiledTiffDirectory.tileWidth td)
             (TiledTiffDirectory.imageHeight td) (TiledTiffDirectory.tileHeight td),
   td).

(** The tuples of the usable directories of a file, in file order. *)
Definition candidates `{host : Host} (rs : list (outcome Directory))
  : list DirEntry :=
  omap (λ r, match r with
             | Returns td => if usable r then Some (entryOf td) else None
             | Raises _ => None
             end) rs.

(** What holds of every tuple that the enumeration collects. *)
Definition entryFrom `{host : Host} (rs : list (outcome Directory)) (e : DirEntry) : Prop :=
  e = entryOf e.2 ∧ Returns e.2 ∈ rs
  ∧ TiledTiffDirectory.tileWidth e.2 ≠ 0
  ∧ TiledTiffDirectory.tileHeight e.2 ≠ 0.

(** Each directory number of the file is either read or rejected by the
    validation of the reader. *)
Definition readOrRejected (r : outcome Directory) : Prop :=
  match r with
  | Returns _ => True
  | Raises (ValidationTiffException _) => True
  | Raises _ => False
  end.

(** How an exception of the [try] of [getTile] leaves the method when the
    lower-resolution fallback does not apply (lines 150-153 and 168). *)
Definition surfaced (e : exn) : exn :=
  match e with
  | IndexError _ => TileSourceException "z layer does not exist"
  | InvalidOperationTiffException m => TileSourceException m
  | IOTiffException m => TileSourceException ("Internal I/O failure: " +:+ m)
  | _ => e
  end.

(** The tile that the fallback of lines 156-167 makes of the tile [image] of
    the level below. *)
Definition fallbackTile (self : TiffFileTileSource) (x y : Z) (image : Tile)
  : Tile :=
  TileImage (Image_resize (quadrant self x y (asImage image))
               (tileWidth self) (tileHeight self) DEFAULT).

(** The number of activations of [getTile] that a call with
    [sparseFallback] set can nest at level [z] of a list of [n] slots: the
    fallback goes down one level at a time and ends at level 0, and for a
    negative [z] when the index leaves the list. *)
Definition chainDepth (n z : Z) : Z :=
  if (0 <=? z) && (z <? n) then z + 1
  else if (- n <=? z) && (z <? 0) then z + n + 2
  else 1.

(** The fetch of tile (x, y) at level [z] fails with an IOTiffException of
    message [m]: the slot of the level is empty, or the read of its directory
    raises the exception. *)
Definition levelFails (self : TiffFileTileSource) (x y z : Z) (m : string)
  : Prop :=
  (_tiffDirectories self !! Z.to_nat z = Some None
   ∧ m = "Missing z level " +:+ str_of_Z z)
  ∨ (∃ td, _tiffDirectories self !! Z.to_nat z = Some (Some td)
           ∧ TiledTiffDirectory.getTile td x y = Raises (IOTiffException m)).

(** The clamp of a requested level to [0, levels - 1]. *)
Definition clampLevel (self : TiffFileTileSource) (level : Z) : Z :=
  Z.max 0 (Z.min level (levels self - 1)).

(** Clamp, then the first populated slot at or above the clamped level and
    below the top, or else the top level. *)
Definition preferredLevel_spec (self : TiffFileTileSource) (level : Z) : Z :=
  let c := clampLevel self level in
  match list_find is_Some
          (drop (Z.to_nat c)
             (take (Z.to_nat (levels self - 1)) (_tiffDirectories self))) with
  | Some (k, _) => c + Z.of_nat k
  | None => levels self - 1
  end.

(** The least [k] such that level [z + k] is populated. *)
Definition climb (self : TiffFileTileSource) (z : Z) : option nat :=
  fst <$> list_find is_Some (drop (Z.to_nat z) (_tiffDirectories self)).

(** The sub-cells (dx, dy) of [0, scale) x [0, scale), dx outermost. *)
Definition subCells (scale : Z) : list (Z * Z) :=
  dx ← range scale; dy ← range scale; [(dx, dy)].

(** The sub-cells that are fetched: the origin, and every other cell whose
    tile coordinates lie below both bounds. *)
Definition fetched (x y scale : Z) (maxX maxY : Q) (c : Z * Z) : bool :=
  ((c.1 =? 0) && (c.2 =? 0))
  || (negb (Qle_bool maxX (inject_Z (x * scale + c.1)))
      && negb (Qle_bool maxY (inject_Z (y * scale + c.2)))).

(** Fetch and paste the given sub-cells in order; the first fetch that fails
    ends the composition with its exception. *)
Definition pasteCells (fetch : Z → Z → Z → option (outcome Tile))
    (self : TiffFileTileSource) (x y scale zk : Z) (cells : list (Z * Z))
    (canvas : Image) : option (outcome Image) :=
  forEach cells (λ c canvas,
    fbind (fetch (x * scale + c.1) (y * scale + c.2) zk) (λ sub,
    Some (Returns (Image_paste canvas (asImage sub)
                     (c.1 * tileWidth self) (c.2 * tileHeight self)))))
    canvas.

(** The synthesis of a tile of an empty level, in the words of its
    description: climb [k] levels, compose the fetched sub-cells on a canvas
    of [scale] tiles a side, and downsample. *)
Definition synthesize_spec (fetch : Z → Z → Z → option (outcome Tile))
    (self : TiffFileTileSource) (x y z : Z) : option (outcome Image) :=
  match climb self z with
  | None => None
  | Some k =>
      let scale := 2 ^ Z.of_nat k in
      let zk := z + Z.of_nat k in
      let maxX := (Qpower (2 # 1) (zk + 1 - levels self)
                   * inject_Z (sizeX self) / inject_Z (tileWidth self))%Q in
      let maxY := (Qpower (2 # 1) (zk + 1 - levels self)
                   * inject_Z (sizeY self) / inject_Z (tileHeight self))%Q in
      let canvas :=
        Image_new "RGBA" (tileWidth self * scale) (tileHeight self * scale) in
      fbind (pasteCells fetch self x y scale zk
               (filter (λ c, fetched x y scale maxX maxY c = true) (subCells scale))
               canvas) (λ canvas,
      Some (Returns
        (Image_resize canvas (tileWidth self) (tileHeight self) LANCZOS)))
  end.

(** The order in which the loops of lines 188-189 reach the sub-cells: by
    dx, and for one dx by dy. *)
Definition cellBefore (a b : Z * Z) : Prop :=
  a.1 < b.1 ∨ (a.1 = b.1 ∧ a.2 < b.2).

(** The pixel size of an image, when the term determines it. *)
Fixpoint imageSize (im : Image) : option (Z * Z) :=
  match im with
  | Image_decoded _ | Image_open _ => None
  | Image_new _ w h => Some (w, h)
  | Image_paste canvas _ _ _ => imageSize canvas
  | Image_crop _ l u r b => Some (r - l, b - u)
  | Image_resize _ w h _ => Some (w, h)
  end.

(** ** Concrete files *)

Module Examples.

(** The level expression of lines 79-81 in exact arithmetic: the least [k]
    with [imageWidth <= tileWidth * 2^k] and [imageHeight <= tileHeight * 2^k]. *)
Fixpoint levelFrom (fuel k : nat) (iw tw ih th : Z) : nat :=
  match fuel with
  | O => k
  | S fuel' =>
      if (iw <=? tw * 2 ^ Z.of_nat k) && (ih <=? th * 2 ^ Z.of_nat k) then k
      else levelFrom fuel' (S k) iw tw ih th
  end.

Definition exactLevel (iw tw ih th : Z) : nat := levelFrom 64 0 iw tw ih th.

(** A host with PIL whose [_outputTile] hands the tile back unchanged. *)
Definition plainHost : Host := {|
  tileLevel := exactLevel;
  PIL := true;
  TILE_FORMAT_PIL := "PIL";
  _outputTile := λ _ tile _ _ _ _ _ _, Returns tile
|}.

(** A directory of 256 x 256 tiles over a square image of [side] pixels whose
    tiles are read as the bytes "name/x/y". *)
Definition squareDir (id side : Z) (name : string) (images : list (string * bytes))
  : Directory := {|
  TiledTiffDirectory.objId := id;
  TiledTiffDirectory.tileWidth := 256;
  TiledTiffDirectory.tileHeight := 256;
  TiledTiffDirectory.imageWidth := side;
  TiledTiffDirectory.imageHeight := side;
  TiledTiffDirectory._embeddedImages := images;
  TiledTiffDirectory.getTile := λ x y,
    Returns (TileBytes (name +:+ "/" +:+ str_of_Z x +:+ "/" +:+ str_of_Z y))
|}.

(** The same, but every tile read fails in the reader. *)
Definition brokenDir (id side : Z) : Directory := {|
  TiledTiffDirectory.objId := id;
  TiledTiffDirectory.tileWidth := 256;
  TiledTiffDirectory.tileHeight := 256;
  TiledTiffDirectory.imageWidth := side;
  TiledTiffDirectory.imageHeight := side;
  TiledTiffDirectory._embeddedImages := [];
  TiledTiffDirectory.getTile := λ _ _, Raises (IOTiffException "Read tile failed")
|}.

Definition d0 : Directory := squareDir 10 256 "L0" [("label", "bGFiZWw=")].
Definition d1 : Directory := squareDir 11 512 "L1" [("macro", "bWFjcm8=")].
Definition d2 : Directory := squareDir 12 1024 "L2" [("macro", "bWFjcm8=")].

(** One level. *)
Definition singleFile : TiffFile := {|
  largeImagePath := "single.tif";
  ifds := [Returns d0];
  pastEnd := "Could not set TIFF directory to 1"
|}.

(** Levels 0, 1 and 2, all stored. *)
Definition denseFile : TiffFile := {|
  largeImagePath := "dense.tif";
  ifds := [Returns d2; Returns d0; Returns d1];
  pastEnd := "Could not set TIFF directory to 3"
|}.

(** Levels 0 and 2 stored, with a directory that fails validation between
    them; level 1 is missing. *)
Definition sparseFile : TiffFile := {|
  largeImagePath := "sparse.tif";
  ifds := [Returns d0; Raises (ValidationTiffException "Not a tiled TIFF");
           Returns d2];
  pastEnd := "Could not set TIFF directory to 3"
|}.

(** Only level 1 stored, and its tiles cannot be read. *)
Definition brokenFile : TiffFile := {|
  largeImagePath := "broken.tif";
  ifds := [Returns (brokenDir 20 512)];
  pastEnd := "Could not set TIFF directory to 1"
|}.

(** No directory passes validation. *)
Definition unusableFile : TiffFile := {|
  largeImagePath := "flat.tif";
  ifds := [Raises (ValidationTiffException "Not a tiled TIFF");
           Raises (ValidationTiffException "Unsupported compression")];
  pastEnd := "Could not set TIFF directory to 2"
|}.

(** The sources that [__init__] builds from these files (see
    [Examples.opened]). *)
Definition sourceOf (dirs : list (option Directory)) (highest : Directory)
  : TiffFileTileSource := {|
  _tiffDirectories := dirs;
  tileWidth := TiledTiffDirectory.tileWidth highest;
  tileHeight := TiledTiffDirectory.tileHeight highest;
  levels := Z.of_nat (length dirs);
  sizeX := TiledTiffDirectory.imageWidth highest;
  sizeY := TiledTiffDirectory.imageHeight highest
|}.

Definition singleSource : TiffFileTileSource := sourceOf [Some d0] d0.
Definition denseSource : TiffFileTileSource :=
  sourceOf [Some d0; Some d1; Some d2] d2.
Definition sparseSource : TiffFileTileSource :=
  sourceOf [Some d0; None; Some d2] d2.
Definition brokenSource : TiffFileTileSource :=
  sourceOf [None; Some (brokenDir 20 512)] (brokenDir 20 512).

End Examples.

(** ** The rest of the module *)

(** *** [_getAssociatedImage] *)

(** [base64.b64decode] on the stored string: the decoded bytes, or [None]
    when it raises TypeError. *)
Class Codec : Type := {
  b64decode : bytes → option bytes
}.

(** What a call of [_getAssociatedImage] comes to: the image of line 238,
    the [None] of line 239, an exception, or the TypeError of
    [base64.b64decode]. *)
Inductive AssociatedImage : Type :=
| Associated (image : Image)
| NoAssociated
| AssociatedRaises (e : exn)
| AssociatedTypeError.

(** [d[key]] for [key in d], on the items of the dict. *)
Definition dictGet (items : list (string * bytes)) (key : string)
  : option bytes :=
  (list_to_map items : gmap string bytes) !! key.

(** Lines 235-239: the loop over [self._tiffDirectories]. *)
Fixpoint findAssociatedImage `{host : Host} `{codec : Codec}
    (dirs : list (option Directory)) (imageKey : string) : AssociatedImage :=
  match dirs with
  | [] => NoAssociated
  | td :: dirs' =>
      match embeddedImagesOf td with
      | Raises e => AssociatedRaises e
      | Returns images =>
          match dictGet images imageKey with
          | Some data =>
              if PIL then
                match b64decode data with
                | Some raw => Associated (Image_open raw)
                | None => AssociatedTypeError
                end
              else
                AssociatedRaises
                  (AttributeError "'NoneType' object has no attribute 'Image'")
          | None => findAssociatedImage dirs' imageKey
          end
      end
  end.

(** Lines 228-239. *)
Definition _getAssociatedImage `{host : Host} `{codec : Codec}
    (self : TiffFileTileSource) (imageKey : string) : AssociatedImage :=
  findAssociatedImage (_tiffDirectories self) imageKey.

(** *** [getNativeMagnification] *)

(** The [pixelInfo] dict of a directory, with the numbers it holds kept
    abstract: [pynum] is the type of its values other than [None],
    [truthy] their truth value and [hundredthOver v] the float [0.01 / v]. *)
Class PixelReader : Type := {
  pynum : Type;
  pixelInfo : Directory → gmap string (option pynum);
  truthy : pynum → bool;
  hundredthOver : pynum → pynum
}.

(** The dict that [getNativeMagnification] returns. *)
Record Magnification `{pixels : PixelReader} : Type := {
  magnification : option pynum;
  mm_x : option pynum;
  mm_y : option pynum
}.

(** [d.get(key)]: [None] for a missing key. *)
Definition dictGetNone {V} (d : gmap string (option V)) (key : string)
  : option V :=
  mjoin (d !! key).

(** Line 127, second argument: [0.01 / mm_x if mm_x else None]. *)
Definition estimatedMagnification `{pixels : PixelReader}
    (mm_x : option pynum) : option pynum :=
  match mm_x with
  | Some v => if truthy v then Some (hundredthOver v) else None
  | None => None
  end.

(** Lines 117-132. *)
Definition getNativeMagnification `{pixels : PixelReader}
    (self : TiffFileTileSource) : outcome Magnification :=
  obind (py_index (_tiffDirectories self) (-1)) (λ td,
  match td with
  | None =>
      Raises (AttributeError "'NoneType' object has no attribute 'pixelInfo'")
  | Some d =>
      let pixelInfo := pixelInfo d in
      let mm_x := dictGetNone pixelInfo "mm_x" in
      let mm_y := dictGetNone pixelInfo "mm_y" in
      let mag :=
        default (estimatedMagnification mm_x) (pixelInfo !! "magnification") in
      Returns {| magnification := mag; mm_x := mm_x; mm_y := mm_y |}
  end).

(** ** More of what the code does, as definitions *)

(** The outcomes that the loop of [__init__] looks at: those before the
    first exception that is not a ValidationTiffException. *)
Fixpoint enumerated (rs : list (outcome Directory)) : list (outcome Directory) :=
  match rs with
  | [] => []
  | Returns td :: rs' => Returns td :: enumerated rs'
  | Raises (ValidationTiffException m) :: rs' =>
      Raises (ValidationTiffException m) :: enumerated rs'
  | Raises _ :: _ => []
  end.

(** The exceptions for which [getTile] has an [except] clause. *)
Definition caught (e : exn) : bool :=
  match e with
  | IndexError _ | InvalidOperationTiffException _ | IOTiffException _ => true
  | _ => false
  end.

(** A directory has the tile size of the source. *)
Definition sameTiling (self : TiffFileTileSource) (d : Directory) : Prop :=
  TiledTiffDirectory.tileWidth d = tileWidth self
  ∧ TiledTiffDirectory.tileHeight d = tileHeight self.

(** The level that [__init__] computes for a directory. *)
Definition levelOf `{host : Host} (d : Directory) : nat :=
  tileLevel (TiledTiffDirectory.imageWidth d) (TiledTiffDirectory.tileWidth d)
            (TiledTiffDirectory.imageHeight d) (TiledTiffDirectory.tileHeight d).

(** The keys of the embedded images of a directory. *)
Definition imageKeys (d : Directory) : list string :=
  (TiledTiffDirectory._embeddedImages d).*1.

(** A directory under another identity: what a later open of the same file
    makes of the same stored directory. *)
Definition reidentified (newId : Directory → Z) (d : Directory) : Directory := {|
  TiledTiffDirectory.objId := newId d;
  TiledTiffDirectory.tileWidth := TiledTiffDirectory.tileWidth d;
  TiledTiffDirectory.tileHeight := TiledTiffDirectory.tileHeight d;
  TiledTiffDirectory.imageWidth := TiledTiffDirectory.imageWidth d;
  TiledTiffDirectory.imageHeight := TiledTiffDirectory.imageHeight d;
  TiledTiffDirectory._embeddedImages := TiledTiffDirectory._embeddedImages d;
  TiledTiffDirectory.getTile := TiledTiffDirectory.getTile d
|}.

(** The tuple of a directory under its other identity. *)
Definition reidentifiedEntry (newId : Directory → Z) (e : DirEntry) : DirEntry :=
  (e.1.1, e.1.2, reidentified newId e.2).

(** The outcome of reading a directory, under another identity. *)
Definition reidentifiedOutcome (newId : Directory → Z) (r : outcome Directory)
  : outcome Directory :=
  match r with
  | Returns d => Returns (reidentified newId d)
  | Raises e => Raises e
  end.

(** A source whose directories are under another identity. *)
Definition reidentifiedSource (newId : Directory → Z)
    (self : TiffFileTileSource) : TiffFileTileSource := {|
  _tiffDirectories :=
    (λ slot : option Directory, reidentified newId <$> slot)
      <$> _tiffDirectories self;
  tileWidth := tileWidth self;
  tileHeight := tileHeight self;
  levels := levels self;
  sizeX := sizeX self;
  sizeY := sizeY self
|}.

Module MoreExamples.

(** A codec that decodes every string, to itself prefixed by "raw:". *)
Definition plainCodec : Codec := {|
  b64decode := λ data, Some ("raw:" +:+ data)
|}.

(** Pixel information in which numbers are rationals, with mm_x and mm_y
    of a quarter of a micron for the directory of identity 12 and nothing
    for the others. *)
Definition quarterMicron : PixelReader := {|
  pynum := Q;
  pixelInfo := λ d,
    if TiledTiffDirectory.objId d =? 12 then
      {[ "mm_x" := Some (1 # 4000)%Q; "mm_y" := Some (1 # 4000)%Q ]}
    else ∅;
  truthy := λ v, negb (Qeq_bool v 0);
  hundredthOver := λ v, ((1 # 100) / v)%Q
|}.

(** A file whose second directory is answered by an exception of the
    reader that is not a validation failure, before a third directory. *)
Definition cutFile : TiffFile := {|
  largeImagePath := "cut.tif";
  ifds := [Returns Examples.d0; Raises (IOTiffException "Read error");
           Returns Examples.d2];
  pastEnd := "Could not set TIFF directory to 3"
|}.

(** A file whose second directory is answered by an exception that is not
    a TiffException. *)
Definition crashFile : TiffFile := {|
  largeImagePath := "crash.tif";
  ifds := [Returns Examples.d0; Raises (ValueError "bad tag");
           Returns Examples.d2];
  pastEnd := "Could not set TIFF directory to 3"
|}.

(** A directory whose reader refuses every tile request as invalid, and
    the source of a file that holds it alone. *)
Definition refusingDir : Directory := {|
  TiledTiffDirectory.objId := 30;
  TiledTiffDirectory.tileWidth := 256;
  TiledTiffDirectory.tileHeight := 256;
  TiledTiffDirectory.imageWidth := 256;
  TiledTiffDirectory.imageHeight := 256;
  TiledTiffDirectory._embeddedImages := [];
  TiledTiffDirectory.getTile := λ _ _,
    Raises (InvalidOperationTiffException "Tile x=5, y=5 does not exist")
|}.

Definition refusingSource : TiffFileTileSource :=
  Examples.sourceOf [Some refusingDir] refusingDir.

(** A file that stores level 2 only, and the source [__init__] builds from
    it (see [opened_more]). *)
Definition topOnlyFile : TiffFile := {|
  largeImagePath := "top.tif";
  ifds := [Returns Examples.d2];
  pastEnd := "Could not set TIFF directory to 1"
|}.

Definition topOnlySource : TiffFileTileSource :=
  Examples.sourceOf [None; None; Some Examples.d2] Examples.d2.

(** A file whose first directory is answered by an exception of the reader
    that is no validation failure, before a usable directory. *)
Definition abortedFile : TiffFile := {|
  largeImagePath := "aborted.tif";
  ifds := [Raises (IOTiffException "Read error"); Returns Examples.d0];
  pastEnd := "Could not set TIFF directory to 2"
|}.

(** A file whose first directory fails validation and whose second is
    answered by another exception of the reader. *)
Definition rejectedThenFailedFile : TiffFile := {|
  largeImagePath := "failed.tif";
  ifds := [Raises (ValidationTiffException "Not a tiled TIFF");
           Raises (InvalidOperationTiffException "Directory is corrupt")];
  pastEnd := "Could not set TIFF directory to 2"
|}.

(** The dense file at a later open: the directories in another order and
    under other identities, in the opposite order of those of [denseFile]. *)
Definition laterId (d : Directory) : Z := 100 - TiledTiffDirectory.objId d.

Definition reopenedFile : TiffFile := {|
  largeImagePath := "dense.tif";
  ifds := [Returns (reidentified laterId Examples.d1);
           Returns (reidentified laterId Examples.d2);
           Returns (reidentified laterId Examples.d0)];
  pastEnd := "Could not set TIFF directory to 3"
|}.

(** A host with PIL whose [_outputTile] hands over a PIL image: the tile
    itself when it is one, and otherwise the image decoded from it. *)
Definition pilHost : Host := {|
  tileLevel := Examples.exactLevel;
  PIL := true;
  TILE_FORMAT_PIL := "PIL";
  _outputTile := λ _ tile _ _ _ _ _ _, Returns (TileImage (asImage tile))
|}.

End MoreExamples.

(** * Properties *)

(** ** The order of the sort *)

Global Instance entry_le_total : Total entry_le.
Proof.
  intros [[aa al] ad] [[ba bl] bd]. unfold entry_le, entry_leb.
  destruct (Z.ltb_spec aa ba), (Z.ltb_spec ba aa),
    (Z.eqb_spec aa ba), (Z.eqb_spec ba aa),
    (Nat.ltb_spec al bl), (Nat.ltb_spec bl al),
    (Nat.eqb_spec al bl), (Nat.eqb_spec bl al),
    (Z.leb_spec (TiledTiffDirectory.objId ad) (TiledTiffDirectory.objId bd)),
    (Z.leb_spec (TiledTiffDirectory.objId bd) (TiledTiffDirectory.objId ad));
    simpl; auto; lia.
Qed.

Global Instance entry_le_trans : Transitive entry_le.
Proof.
  intros [[aa al] ad] [[ba bl] bd] [[ca cl] cd]. unfold entry_le, entry_leb.
  destruct (Z.ltb_spec aa ba), (Z.ltb_spec ba ca), (Z.ltb_spec aa ca),
    (Z.eqb_spec aa ba), (Z.eqb_spec ba ca), (Z.eqb_spec aa ca);
    simpl; try lia; try done.
  destruct (Nat.ltb_spec al bl), (Nat.ltb_spec bl cl), (Nat.ltb_spec al cl),
    (Nat.eqb_spec al bl), (Nat.eqb_spec bl cl), (Nat.eqb_spec al cl);
    simpl; try lia; done.
Qed.

(** An entry that sorts no later than another of the same area has no higher
    level. *)
Lemma entry_le_level (a b : DirEntry) :
  entry_le a b → a.1.1 = b.1.1 → (a.1.2 ≤ b.1.2)%nat.
Proof.
  destruct a as [[aa al] ad], b as [[ba bl] bd]. unfold entry_le, entry_leb.
  simpl. intros H ->. rewrite Z.ltb_irrefl, Z.eqb_refl in H. simpl in H.
  destruct (Nat.ltb_spec al bl); [lia|].
  destruct (Nat.eqb_spec al bl); [lia|]. done.
Qed.

(** ** Python indexing *)

Lemma py_index_nat {A} (l : list A) (i : nat) :
  py_index l (Z.of_nat i) =
  match l !! i with
  | Some a => Returns a
  | None => Raises (IndexError "list index out of range")
  end.
Proof.
  unfold py_index.
  destruct (Z.ltb_spec (Z.of_nat i) 0); [lia|].
  rewrite Nat2Z.id.
  destruct (Z.leb_spec 0 (Z.of_nat i)); [|lia]. simpl.
  destruct (Z.ltb_spec (Z.of_nat i) (Z.of_nat (length l))); [done|].
  rewrite lookup_ge_None_2; [done|lia].
Qed.

Lemma py_index_last {A} (l : list A) (x : A) :
  py_index (l ++ [x]) (-1) = Returns x.
Proof.
  unfold py_index. rewrite length_app. simpl.
  replace (-1 + Z.of_nat (length l + 1)) with (Z.of_nat (length l)) by lia.
  destruct (Z.leb_spec 0 (Z.of_nat (length l))); [|lia].
  destruct (Z.ltb_spec (Z.of_nat (length l)) (Z.of_nat (length l + 1))); [|lia].
  simpl. rewrite Nat2Z.id.
  rewrite lookup_app_r by lia. by rewrite Nat.sub_diag.
Qed.

Lemma py_index_high {A} (l : list A) (z : Z) :
  Z.of_nat (length l) ≤ z →
  py_index l z = Raises (IndexError "list index out of range").
Proof.
  intros H. unfold py_index.
  destruct (Z.ltb_spec z 0); [lia|].
  destruct (Z.ltb_spec z (Z.of_nat (length l))); [lia|].
  by rewrite andb_false_r.
Qed.

Lemma py_index_low {A} (l : list A) (z : Z) :
  z < - Z.of_nat (length l) →
  py_index l z = Raises (IndexError "list index out of range").
Proof.
  intros H. unfold py_index.
  destruct (Z.ltb_spec z 0); [|lia].
  destruct (Z.leb_spec 0 (z + Z.of_nat (length l))); [lia|]. done.
Qed.

(** A negative index in range reads the slot counted from the end. *)
Lemma py_index_negative {A} (l : list A) (z : Z) :
  - Z.of_nat (length l) ≤ z < 0 →
  py_index l z = py_index l (z + Z.of_nat (length l)).
Proof.
  intros H. unfold py_index.
  destruct (Z.ltb_spec z 0); [|lia].
  destruct (Z.ltb_spec (z + Z.of_nat (length l)) 0); [lia|]. done.
Qed.

(** Whatever is read was read from inside the list. *)
Lemma py_index_Returns {A} (l : list A) (z : Z) (a : A) :
  py_index l z = Returns a →
  - Z.of_nat (length l) ≤ z < Z.of_nat (length l).
Proof.
  intros H.
  destruct (Z.le_gt_cases (Z.of_nat (length l)) z) as [Hh|Hh].
  { by rewrite py_index_high in H. }
  destruct (Z.lt_ge_cases z (- Z.of_nat (length l))) as [Hl|Hl].
  { by rewrite py_index_low in H. }
  lia.
Qed.

(** ** [__init__] *)

Section InitProperties.

Context `{host : Host}.

(** The enumeration looks at every directory of a file whose directories are
    read or rejected: it collects the usable ones in order and remembers the
    last validation failure. *)
Lemma enumerate_all (rs : list (outcome Directory)) (endMessage : string)
    (lastException : option exn) (alldir : list DirEntry) :
  Forall readOrRejected rs →
  enumerate rs endMessage lastException alldir =
  Returns {| alldir_of := alldir ++ candidates rs;
             lastException_of :=
               Some (default
                       (default (IOTiffException endMessage) lastException)
                       (last (validationFailures rs))) |}.
Proof.
  intros Hrs. revert lastException alldir.
  induction Hrs as [|r rs Hr Hrs IH]; intros lastException alldir.
  - simpl. rewrite app_nil_r. by destruct lastException.
  - destruct r as [td|e].
    + simpl.
      destruct ((TiledTiffDirectory.tileWidth td =? 0)
                || (TiledTiffDirectory.tileHeight td =? 0)) eqn:Hz.
      * rewrite IH. apply orb_true_iff in Hz.
        unfold candidates. simpl.
        destruct Hz as [->| ->]; simpl; [done|].
        by rewrite andb_false_r.
      * rewrite IH. apply orb_false_iff in Hz. destruct Hz as [-> ->].
        unfold candidates. simpl. by rewrite <- app_assoc.
    + destruct e; simpl in Hr; try done.
      simpl. rewrite IH. unfold candidates. simpl. f_equal. f_equal. f_equal.
      fold (validationFailures rs).
      destruct (validationFailures rs) as [|v vs] eqn:Hv; [done|].
      by rewrite !last_cons; destruct (last vs).
Qed.

Lemma enumerate_entries (rs all : list (outcome Directory)) (endMessage : string)
    (lastException : option exn) (alldir : list DirEntry) (st : Enumerated) :
  rs ⊆ all →
  Forall (entryFrom all) alldir →
  enumerate rs endMessage lastException alldir = Returns st →
  Forall (entryFrom all) (alldir_of st).
Proof.
  revert lastException alldir.
  induction rs as [|r rs IH]; intros lastException alldir Hsub Hall Hen.
  - simpl in Hen. by inversion Hen.
  - assert (rs ⊆ all) as Hsub' by set_solver.
    destruct r as [td|e].
    + simpl in Hen.
      destruct ((TiledTiffDirectory.tileWidth td =? 0)
                || (TiledTiffDirectory.tileHeight td =? 0)) eqn:Hz.
      * by eapply IH.
      * eapply IH; [done| |done].
        apply Forall_app. split; [done|]. apply Forall_singleton.
        apply orb_false_iff in Hz. destruct Hz as [Hw Hh].
        unfold entryFrom. simpl. repeat split; [set_solver|lia|lia].
    + destruct e; simpl in Hen; try done; try (by inversion Hen).
      by eapply IH.
Qed.

(** The dict [directories] after the loop of lines 98-104: every value has
    the tile size of [highest]. *)
Lemma keepDirectory_geometry (highest : Directory) (s : list DirEntry)
    (m : gmap nat Directory) :
  (∀ k d, m !! k = Some d →
     TiledTiffDirectory.tileWidth d = TiledTiffDirectory.tileWidth highest
     ∧ TiledTiffDirectory.tileHeight d = TiledTiffDirectory.tileHeight highest) →
  ∀ k d, foldl (keepDirectory highest) m s !! k = Some d →
     TiledTiffDirectory.tileWidth d = TiledTiffDirectory.tileWidth highest
     ∧ TiledTiffDirectory.tileHeight d = TiledTiffDirectory.tileHeight highest.
Proof.
  revert m. induction s as [|e s IH]; intros m Hm k d; simpl; [by apply Hm|].
  apply IH. intros k' d'. unfold keepDirectory.
  destruct (Z.eqb_spec (TiledTiffDirectory.tileWidth e.2)
              (TiledTiffDirectory.tileWidth highest)) as [Hw|Hw];
    simpl; [|by apply Hm].
  destruct (Z.eqb_spec (TiledTiffDirectory.tileHeight e.2)
              (TiledTiffDirectory.tileHeight highest)) as [Hh|Hh];
    simpl; [|by apply Hm].
  rewrite lookup_insert. case_decide; [|by apply Hm].
  intros [= <-]. done.
Qed.

(** Every key of [directories] is the level of an entry of the list. *)
Lemma keepDirectory_keys (highest : Directory) (s : list DirEntry)
    (m : gmap nat Directory) (k : nat) (d : Directory) :
  foldl (keepDirectory highest) m s !! k = Some d →
  m !! k = Some d ∨ ∃ e, e ∈ s ∧ e.1.2 = k ∧ e.2 = d.
Proof.
  revert m. induction s as [|e s IH]; intros m; simpl; [by left|].
  intros H. apply IH in H. destruct H as [H|(e' & He' & Hk & Hd)].
  - unfold keepDirectory in H.
    destruct (negb _ || negb _); [by left|].
    rewrite lookup_insert in H. case_decide; [|by left].
    right. exists e. split; [set_solver|]. split; [done|congruence].
  - right. exists e'. split; [set_solver|done].
Qed.

(** The last entry of the list is stored under its own level. *)
Lemma keepDirectory_last (s : list DirEntry) (h : DirEntry)
    (m : gmap nat Directory) :
  foldl (keepDirectory h.2) m (s ++ [h]) !! h.1.2 = Some h.2.
Proof.
  rewrite foldl_app. simpl. unfold keepDirectory at 1.
  rewrite !Z.eqb_refl. simpl. by rewrite lookup_insert_eq.
Qed.

Lemma maxKey_spec (m : gmap nat Directory) (top : nat) :
  is_Some (m !! top) →
  (∀ k, is_Some (m !! k) → (k ≤ top)%nat) →
  maxKey m = Returns top.
Proof.
  intros Htop Hle. unfold maxKey.
  assert (∀ k, k ∈ (map_to_list m).*1 ↔ is_Some (m !! k)) as Hkeys.
  { intros k. rewrite list_elem_of_fmap. split.
    - intros ([k' d] & -> & Hin). apply elem_of_map_to_list in Hin. by exists d.
    - intros [d Hd]. exists (k, d). split; [done|]. by apply elem_of_map_to_list. }
  destruct ((map_to_list m).*1) as [|k0 ks] eqn:Hk.
  { apply Hkeys in Htop. by apply elem_of_nil in Htop. }
  f_equal. apply Nat.le_antisymm.
  - apply Hle, Hkeys. apply max_list_elem_of. done.
  - apply max_list_elem_of_le. by apply Hkeys.
Qed.

(** When the top slot is populated, it is the highest populated level. *)
Lemma populatedLevels_top (self : TiffFileTileSource) (top : nat) :
  length (_tiffDirectories self) = S top →
  is_Some (mjoin (_tiffDirectories self !! top)) →
  populatedLevels self ≠ [] ∧ max_list (populatedLevels self) = top.
Proof.
  intros Hlen Htop.
  assert (top ∈ populatedLevels self) as Hin.
  { unfold populatedLevels. apply list_elem_of_filter. split; [done|].
    apply elem_of_seq. lia. }
  split.
  - intros Hnil. rewrite Hnil in Hin. by apply elem_of_nil in Hin.
  - apply Nat.le_antisymm.
    + assert (max_list (populatedLevels self) ∈ populatedLevels self) as Hmax.
      { apply max_list_elem_of. intros Hnil. rewrite Hnil in Hin.
        by apply elem_of_nil in Hin. }
      unfold populatedLevels in Hmax at 2.
      apply list_elem_of_filter in Hmax as [_ Hmax].
      apply elem_of_seq in Hmax. lia.
    + by apply max_list_elem_of_le.
Qed.

(** Lines 85-115 establish the invariant, with the last entry of the sorted
    list as the reference directory. *)
Lemma pyramid_returns (all : list (outcome Directory)) (alldir : list DirEntry)
    (path : string) (lastException : option exn) :
  Forall (entryFrom all) alldir →
  alldir ≠ [] →
  ∃ self ref,
    pyramid alldir path lastException = Returns self
    ∧ pyramidInvariant self ref ∧ Returns ref ∈ all
    ∧ TiledTiffDirectory.tileWidth ref ≠ 0
    ∧ TiledTiffDirectory.tileHeight ref ≠ 0.
Proof.
  intros Hall Hne0. unfold pyramid.
  destruct (Nat.eqb_spec (length alldir) 0) as [Hz|Hne].
  { by destruct alldir. }
  pose proof (merge_sort_Permutation entry_le alldir) as Hperm.
  pose proof (StronglySorted_merge_sort entry_le alldir) as Hsorted.
  assert (Forall (entryFrom all) (merge_sort entry_le alldir)) as Hall'.
  { by rewrite Hperm. }
  destruct (merge_sort entry_le alldir) as [|h s _] using rev_ind.
  { apply Permutation_nil_l in Hperm. by subst alldir. }
  rewrite py_index_last. simpl.
  apply Forall_app in Hall' as [Hs' Hh]. rewrite Forall_singleton in Hh.
  destruct Hh as (Hentry & Hfile & Hw & Hh).
  apply StronglySorted_app in Hsorted as (Hle & _ & _).
  set (directories := foldl (keepDirectory h.2) ∅ (s ++ [h])).
  assert (directories !! h.1.2 = Some h.2) as Htop
    by apply keepDirectory_last.
  assert (∀ k d, directories !! k = Some d →
            TiledTiffDirectory.tileWidth d = TiledTiffDirectory.tileWidth h.2
            ∧ TiledTiffDirectory.tileHeight d = TiledTiffDirectory.tileHeight h.2)
    as Hgeo.
  { apply keepDirectory_geometry. intros k d Hk. by rewrite lookup_empty in Hk. }
  assert (∀ k, is_Some (directories !! k) → (k ≤ h.1.2)%nat) as Hkeys.
  { intros k [d Hd]. pose proof (Hgeo _ _ Hd) as [Hdw Hdh].
    apply keepDirectory_keys in Hd as [Hd|(e & He & <- & <-)].
    { by rewrite lookup_empty in Hd. }
    apply elem_of_app in He as [He|He].
    - apply entry_le_level.
      + apply (Hle e h); [done|]. by apply list_elem_of_singleton.
      + rewrite Forall_forall in Hs'. destruct (Hs' e He) as (-> & _).
        rewrite Hentry. simpl. by rewrite Hdw, Hdh.
    - apply list_elem_of_singleton in He. by subst e. }
  rewrite (maxKey_spec directories h.1.2); [|by eexists|done].
  simpl. eexists. exists h.2.
  split; [reflexivity|]. split; [|done].
  set (dirs := (λ key, directories !! key) <$> seq 0 (h.1.2 + 1)).
  assert (length dirs = S h.1.2) as Hlen.
  { unfold dirs. rewrite length_fmap, length_seq. lia. }
  assert (∀ i, (i ≤ h.1.2)%nat → dirs !! i = Some (directories !! i)) as Hdirs.
  { intros i Hi. unfold dirs. rewrite list_lookup_fmap.
    rewrite lookup_seq_lt by lia. done. }
  unfold pyramidInvariant. simpl. fold dirs.
  destruct (populatedLevels_top
              {| _tiffDirectories := dirs;
                 tileWidth := TiledTiffDirectory.tileWidth h.2;
                 tileHeight := TiledTiffDirectory.tileHeight h.2;
                 levels := Z.of_nat (length dirs);
                 sizeX := TiledTiffDirectory.imageWidth h.2;
                 sizeY := TiledTiffDirectory.imageHeight h.2 |} h.1.2)
    as [Hpne Hpmax]; simpl.
  { done. }
  { rewrite Hdirs by lia. simpl. by eexists. }
  repeat split; try done.
  - rewrite Hpmax, Hlen. lia.
  - rewrite Hlen. replace (Z.to_nat (Z.of_nat (S h.1.2) - 1)) with h.1.2 by lia.
    rewrite Hdirs by lia. by rewrite Htop.
  - assert (i ≤ h.1.2)%nat as Hi.
    { apply lookup_lt_Some in H. lia. }
    rewrite Hdirs in H by done. inversion H as [Hd]. by apply (Hgeo i d).
  - assert (i ≤ h.1.2)%nat as Hi.
    { apply lookup_lt_Some in H. lia. }
    rewrite Hdirs in H by done. inversion H as [Hd]. by apply (Hgeo i d).
Qed.

Lemma candidates_usable (rs : list (outcome Directory)) :
  candidates rs = [] ↔ filter (λ r, usable r = true) rs = [].
Proof.
  induction rs as [|r rs IH]; [done|].
  unfold candidates. simpl. fold (candidates rs).
  rewrite filter_cons.
  destruct r as [td|e].
  - destruct (usable (Returns td)) eqn:Hu; case_decide; try done.
  - case_decide; done.
Qed.

(** A source that [__init__] returns satisfies the invariant, and its
    reference directory is a tiled directory of the file. *)
Lemma init_invariant (file : TiffFile) (self : TiffFileTileSource) :
  __init__ file = Returns self →
  ∃ ref, pyramidInvariant self ref ∧ Returns ref ∈ ifds file
         ∧ TiledTiffDirectory.tileWidth ref ≠ 0
         ∧ TiledTiffDirectory.tileHeight ref ≠ 0.
Proof.
  unfold __init__. intros H.
  destruct (enumerate (ifds file) (pastEnd file) None []) as [st|e] eqn:Hen;
    [|done].
  simpl in H.
  assert (Forall (entryFrom (ifds file)) (alldir_of st)) as Hall.
  { eapply enumerate_entries; [|apply Forall_nil_2|exact Hen]. done. }
  destruct (alldir_of st) as [|e0 es] eqn:Hst; [done|].
  destruct (pyramid_returns (ifds file) (e0 :: es) (largeImagePath file)
              (lastException_of st) Hall) as (self' & ref & Hp & Hinv);
    [done|].
  rewrite Hp in H. inversion H; subst self'. by exists ref.
Qed.

(** A file whose directories are read or rejected opens exactly when one of
    them is usable. *)
Lemma init_returns (file : TiffFile) :
  Forall readOrRejected (ifds file) →
  filter (λ r, usable r = true) (ifds file) ≠ [] →
  ∃ self, __init__ file = Returns self.
Proof.
  intros Hrs Hu. unfold __init__.
  rewrite enumerate_all by done. simpl.
  destruct (pyramid_returns (ifds file) (candidates (ifds file))
              (largeImagePath file)
              (Some (default (IOTiffException (pastEnd file))
                             (last (validationFailures (ifds file))))))
    as (self & ref & Hp & _).
  - pose proof (enumerate_all (ifds file) (pastEnd file) None [] Hrs) as Hen.
    eapply enumerate_entries in Hen; [exact Hen|done|apply Forall_nil_2].
  - by rewrite candidates_usable.
  - by exists self.
Qed.

(** No method changes the object. *)
Lemma invokeAll_same (self : TiffFileTileSource) (calls : list Call) :
  invokeAll self calls = self.
Proof.
  unfold invokeAll. induction calls as [|c calls IH]; [done|].
  simpl. by destruct c.
Qed.

(** C3.  A source that [__init__] returns has a reference directory, a
    usable directory of the file, such that: levels is the highest populated
    level plus one, the slot at levels - 1 holds the reference directory,
    every populated slot has its tile width and height, and the source has
    its tile size and its image size as sizeX and sizeY.  The same holds of
    the source after any sequence of method calls, which is the same
    object. *)
Theorem pyramid_invariant_kept (file : TiffFile) (self : TiffFileTileSource) :
  __init__ file = Returns self →
  ∃ ref,
    Returns ref ∈ ifds file ∧ usable (Returns ref) = true
    ∧ pyramidInvariant self ref
    ∧ ∀ calls, invokeAll self calls = self
               ∧ pyramidInvariant (invokeAll self calls) ref.
Proof.
  intros Hinit.
  destruct (init_invariant file self Hinit) as (ref & Hinv & Hin & Hw & Hh).
  exists ref. split; [done|]. split.
  { simpl. apply andb_true_iff.
    split; apply negb_true_iff; by apply Z.eqb_neq. }
  split; [done|].
  intros calls. by rewrite invokeAll_same.
Qed.

End InitProperties.

(** ** [getTile]: fuel *)

Section FuelProperties.

Context `{host : Host}.

Implicit Types (self : TiffFileTileSource) (x y z : Z) (kwargs : Kwargs).
Implicit Types g : Z → Z → Z → bool → bool → Kwargs → option (outcome Tile).

Lemma forEach_ext {A S} (items : list A)
    (body1 body2 : A → S → option (outcome S)) (s : S) :
  (∀ a s', a ∈ items → body1 a s' = body2 a s') →
  forEach items body1 s = forEach items body2 s.
Proof.
  revert s. induction items as [|a items IH]; intros s Hb; [done|].
  simpl. rewrite Hb by set_solver.
  destruct (body2 a s) as [[s'|e]|]; simpl; try done.
  apply IH. intros. apply Hb. set_solver.
Qed.

(** The synthesizer calls [getTile] back only with pilImageAllowed and
    sparseFallback set and with edge=False. *)
Lemma getTileFromEmptyDirectory_ext g1 g2 self x y z :
  (∀ x' y' z', g1 x' y' z' true true edge_False = g2 x' y' z' true true edge_False) →
  getTileFromEmptyDirectory g1 self x y z = getTileFromEmptyDirectory g2 self x y z.
Proof.
  intros Hg. unfold getTileFromEmptyDirectory.
  destruct (scanUp _ _ _ _) as [[sz|e]|]; simpl; try done.
  destruct (negb PIL); [done|].
  destruct (tileWidth self =? 0); [done|].
  destruct (tileHeight self =? 0); [done|].
  f_equal. apply forEach_ext. intros newX t _.
  apply forEach_ext. intros newY t' _.
  destruct (skipCell _ _ _ _ _ _ _); [done|]. by rewrite Hg.
Qed.

Lemma getTile_try_ext g1 g2 self x y z pil sf kwargs :
  (∀ x' y' z', g1 x' y' z' true true edge_False = g2 x' y' z' true true edge_False) →
  getTile_try g1 self x y z pil sf kwargs = getTile_try g2 self x y z pil sf kwargs.
Proof.
  intros Hg. unfold getTile_try. simpl.
  destruct (py_index (_tiffDirectories self) z) as [[td|]|e]; try done.
  destruct sf; [done|].
  by rewrite (getTileFromEmptyDirectory_ext g1 g2).
Qed.

(** The upward scan ends within the steps it is given. *)
Lemma scanUp_returns (dirs : list (option Directory)) (steps : nat) (scale z : Z) :
  (Z.to_nat (Z.of_nat (length dirs) - z) ≤ steps)%nat →
  ∃ r, scanUp steps dirs scale z = Some r.
Proof.
  revert scale z. induction steps as [|steps IH]; intros scale z Hs.
  - simpl. rewrite py_index_high by lia. by eexists.
  - simpl. destruct (py_index dirs z) as [[td|]|e] eqn:Hi; try by eexists.
    apply IH. apply py_index_Returns in Hi. lia.
Qed.

(** Where the upward scan ends: at a populated slot, no lower than it
    started, with the scale doubled once per level, having passed over
    empty slots only. *)
Lemma scanUp_spec (dirs : list (option Directory)) (steps : nat)
    (scale z scale' z' : Z) :
  scanUp steps dirs scale z = Some (Returns (scale', z')) →
  z ≤ z'
  ∧ scale' = scale * 2 ^ (z' - z)
  ∧ (∃ td, py_index dirs z' = Returns (Some td))
  ∧ ∀ i, z ≤ i < z' → py_index dirs i = Returns None.
Proof.
  revert scale z. induction steps as [|steps IH]; intros scale z; simpl.
  - destruct (py_index dirs z) as [[td|]|e] eqn:Hi; try done.
    intros [= <- <-]. rewrite Z.sub_diag. simpl.
    split; [lia|]. split; [lia|]. split; [by exists td|]. lia.
  - destruct (py_index dirs z) as [[td|]|e] eqn:Hi; try done.
    + intros [= <- <-]. rewrite Z.sub_diag. simpl.
      split; [lia|]. split; [lia|]. split; [by exists td|]. lia.
    + intros H. apply IH in H as (Hle & -> & Htd & Hempty).
      split; [lia|]. split.
      { replace (z' - z) with (Z.succ (z' - (z + 1))) by lia.
        rewrite Z.pow_succ_r by lia. lia. }
      split; [done|]. intros i Hi'.
      destruct (Z.eq_dec i z) as [->|]; [done|]. apply Hempty. lia.
Qed.

Lemma forEach_returns {A S} (items : list A)
    (body : A → S → option (outcome S)) (s : S) :
  (∀ a s', ∃ r, body a s' = Some r) →
  ∃ r, forEach items body s = Some r.
Proof.
  intros Hb. revert s. induction items as [|a items IH]; intros s; simpl.
  - by eexists.
  - destruct (Hb a s) as [[s'|e] ->]; simpl; [apply IH|by eexists].
Qed.

(** The synthesizer returns when its calls back at the level it climbed to
    return. *)
Lemma getTileFromEmptyDirectory_returns g self x y z :
  (∀ x' y' z',
     - Z.of_nat (length (_tiffDirectories self)) ≤ z'
       < Z.of_nat (length (_tiffDirectories self)) →
     z ≤ z' →
     ∃ r, g x' y' z' true true edge_False = Some r) →
  ∃ r, getTileFromEmptyDirectory g self x y z = Some r.
Proof.
  intros Hg. unfold getTileFromEmptyDirectory.
  destruct (scanUp_returns (_tiffDirectories self)
              (Z.to_nat (Z.of_nat (length (_tiffDirectories self)) - z)) 1 z)
    as [[[scale' z']|e] Hscan]; [lia| |]; rewrite Hscan; simpl;
    [|by eexists].
  apply scanUp_spec in Hscan as (Hle & _ & [td Htd] & _).
  apply py_index_Returns in Htd.
  destruct (negb PIL); [by eexists|].
  destruct (tileWidth self =? 0); [by eexists|].
  destruct (tileHeight self =? 0); [by eexists|].
  match goal with
  | |- ∃ r, fbind ?m _ = Some r =>
      assert (∃ r, m = Some r) as [[t|e] ->]
  end; simpl; try by eexists.
  apply forEach_returns. intros newX t.
  apply forEach_returns. intros newY t'.
  destruct (skipCell _ _ _ _ _ _ _); [by eexists|].
  destruct (Hg (x * scale' + newX) (y * scale' + newY) z' Htd Hle)
    as [[sub|e] ->]; simpl; by eexists.
Qed.

Lemma py_index_Raises {A} (l : list A) (z : Z) (e : exn) :
  py_index l z = Raises e → e = IndexError "list index out of range".
Proof.
  unfold py_index. destruct (_ && _); [|congruence].
  destruct (l !! _); congruence.
Qed.

(** An IOTiffException in the [try] means that the level was in the list. *)
Lemma getTile_try_IO_range g self x y z pil sf kwargs (m : string) :
  getTile_try g self x y z pil sf kwargs = Some (Raises (IOTiffException m)) →
  - Z.of_nat (length (_tiffDirectories self)) ≤ z
    < Z.of_nat (length (_tiffDirectories self)).
Proof.
  unfold getTile_try. simpl.
  destruct (py_index (_tiffDirectories self) z) as [slot|e] eqn:Hi.
  - intros _. by apply py_index_Returns in Hi.
  - apply py_index_Raises in Hi. by subst e.
Qed.

Lemma chainDepth_pos (n z : Z) : 0 ≤ n → 1 ≤ chainDepth n z.
Proof.
  intros Hn. unfold chainDepth.
  destruct (Z.leb_spec 0 z), (Z.ltb_spec z n), (Z.leb_spec (- n) z),
    (Z.ltb_spec z 0); simpl; lia.
Qed.

Lemma chainDepth_step (n z : Z) :
  - n ≤ z < n → z ≠ 0 → chainDepth n (z - 1) + 1 ≤ chainDepth n z.
Proof.
  intros Hz Hz0. unfold chainDepth.
  destruct (Z.leb_spec 0 z), (Z.ltb_spec z n), (Z.leb_spec (- n) z),
    (Z.ltb_spec z 0), (Z.leb_spec 0 (z - 1)), (Z.ltb_spec (z - 1) n),
    (Z.leb_spec (- n) (z - 1)), (Z.ltb_spec (z - 1) 0); simpl; lia.
Qed.

Lemma chainDepth_le (n z : Z) : 0 ≤ n → chainDepth n z ≤ n + 1.
Proof.
  intros Hn. unfold chainDepth.
  destruct (Z.leb_spec 0 z), (Z.ltb_spec z n), (Z.leb_spec (- n) z),
    (Z.ltb_spec z 0); simpl; lia.
Qed.

(** A call with [sparseFallback] set returns within [chainDepth] nested
    activations. *)
Lemma getTile_fuel_fallback_returns (n : nat) self x y z pil kwargs :
  chainDepth (Z.of_nat (length (_tiffDirectories self))) z ≤ Z.of_nat n →
  ∃ r, getTile_fuel n self x y z pil true kwargs = Some r.
Proof.
  revert x y z pil kwargs. induction n as [|n IH]; intros x y z pil kwargs Hn.
  { pose proof (chainDepth_pos (Z.of_nat (length (_tiffDirectories self))) z).
    lia. }
  simpl. unfold getTile_body.
  destruct (getTile_try (getTile_fuel n self) self x y z pil true kwargs)
    as [[tile|e]|] eqn:Htry.
  - by eexists.
  - destruct e; simpl; try by eexists.
    apply getTile_try_IO_range in Htry.
    destruct (negb (z =? 0) && PIL) eqn:Hc; simpl; [|by eexists].
    apply andb_true_iff in Hc as [Hz0 _].
    apply negb_true_iff, Z.eqb_neq in Hz0.
    destruct (IH (x / 2) (y / 2) (z - 1) true edge_False) as [[t|e] ->].
    { pose proof (chainDepth_step _ z Htry Hz0). lia. }
    + simpl. by eexists.
    + simpl. by eexists.
  - exfalso. revert Htry. unfold getTile_try. simpl.
    destruct (py_index (_tiffDirectories self) z) as [[td|]|e]; simpl; try done.
    destruct (TiledTiffDirectory.getTile td x y); done.
Qed.

(** A call returns with fuel [S n] when [n] covers the fallback chain from
    every level of the list at or above [z]. *)
Lemma getTile_fuel_returns (n : nat) self x y z pil sf kwargs :
  (∀ z', - Z.of_nat (length (_tiffDirectories self)) ≤ z'
         < Z.of_nat (length (_tiffDirectories self)) →
         z ≤ z' →
         chainDepth (Z.of_nat (length (_tiffDirectories self))) z' ≤ Z.of_nat n) →
  ∃ r, getTile_fuel (S n) self x y z pil sf kwargs = Some r.
Proof.
  intros Hn. destruct sf.
  { apply getTile_fuel_fallback_returns.
    destruct (Z.lt_ge_cases z (- Z.of_nat (length (_tiffDirectories self))));
      [|destruct (Z.lt_ge_cases z (Z.of_nat (length (_tiffDirectories self))))].
    - unfold chainDepth.
      destruct (Z.leb_spec 0 z), (Z.leb_spec (- Z.of_nat (length (_tiffDirectories self))) z);
        simpl; try lia; rewrite ?andb_false_r; lia.
    - specialize (Hn z). lia.
    - unfold chainDepth.
      destruct (Z.ltb_spec z (Z.of_nat (length (_tiffDirectories self)))),
        (Z.ltb_spec z 0); simpl; try lia; rewrite ?andb_false_r; simpl; lia. }
  simpl. unfold getTile_body.
  assert (∃ r, getTile_try (getTile_fuel n self) self x y z pil false kwargs
               = Some r) as [r0 Htry].
  { unfold getTile_try. simpl.
    destruct (py_index (_tiffDirectories self) z) as [[td|]|e]; simpl;
      try by eexists.
    - destruct (TiledTiffDirectory.getTile td x y); simpl; by eexists.
    - destruct (getTileFromEmptyDirectory_returns (getTile_fuel n self) self x y z)
        as [[t|e] ->]; simpl; try by eexists.
      intros x' y' z' Hr Hle. apply getTile_fuel_fallback_returns. by apply Hn. }
  rewrite Htry. destruct r0 as [tile|e]; [by eexists|].
  destruct e; simpl; by eexists.
Qed.

(** Monotonicity in the fuel. *)
Lemma forEach_mono {A S} (items : list A)
    (body1 body2 : A → S → option (outcome S)) (s : S) (r : outcome S) :
  (∀ a s' r', body1 a s' = Some r' → body2 a s' = Some r') →
  forEach items body1 s = Some r → forEach items body2 s = Some r.
Proof.
  intros Hb. revert s. induction items as [|a items IH]; intros s; [done|].
  simpl. destruct (body1 a s) as [r1|] eqn:H1; [|done].
  rewrite (Hb _ _ _ H1). destruct r1; simpl; [apply IH|done].
Qed.

Lemma getTileFromEmptyDirectory_mono g1 g2 self x y z (r : outcome Image) :
  (∀ x' y' z' p s kw r', g1 x' y' z' p s kw = Some r' → g2 x' y' z' p s kw = Some r') →
  getTileFromEmptyDirectory g1 self x y z = Some r →
  getTileFromEmptyDirectory g2 self x y z = Some r.
Proof.
  intros Hg. unfold getTileFromEmptyDirectory.
  destruct (scanUp _ _ _ _) as [[sz|e]|]; simpl; try done.
  destruct (negb PIL); [done|].
  destruct (tileWidth self =? 0); [done|].
  destruct (tileHeight self =? 0); [done|].
  match goal with
  | |- fbind ?m1 _ = _ → fbind ?m2 _ = _ =>
      destruct m1 as [r1|] eqn:H1; [|done];
      assert (m2 = Some r1) as ->; [|done]
  end.
  revert H1. apply forEach_mono. intros newX t r'.
  apply forEach_mono. intros newY t' r''.
  destruct (skipCell _ _ _ _ _ _ _); [done|].
  destruct (g1 _ _ _ _ _ _) as [r3|] eqn:H3; [|done].
  by rewrite (Hg _ _ _ _ _ _ _ H3).
Qed.

Lemma getTile_try_mono g1 g2 self x y z pil sf kwargs (r : outcome Tile) :
  (∀ x' y' z' p s kw r', g1 x' y' z' p s kw = Some r' → g2 x' y' z' p s kw = Some r') →
  getTile_try g1 self x y z pil sf kwargs = Some r →
  getTile_try g2 self x y z pil sf kwargs = Some r.
Proof.
  intros Hg. unfold getTile_try. simpl.
  destruct (py_index (_tiffDirectories self) z) as [[td|]|e]; try done.
  destruct sf; [done|].
  destruct (getTileFromEmptyDirectory g1 self x y z) as [r1|] eqn:H1; [|done].
  by rewrite (getTileFromEmptyDirectory_mono g1 g2 _ _ _ _ _ Hg H1).
Qed.

Lemma getTile_fuel_S (n : nat) self x y z pil sf kwargs (r : outcome Tile) :
  getTile_fuel n self x y z pil sf kwargs = Some r →
  getTile_fuel (S n) self x y z pil sf kwargs = Some r.
Proof.
  revert x y z pil sf kwargs r.
  induction n as [|n IH]; intros x y z pil sf kwargs r; [done|].
  intros H. simpl in H.
  destruct (getTile_try (getTile_fuel n self) self x y z pil sf kwargs)
    as [r0|] eqn:Htry; [|by unfold getTile_body in H; rewrite Htry in H].
  change (getTile_fuel (S (S n)) self x y z pil sf kwargs) with
    (getTile_body (getTile_fuel (S n) self) self x y z pil sf kwargs).
  unfold getTile_body in *. rewrite Htry in H.
  rewrite (getTile_try_mono _ (getTile_fuel (S n) self) _ _ _ _ _ _ _ _
             (λ x' y' z' p s kw r', IH x' y' z' p s kw r') Htry).
  destruct r0 as [tile|e]; [done|].
  destruct e; try done.
  destruct (sf && negb (z =? 0) && PIL); [|done].
  destruct (getTile_fuel n self (x / 2) (y / 2) (z - 1) true sf edge_False)
    as [r1|] eqn:H1; [|done].
  by rewrite (IH _ _ _ _ _ _ _ H1).
Qed.

Lemma getTile_fuel_le (n m : nat) self x y z pil sf kwargs (r : outcome Tile) :
  (n ≤ m)%nat →
  getTile_fuel n self x y z pil sf kwargs = Some r →
  getTile_fuel m self x y z pil sf kwargs = Some r.
Proof.
  induction 1 as [|m Hle IH]; [done|].
  intros H. by apply getTile_fuel_S, IH.
Qed.

End FuelProperties.

(** ** [getTile]: the method *)

Section GetTileProperties.

Context `{host : Host}.

Implicit Types (self : TiffFileTileSource) (x y z : Z) (kwargs : Kwargs).

(** Every call of [getTile] returns or raises. *)
Lemma getTile_total self x y z pil sf kwargs :
  ∃ r, getTile self x y z pil sf kwargs = Some r.
Proof.
  unfold getTile, enoughFuel. apply getTile_fuel_returns. intros z' _ _.
  pose proof (chainDepth_le (Z.of_nat (length (_tiffDirectories self))) z').
  lia.
Qed.

(** A result under any fuel is the result of the method. *)
Lemma getTile_fuel_stable (n : nat) self x y z pil sf kwargs (r : outcome Tile) :
  getTile_fuel n self x y z pil sf kwargs = Some r →
  getTile self x y z pil sf kwargs = Some r.
Proof.
  intros H. destruct (Nat.le_gt_cases n (enoughFuel self)) as [Hle|Hgt].
  - by apply (getTile_fuel_le n).
  - destruct (getTile_total self x y z pil sf kwargs) as [r' Hr'].
    rewrite Hr'. apply (getTile_fuel_le _ n) in Hr'; [|lia]. congruence.
Qed.

Lemma getTile_fallback_fuel self x y z pil kwargs :
  getTile_fuel (S (length (_tiffDirectories self))) self x y z pil true kwargs
  = getTile self x y z pil true kwargs.
Proof.
  destruct (getTile_fuel_fallback_returns (S (length (_tiffDirectories self)))
              self x y z pil kwargs) as [r Hr].
  { pose proof (chainDepth_le (Z.of_nat (length (_tiffDirectories self))) z).
    lia. }
  rewrite Hr. symmetry. by eapply getTile_fuel_stable.
Qed.

(** The method satisfies the equation of its body. *)
Lemma getTile_unfold self x y z pil sf kwargs :
  getTile self x y z pil sf kwargs
  = getTile_body (getTile self) self x y z pil sf kwargs.
Proof.
  unfold getTile at 1, enoughFuel.
  change (getTile_fuel (S (S (length (_tiffDirectories self)))) self
            x y z pil sf kwargs)
    with (getTile_body
            (getTile_fuel (S (length (_tiffDirectories self))) self) self
            x y z pil sf kwargs).
  unfold getTile_body.
  rewrite (getTile_try_ext _ (getTile self))
    by (intros; apply getTile_fallback_fuel).
  destruct (getTile_try (getTile self) self x y z pil sf kwargs)
    as [[tile|e]|]; try done.
  destruct e; try done.
  destruct sf; [|done]. by rewrite getTile_fallback_fuel.
Qed.

(** A level outside the list raises 'z layer does not exist'. *)
Lemma getTile_outside self x y z pil sf kwargs :
  z < - Z.of_nat (length (_tiffDirectories self))
  ∨ Z.of_nat (length (_tiffDirectories self)) ≤ z →
  getTile self x y z pil sf kwargs
  = Some (Raises (TileSourceException "z layer does not exist")).
Proof.
  intros Hz. rewrite getTile_unfold. unfold getTile_body, getTile_try.
  destruct Hz; [rewrite py_index_low by done|rewrite py_index_high by done];
    done.
Qed.

(** A negative level inside the list is served from the slot counted from
    the end of the list. *)
Lemma getTile_negative self x y z pil sf kwargs (td : Directory)
    (tile out : Tile) :
  - Z.of_nat (length (_tiffDirectories self)) ≤ z < 0 →
  _tiffDirectories self
    !! Z.to_nat (z + Z.of_nat (length (_tiffDirectories self))) = Some (Some td) →
  TiledTiffDirectory.getTile td x y = Returns tile →
  _outputTile self tile
    (if PIL && isImage tile then TILE_FORMAT_PIL else "JPEG")
    x y z pil kwargs = Returns out →
  getTile self x y z pil sf kwargs = Some (Returns out).
Proof.
  intros Hz Hslot Hread Hout. rewrite getTile_unfold.
  unfold getTile_body, getTile_try.
  rewrite py_index_negative by done.
  replace (z + Z.of_nat (length (_tiffDirectories self)))
    with (Z.of_nat (Z.to_nat (z + Z.of_nat (length (_tiffDirectories self)))))
    by lia.
  rewrite py_index_nat, Hslot. simpl. rewrite Hread. simpl.
  by rewrite Hout.
Qed.

(** What the method does when, with [sparseFallback] set, the fetch at its
    level fails. *)
Lemma getTile_level_fails self x y z pil kwargs (m : string) :
  0 ≤ z →
  levelFails self x y z m →
  getTile self x y z pil true kwargs =
  if negb (z =? 0) && PIL then
    fbind (getTile self (x / 2) (y / 2) (z - 1) true true edge_False)
      (λ image,
       Some (_outputTile self (fallbackTile self x y image) "PIL" x y z
               pil kwargs))
  else Some (Raises (TileSourceException ("Internal I/O failure: " +:+ m))).
Proof.
  intros Hz Hfail. rewrite getTile_unfold. unfold getTile_body, getTile_try.
  replace z with (Z.of_nat (Z.to_nat z)) at 1 by lia. rewrite py_index_nat.
  destruct Hfail as [[-> ->]|(td & -> & Hread)]; simpl; [done|].
  rewrite Hread. done.
Qed.

(** What the method does at an empty level when [sparseFallback] is not
    set: it hands the request to [getTileFromEmptyDirectory]. *)
Lemma getTile_synthesizes self x y z pil kwargs :
  0 ≤ z →
  _tiffDirectories self !! Z.to_nat z = Some None →
  getTile self x y z pil false kwargs =
  match
    fbind (getTileFromEmptyDirectory (getTile self) self x y z) (λ tile,
    Some (_outputTile self (TileImage tile) TILE_FORMAT_PIL x y z pil kwargs))
  with
  | Some (Raises e) => Some (Raises (surfaced e))
  | r => r
  end.
Proof.
  intros Hz Hslot. rewrite getTile_unfold. unfold getTile_body, getTile_try.
  replace z with (Z.of_nat (Z.to_nat z)) at 1 by lia. rewrite py_index_nat.
  rewrite Hslot. simpl.
  destruct (getTileFromEmptyDirectory (getTile self) self x y z)
    as [[tile|e]|]; simpl; try done.
  - replace (if PIL && true then TILE_FORMAT_PIL else TILE_FORMAT_PIL)
      with TILE_FORMAT_PIL by (by destruct PIL).
    destruct (_outputTile _ _ _ _ _ _ _ _) as [t|e]; [done|]. by destruct e.
  - by destruct e.
Qed.

End GetTileProperties.

(** ** [getTileFromEmptyDirectory] against its description *)

Section SynthesisProperties.

Context `{host : Host}.

Implicit Types (self : TiffFileTileSource) (x y z : Z).

(** The loop of lines 181-183 finds the least populated level at or above
    [z], and doubles the scale once per level climbed. *)
Lemma scanUp_climb (dirs : list (option Directory)) (steps : nat) (scale z : Z) :
  0 ≤ z →
  (length dirs - Z.to_nat z ≤ steps)%nat →
  scanUp steps dirs scale z =
  match list_find is_Some (drop (Z.to_nat z) dirs) with
  | Some (k, _) => Some (Returns (scale * 2 ^ Z.of_nat k, z + Z.of_nat k))
  | None => Some (Raises (IndexError "list index out of range"))
  end.
Proof.
  revert scale z. induction steps as [|steps IH]; intros scale z Hz Hs.
  - simpl. rewrite py_index_high by lia. by rewrite drop_ge by lia.
  - simpl. replace z with (Z.of_nat (Z.to_nat z)) at 1 by lia.
    rewrite py_index_nat.
    destruct (dirs !! Z.to_nat z) as [slot|] eqn:Hslot.
    + rewrite (drop_S _ _ _ Hslot). simpl. destruct slot as [td|].
      * rewrite decide_True by (by eexists). simpl.
        by rewrite Z.mul_1_r, Z.add_0_r.
      * rewrite decide_False by (by intros [? ?]).
        rewrite IH by lia.
        replace (Z.to_nat (z + 1)) with (S (Z.to_nat z)) by lia.
        destruct (list_find is_Some (drop (S (Z.to_nat z)) dirs))
          as [[k o]|]; simpl; [|done].
        do 3 f_equal; [|lia].
        rewrite Nat2Z.inj_succ, Z.pow_succ_r by lia. lia.
    + apply lookup_ge_None in Hslot. by rewrite drop_ge by lia.
Qed.

Lemma fbind_Returns {A} (m : option (outcome A)) :
  fbind m (λ a, Some (Returns a)) = m.
Proof. by destruct m as [[a|e]|]. Qed.

Lemma forEach_app {A S} (l1 l2 : list A) (body : A → S → option (outcome S))
    (s : S) :
  forEach (l1 ++ l2) body s = fbind (forEach l1 body s) (forEach l2 body).
Proof.
  revert s. induction l1 as [|a l1 IH]; intros s; simpl; [done|].
  destruct (body a s) as [[s'|e]|]; simpl; auto.
Qed.

(** A loop over a list built by a nested comprehension is the nest of
    loops. *)
Lemma forEach_bind {A B S} (l : list A) (f : A → list B)
    (body : B → S → option (outcome S)) (s : S) :
  forEach (a ← l; f a) body s = forEach l (λ a s', forEach (f a) body s') s.
Proof.
  revert s. induction l as [|a l IH]; intros s; [done|].
  simpl. rewrite forEach_app.
  destruct (forEach (f a) body s) as [[s'|e]|]; simpl; auto.
Qed.

(** A loop that passes over some items is the loop over the others. *)
Lemma forEach_filter {A S} (l : list A) (keep : A → bool)
    (body : A → S → option (outcome S)) (s : S) :
  forEach (filter (λ a, keep a = true) l) body s
  = forEach l (λ a s', if keep a then body a s' else Some (Returns s')) s.
Proof.
  revert s. induction l as [|a l IH]; intros s; [done|].
  rewrite filter_cons. simpl. destruct (keep a) eqn:Hk.
  - rewrite decide_True by done. simpl.
    destruct (body a s) as [[s'|e]|]; simpl; auto.
  - rewrite decide_False by done. simpl. apply IH.
Qed.

(** The cells that are fetched are those that line 190 does not pass over. *)
Lemma fetched_skipCell (x y scale : Z) (maxX maxY : Q) (dx dy : Z) :
  fetched x y scale maxX maxY (dx, dy)
  = negb (skipCell x y scale dx dy maxX maxY).
Proof.
  unfold fetched, skipCell. simpl.
  destruct (dx =? 0), (dy =? 0), (Qle_bool maxX _), (Qle_bool maxY _); done.
Qed.

(** The two nested loops of lines 188-199 fetch and paste the sub-cells that
    are not passed over, in the order of [subCells]. *)
Lemma pasteCells_loops (fetch : Z → Z → Z → option (outcome Tile))
    self x y (scale zk : Z) (maxX maxY : Q) (canvas : Image) :
  pasteCells fetch self x y scale zk
    (filter (λ c, fetched x y scale maxX maxY c = true) (subCells scale)) canvas
  = forEach (range scale) (λ newX tile,
      forEach (range scale) (λ newY tile,
        if skipCell x y scale newX newY maxX maxY then Some (Returns tile)
        else
          fbind (fetch (x * scale + newX) (y * scale + newY) zk) (λ subtile,
          Some (Returns
            (Image_paste tile (asImage subtile)
               (newX * tileWidth self) (newY * tileHeight self)))))
        tile)
      canvas.
Proof.
  unfold pasteCells. rewrite forEach_filter. unfold subCells.
  rewrite forEach_bind. apply forEach_ext. intros dx t _.
  rewrite forEach_bind. apply forEach_ext. intros dy t' _.
  simpl. rewrite fetched_skipCell.
  destruct (skipCell _ _ _ _ _ _ _); simpl; [done|].
  apply fbind_Returns.
Qed.

(** The synthesizer does what its description says, whatever [getTile] is
    called back. *)
Lemma getTileFromEmptyDirectory_spec
    (g : Z → Z → Z → bool → bool → Kwargs → option (outcome Tile))
    self x y z :
  0 ≤ z →
  PIL = true →
  tileWidth self ≠ 0 →
  tileHeight self ≠ 0 →
  is_Some (climb self z) →
  getTileFromEmptyDirectory g self x y z
  = synthesize_spec (λ x' y' z', g x' y' z' true true edge_False) self x y z.
Proof.
  intros Hz HPIL Hw Hh [k Hk]. unfold getTileFromEmptyDirectory, synthesize_spec.
  rewrite Hk. unfold climb in Hk.
  rewrite scanUp_climb by lia.
  destruct (list_find is_Some (drop (Z.to_nat z) (_tiffDirectories self)))
    as [[k' o]|]; [|done].
  simpl in Hk. injection Hk as ->. simpl.
  rewrite HPIL. simpl.
  destruct (Z.eqb_spec (tileWidth self) 0); [done|].
  destruct (Z.eqb_spec (tileHeight self) 0); [done|].
  rewrite Z.mul_1_l. unfold gridBound.
  by rewrite pasteCells_loops.
Qed.

(** A composed canvas keeps the size of the canvas it started from. *)
Lemma forEach_paste_size {A} (items : list A)
    (body : A → Image → option (outcome Image)) (canvas result : Image) :
  (∀ a c c', body a c = Some (Returns c') → imageSize c' = imageSize c) →
  forEach items body canvas = Some (Returns result) →
  imageSize result = imageSize canvas.
Proof.
  intros Hb. revert canvas. induction items as [|a items IH]; intros canvas.
  - simpl. by intros [= ->].
  - simpl. destruct (body a canvas) as [[c'|e]|] eqn:Hc; simpl; try done.
    intros H. apply IH in H. rewrite H. by eapply Hb.
Qed.

(** A synthesized tile is [tileWidth] by [tileHeight] pixels. *)
Lemma synthesize_spec_size (fetch : Z → Z → Z → option (outcome Tile))
    self x y z (im : Image) :
  synthesize_spec fetch self x y z = Some (Returns im) →
  imageSize im = Some (tileWidth self, tileHeight self).
Proof.
  unfold synthesize_spec. destruct (climb self z) as [k|]; [|done].
  destruct (pasteCells _ _ _ _ _ _ _ _) as [[c|e]|]; simpl; try done.
  by intros [= <-].
Qed.

(** The origin sub-cell is among the fetched cells. *)
Lemma origin_fetched (x y : Z) (k : nat) (maxX maxY : Q) :
  (0, 0) ∈ filter (λ c, fetched x y (2 ^ Z.of_nat k) maxX maxY c = true)
             (subCells (2 ^ Z.of_nat k)).
Proof.
  apply list_elem_of_filter. split; [done|].
  assert (0 ∈ range (2 ^ Z.of_nat k)) as H0.
  { unfold range. apply list_elem_of_fmap. exists 0%nat. split; [done|].
    apply elem_of_seq. assert (0 < 2 ^ Z.of_nat k) by (apply Z.pow_pos_nonneg; lia).
    lia. }
  unfold subCells. apply list_elem_of_bind. exists 0. split; [|done].
  apply list_elem_of_bind. exists 0. split; [|done].
  by apply list_elem_of_singleton.
Qed.

End SynthesisProperties.

(** ** The claims about [getTile] and [getTileFromEmptyDirectory] *)

Section TileClaims.

Context `{host : Host}.

Implicit Types (self : TiffFileTileSource) (x y z : Z) (kwargs : Kwargs).

(** In a pyramid with the invariant, the climb from a level of the pyramid
    ends at a populated level at or below the top, past empty levels only. *)
Lemma climb_populated self (ref : Directory) z :
  pyramidInvariant self ref →
  0 ≤ z < levels self →
  ∃ k, climb self z = Some k
       ∧ z + Z.of_nat k ≤ levels self - 1
       ∧ is_Some (mjoin (_tiffDirectories self !! (Z.to_nat z + k)%nat))
       ∧ ∀ j, (j < k)%nat →
              _tiffDirectories self !! (Z.to_nat z + j)%nat = Some None.
Proof.
  intros (_ & _ & Hlen & Htop & _) Hz. unfold climb.
  destruct (list_find is_Some (drop (Z.to_nat z) (_tiffDirectories self)))
    as [[k o]|] eqn:Hfind.
  - apply list_find_Some in Hfind as (Hk & Ho & Hmin).
    rewrite lookup_drop in Hk. exists k. split; [done|].
    pose proof (lookup_lt_Some _ _ _ Hk). split; [lia|].
    split; [by rewrite Hk|].
    intros j Hj.
    destruct (drop (Z.to_nat z) (_tiffDirectories self) !! j) as [o'|] eqn:Hj'.
    + pose proof (Hmin j o' Hj' Hj) as Hno. rewrite lookup_drop in Hj'.
      rewrite Hj'. destruct o'; [|done]. exfalso. apply Hno. by eexists.
    + apply lookup_ge_None in Hj'. rewrite length_drop in Hj'. lia.
  - exfalso.
    assert (is_Some (list_find is_Some (drop (Z.to_nat z) (_tiffDirectories self))))
      as [? Hsome]; [|congruence].
    apply (list_find_elem_of _ _ (Some ref)); [|by eexists].
    apply list_elem_of_lookup. exists (Z.to_nat (levels self - 1) - Z.to_nat z)%nat.
    rewrite lookup_drop. rewrite <- Htop. f_equal. lia.
Qed.

(** Once the scan has ended at a level, the synthesizer calls [getTile]
    back at that level only. *)
Lemma getTileFromEmptyDirectory_ext_level
    (g1 g2 : Z → Z → Z → bool → bool → Kwargs → option (outcome Tile))
    self x y z (scale z' : Z) :
  scanUp (Z.to_nat (Z.of_nat (length (_tiffDirectories self)) - z))
    (_tiffDirectories self) 1 z = Some (Returns (scale, z')) →
  (∀ x' y', g1 x' y' z' true true edge_False = g2 x' y' z' true true edge_False) →
  getTileFromEmptyDirectory g1 self x y z = getTileFromEmptyDirectory g2 self x y z.
Proof.
  intros Hscan Hg. unfold getTileFromEmptyDirectory. rewrite Hscan. simpl.
  destruct (negb PIL); [done|].
  destruct (tileWidth self =? 0); [done|].
  destruct (tileHeight self =? 0); [done|].
  f_equal. apply forEach_ext. intros newX t _.
  apply forEach_ext. intros newY t' _.
  destruct (skipCell _ _ _ _ _ _ _); [done|]. by rewrite Hg.
Qed.

(** C1, as the code has it.  At a level [z] of the pyramid whose slot is
    empty: with [sparseFallback] set (no synthesis), the missing level is an
    IOTiffException inside [getTile], which [getTile] itself handles: for
    [z] = 0 or without PIL the call raises TileSourceException 'Internal I/O
    failure: Missing z level z', otherwise it answers with the
    lower-resolution fallback made of the tile (x div 2, y div 2) of level
    z - 1, or with the failure of that fetch; with [sparseFallback] not set
    the call hands the request to [getTileFromEmptyDirectory] and answers
    with its image passed through [_outputTile], or with its exception as
    the handlers of [getTile] surface it. *)
Theorem getTile_empty_level self x y z pil kwargs :
  0 ≤ z < levels self →
  _tiffDirectories self !! Z.to_nat z = Some None →
  getTile self x y z pil true kwargs =
    (if negb (z =? 0) && PIL then
       fbind (getTile self (x / 2) (y / 2) (z - 1) true true edge_False)
         (λ image,
          Some (_outputTile self (fallbackTile self x y image) "PIL" x y z
                  pil kwargs))
     else
       Some (Raises (TileSourceException
                       ("Internal I/O failure: Missing z level " +:+ str_of_Z z))))
  ∧ getTile self x y z pil false kwargs =
    match
      fbind (getTileFromEmptyDirectory (getTile self) self x y z) (λ tile,
      Some (_outputTile self (TileImage tile) TILE_FORMAT_PIL x y z pil kwargs))
    with
    | Some (Raises e) => Some (Raises (surfaced e))
    | r => r
    end.
Proof.
  intros Hz Hslot. split.
  - apply getTile_level_fails; [lia|]. by left.
  - apply getTile_synthesizes; [lia|done].
Qed.

(** C6, as the code has it.  In a source that [__init__] returned, every
    call of [getTile] returns or raises.  For a level [z] of the pyramid the
    call nests at most levels + 1 activations of [getTile]: one for the
    call, and one for each level from the level it reads down to level 0
    along the lower-resolution fallback.  When the slot of [z] is empty the
    upward scan ends at a populated level above [z] and at most levels - 1,
    and the synthesizer calls [getTile] back at that level only. *)
Theorem getTile_terminates (file : TiffFile) self x y z pil sf kwargs :
  __init__ file = Returns self →
  (∃ r, getTile self x y z pil sf kwargs = Some r)
  ∧ (0 ≤ z < levels self →
     ∃ r, getTile_fuel (S (Z.to_nat (levels self))) self x y z pil sf kwargs
          = Some r)
  ∧ (0 ≤ z < levels self →
     _tiffDirectories self !! Z.to_nat z = Some None →
     ∃ scale z',
       scanUp (Z.to_nat (Z.of_nat (length (_tiffDirectories self)) - z))
         (_tiffDirectories self) 1 z = Some (Returns (scale, z'))
       ∧ z < z' ≤ levels self - 1
       ∧ is_Some (mjoin (_tiffDirectories self !! Z.to_nat z'))
       ∧ ∀ g1 g2,
           (∀ x' y', g1 x' y' z' true true edge_False
                     = g2 x' y' z' true true edge_False) →
           getTileFromEmptyDirectory g1 self x y z
           = getTileFromEmptyDirectory g2 self x y z).
Proof.
  intros Hinit.
  destruct (init_invariant file self Hinit) as (ref & Hinv & _).
  pose proof Hinv as (_ & _ & Hlen & _).
  split; [apply getTile_total|]. split.
  - intros Hz. apply getTile_fuel_returns. intros z' Hz' Hle.
    unfold chainDepth.
    destruct (Z.leb_spec 0 z'), (Z.ltb_spec z' (Z.of_nat (length (_tiffDirectories self))));
      simpl; lia.
  - intros Hz Hslot.
    destruct (climb_populated self ref z Hinv Hz) as (k & Hk & Hle & Hpop & _).
    assert (1 ≤ k)%nat as Hk1.
    { destruct k; [|lia]. rewrite Nat.add_0_r, Hslot in Hpop. by destruct Hpop. }
    exists (2 ^ Z.of_nat k), (z + Z.of_nat k).
    assert (scanUp (Z.to_nat (Z.of_nat (length (_tiffDirectories self)) - z))
              (_tiffDirectories self) 1 z
            = Some (Returns (2 ^ Z.of_nat k, z + Z.of_nat k))) as Hscan.
    { rewrite scanUp_climb by lia. unfold climb in Hk.
      destruct (list_find is_Some (drop (Z.to_nat z) (_tiffDirectories self)))
        as [[k' o]|]; [|done].
      simpl in Hk. injection Hk as ->. by rewrite Z.mul_1_l. }
    split; [done|]. split; [lia|]. split.
    { by replace (Z.to_nat (z + Z.of_nat k)) with (Z.to_nat z + k)%nat by lia. }
    intros g1 g2 Hg. by eapply getTileFromEmptyDirectory_ext_level.
Qed.

End TileClaims.

(** ** [getPreferredLevel] *)

Section PreferredLevelProperties.

Context `{host : Host}.

Implicit Types (self : TiffFileTileSource) (level : Z).

(** The loop of lines 213-214 ends at the first populated slot at or above
    the level it starts from and below the top, or at the top. *)
Lemma preferredScan_find self (steps : nat) level :
  levels self = Z.of_nat (length (_tiffDirectories self)) →
  0 ≤ level ≤ levels self - 1 →
  (Z.to_nat (levels self - 1 - level) ≤ steps)%nat →
  preferredScan steps self level =
  Some (Returns
    match list_find is_Some
            (drop (Z.to_nat level)
               (take (Z.to_nat (levels self - 1)) (_tiffDirectories self))) with
    | Some (k, _) => level + Z.of_nat k
    | None => levels self - 1
    end).
Proof.
  intros Hlen. revert level.
  assert (∀ level, 0 ≤ level ≤ levels self - 1 →
            ∃ slot, _tiffDirectories self !! Z.to_nat level = Some slot
                    ∧ py_index (_tiffDirectories self) level = Returns slot)
    as Hread.
  { intros level Hl.
    destruct (lookup_lt_is_Some_2 (_tiffDirectories self) (Z.to_nat level))
      as [slot Hslot]; [lia|].
    exists slot. split; [done|].
    replace level with (Z.of_nat (Z.to_nat level)) at 1 by lia.
    by rewrite py_index_nat, Hslot. }
  assert (∀ level, level = levels self - 1 →
            drop (Z.to_nat level)
              (take (Z.to_nat (levels self - 1)) (_tiffDirectories self)) = [])
    as Htop.
  { intros level ->. apply drop_ge. rewrite length_take. lia. }
  assert (∀ level slot, 0 ≤ level < levels self - 1 →
            _tiffDirectories self !! Z.to_nat level = Some slot →
            drop (Z.to_nat level)
              (take (Z.to_nat (levels self - 1)) (_tiffDirectories self))
            = slot :: drop (S (Z.to_nat level))
                        (take (Z.to_nat (levels self - 1)) (_tiffDirectories self)))
    as Hbelow.
  { intros level slot Hl Hslot. apply drop_S.
    rewrite lookup_take_lt by lia. done. }
  induction steps as [|steps IH]; intros level Hl Hs.
  - destruct (Hread level Hl) as (slot & Hslot & Hi).
    simpl. rewrite Hi.
    destruct (Z.ltb_spec level (levels self - 1)) as [Hlt|Hge]; [lia|].
    rewrite andb_false_r. rewrite Htop by lia. simpl. do 2 f_equal. lia.
  - destruct (Hread level Hl) as (slot & Hslot & Hi).
    simpl. rewrite Hi.
    destruct (Z.ltb_spec level (levels self - 1)) as [Hlt|Hge].
    + rewrite (Hbelow level slot) by (done || lia). simpl.
      destruct slot as [td|]; simpl.
      * do 2 f_equal. lia.
      * rewrite IH by lia.
        replace (Z.to_nat (level + 1)) with (S (Z.to_nat level)) by lia.
        destruct (list_find is_Some _) as [[k o]|]; simpl; [|done].
        do 2 f_equal. lia.
    + rewrite andb_false_r. rewrite Htop by lia. simpl. do 2 f_equal. lia.
Qed.

Lemma clampLevel_range self level :
  1 ≤ levels self → 0 ≤ clampLevel self level ≤ levels self - 1.
Proof. unfold clampLevel. lia. Qed.

(** Where the preferred level lies: at or above the clamped level, at a
    populated slot, past empty slots only. *)
Lemma preferredLevel_spec_char self (ref : Directory) level :
  pyramidInvariant self ref →
  clampLevel self level ≤ preferredLevel_spec self level ≤ levels self - 1
  ∧ is_Some (mjoin (_tiffDirectories self
                      !! Z.to_nat (preferredLevel_spec self level)))
  ∧ ∀ i, clampLevel self level ≤ i < preferredLevel_spec self level →
         _tiffDirectories self !! Z.to_nat i = Some None.
Proof.
  intros (_ & Hmax & Hlen & Htop & _).
  assert (1 ≤ levels self) as H1 by lia.
  pose proof (clampLevel_range self level H1) as Hc.
  unfold preferredLevel_spec.
  set (c := clampLevel self level) in *.
  set (T := take (Z.to_nat (levels self - 1)) (_tiffDirectories self)).
  assert (length T = Z.to_nat (levels self - 1)) as HT.
  { unfold T. rewrite length_take. lia. }
  destruct (list_find is_Some (drop (Z.to_nat c) T)) as [[k o]|] eqn:Hfind.
  - apply list_find_Some in Hfind as (Hk & Ho & Hmin).
    rewrite lookup_drop in Hk. pose proof (lookup_lt_Some _ _ _ Hk) as Hlt.
    unfold T in Hk. rewrite lookup_take_lt in Hk by lia.
    split; [lia|]. split.
    { replace (Z.to_nat (c + Z.of_nat k)) with (Z.to_nat c + k)%nat by lia.
      by rewrite Hk. }
    intros i Hi.
    destruct (drop (Z.to_nat c) T !! (Z.to_nat i - Z.to_nat c)%nat)
      as [o'|] eqn:Hi'.
    + pose proof (Hmin _ o' Hi') as Hno. rewrite lookup_drop in Hi'.
      unfold T in Hi'. rewrite lookup_take_lt in Hi' by lia.
      replace (Z.to_nat c + (Z.to_nat i - Z.to_nat c))%nat with (Z.to_nat i)
        in Hi' by lia.
      rewrite Hi'. destruct o'; [|done]. exfalso. apply Hno; [lia|by eexists].
    + apply lookup_ge_None in Hi'. rewrite length_drop in Hi'. lia.
  - split; [lia|]. split; [by rewrite Htop; eexists|].
    intros i Hi. apply list_find_None in Hfind.
    destruct (lookup_lt_is_Some_2 (drop (Z.to_nat c) T)
                (Z.to_nat i - Z.to_nat c)) as [o Ho].
    { rewrite length_drop. lia. }
    pose proof (proj1 (Forall_lookup _ _) Hfind _ _ Ho) as Hno.
    rewrite lookup_drop in Ho. unfold T in Ho.
    rewrite lookup_take_lt in Ho by lia.
    replace (Z.to_nat c + (Z.to_nat i - Z.to_nat c))%nat with (Z.to_nat i)
      in Ho by lia.
    rewrite Ho. destruct o; [|done]. exfalso. apply Hno. by eexists.
Qed.

Lemma getPreferredLevel_spec self (ref : Directory) level :
  pyramidInvariant self ref →
  getPreferredLevel self level = Some (Returns (preferredLevel_spec self level)).
Proof.
  intros (_ & Hmax & Hlen & _).
  unfold getPreferredLevel, preferredLevel_spec.
  fold (clampLevel self level).
  pose proof (clampLevel_range self level).
  apply preferredScan_find; [done|lia|lia].
Qed.

(** C5.  In a source that [__init__] returned, [getPreferredLevel] returns
    the level obtained by clamping to [0, levels - 1] and scanning upward to
    the first populated slot or to levels - 1; the slot at the returned
    index is populated; and a request that is no lower gets a level that is
    no lower. *)
Theorem getPreferredLevel_correct (file : TiffFile) self (level1 level2 : Z) :
  __init__ file = Returns self →
  getPreferredLevel self level1 = Some (Returns (preferredLevel_spec self level1))
  ∧ 0 ≤ preferredLevel_spec self level1 ≤ levels self - 1
  ∧ is_Some (mjoin (_tiffDirectories self
                      !! Z.to_nat (preferredLevel_spec self level1)))
  ∧ ∃ r1 r2,
      getPreferredLevel self level1 = Some (Returns r1)
      ∧ getPreferredLevel self level2 = Some (Returns r2)
      ∧ (level1 ≤ level2 → r1 ≤ r2).
Proof.
  intros Hinit.
  destruct (init_invariant file self Hinit) as (ref & Hinv & _).
  pose proof (preferredLevel_spec_char self ref level1 Hinv) as (Hr1 & Hp1 & He1).
  pose proof (preferredLevel_spec_char self ref level2 Hinv) as (Hr2 & Hp2 & He2).
  pose proof Hinv as (_ & Hmax & _).
  pose proof (clampLevel_range self level1).
  split; [by eapply getPreferredLevel_spec|]. split; [lia|]. split; [done|].
  exists (preferredLevel_spec self level1), (preferredLevel_spec self level2).
  split; [by eapply getPreferredLevel_spec|].
  split; [by eapply getPreferredLevel_spec|].
  intros Hle.
  destruct (Z.le_gt_cases (preferredLevel_spec self level1)
              (preferredLevel_spec self level2)) as [|Hgt]; [done|].
  exfalso.
  assert (clampLevel self level1 ≤ clampLevel self level2) as Hc
    by (unfold clampLevel; lia).
  rewrite (He1 (preferredLevel_spec self level2)) in Hp2 by lia.
  by destruct Hp2.
Qed.

End PreferredLevelProperties.

(** ** [getAssociatedImagesList] *)

Section AssociatedImagesProperties.

Context `{host : Host}.

Global Instance str_le_total : Total str_le.
Proof. intros a b. apply String.leb_total. Qed.

(** The loop stops with AttributeError at the first empty slot. *)
Lemma collectImages_sparse (dirs : list (option Directory))
    (imageList : gset string) :
  None ∈ dirs →
  collectImages dirs imageList =
  Raises (AttributeError "'NoneType' object has no attribute '_embeddedImages'").
Proof.
  revert imageList. induction dirs as [|td dirs IH]; intros imageList Hin.
  - by apply elem_of_nil in Hin.
  - destruct td as [d|]; simpl; [|done].
    apply IH. apply elem_of_cons in Hin as [|]; done.
Qed.

(** Without empty slots the loop collects the keys of every directory. *)
Lemma collectImages_dense (dirs : list (option Directory))
    (imageList : gset string) :
  Forall is_Some dirs →
  ∃ names, collectImages dirs imageList = Returns names
    ∧ ∀ name, name ∈ names ↔
        name ∈ imageList
        ∨ ∃ d, Some d ∈ dirs ∧ name ∈ (TiledTiffDirectory._embeddedImages d).*1.
Proof.
  intros Hdense. revert imageList.
  induction Hdense as [|td dirs [d ->] _ IH]; intros imageList.
  - exists imageList. split; [done|]. intros name. split; [by left|].
    intros [|(d & Hd & _)]; [done|]. by apply elem_of_nil in Hd.
  - simpl.
    destruct (IH (imageList ∪ list_to_set (TiledTiffDirectory._embeddedImages d).*1))
      as (names & -> & Hnames).
    exists names. split; [done|]. intros name. rewrite Hnames.
    rewrite elem_of_union, elem_of_list_to_set. split.
    + intros [[|Hd]|(d' & Hd' & Hk)]; [by left| |].
      * right. exists d. split; [by left|done].
      * right. exists d'. split; [by right|done].
    + intros [|(d' & Hd' & Hk)]; [by left; left|].
      apply elem_of_cons in Hd' as [[= <-]|Hd']; [by left; right|].
      right. by exists d'.
Qed.

(** On a pyramid without empty slots the method returns the keys of the
    embedded images of all directories, each once, in ascending order. *)
Lemma getAssociatedImagesList_dense (self : TiffFileTileSource) :
  Forall is_Some (_tiffDirectories self) →
  ∃ names, getAssociatedImagesList self = Returns names
    ∧ Sorted str_le names
    ∧ NoDup names
    ∧ ∀ name, name ∈ names ↔
        ∃ d, Some d ∈ _tiffDirectories self
             ∧ name ∈ (TiledTiffDirectory._embeddedImages d).*1.
Proof.
  intros Hdense. unfold getAssociatedImagesList.
  destruct (collectImages_dense (_tiffDirectories self) ∅ Hdense)
    as (set & -> & Hset).
  simpl. eexists. split; [done|]. split; [apply Sorted_merge_sort, _|].
  split.
  - rewrite merge_sort_Permutation. apply NoDup_elements.
  - intros name. rewrite merge_sort_Permutation, elem_of_elements, Hset.
    split; [|by right]. intros [Hin|]; [|done]. by apply elem_of_empty in Hin.
Qed.

(** C8, where the code departs from it.  On a source that [__init__]
    returned with an empty slot in its pyramid, the method raises
    AttributeError: the loop reads [_embeddedImages] of the [None] that
    stands for the missing level. *)
Theorem getAssociatedImagesList_sparse (file : TiffFile)
    (self : TiffFileTileSource) :
  __init__ file = Returns self →
  None ∈ _tiffDirectories self →
  getAssociatedImagesList self =
  Raises (AttributeError "'NoneType' object has no attribute '_embeddedImages'").
Proof.
  intros _ Hin. unfold getAssociatedImagesList.
  by rewrite collectImages_sparse.
Qed.

End AssociatedImagesProperties.

(** ** The claims on concrete files *)

Import Examples.

(** What [__init__] builds from the files of [Examples]. *)
Lemma opened :
  __init__ (host := plainHost) singleFile = Returns singleSource
  ∧ __init__ (host := plainHost) denseFile = Returns denseSource
  ∧ __init__ (host := plainHost) sparseFile = Returns sparseSource
  ∧ __init__ (host := plainHost) brokenFile = Returns brokenSource.
Proof. repeat split; vm_compute; reflexivity. Qed.

(** C2, where the code departs from it.  In a pyramid of one level, the
    request for level -1 does not raise: Python reads
    [self._tiffDirectories[-1]], the last slot, and the call returns the
    tile (0, 0) of level 0.  Levels below -levels and from levels upward do
    raise TileSourceException. *)
Theorem getTile_negative_level :
  __init__ (host := plainHost) singleFile = Returns singleSource
  ∧ levels singleSource = 1
  ∧ getTile (host := plainHost) singleSource 0 0 (-1) false false []
    = Some (Returns (TileBytes "L0/0/0"))
  ∧ getTile (host := plainHost) singleSource 0 0 0 false false []
    = Some (Returns (TileBytes "L0/0/0"))
  ∧ getTile (host := plainHost) singleSource 0 0 (-2) false false []
    = Some (Raises (TileSourceException "z layer does not exist"))
  ∧ getTile (host := plainHost) singleSource 0 0 1 false false []
    = Some (Raises (TileSourceException "z layer does not exist")).
Proof. repeat split; vm_compute; reflexivity. Qed.

(** C1 fails on the code: level 1 of the sparse file is empty, and with
    [sparseFallback] set the call returns a tile, made from tile (0, 0)
    of level 0; it raises nothing.  Nor does the call raise with
    [sparseFallback] not set: no value of the flag makes the request for
    this empty level fail. *)
Lemma getTile_missing_level_served :
  __init__ (host := plainHost) sparseFile = Returns sparseSource
  ∧ _tiffDirectories sparseSource !! 1%nat = Some None
  ∧ getTile (host := plainHost) sparseSource 0 0 1 false true []
    = Some (Returns
        (TileImage
           (Image_resize (Image_crop (Image_open "L0/0/0") 0 0 128 128)
              256 256 DEFAULT)))
  ∧ (¬ ∃ e, getTile (host := plainHost) sparseSource 0 0 1 false true []
            = Some (Raises e))
  ∧ (¬ ∃ e, getTile (host := plainHost) sparseSource 0 0 1 false false []
            = Some (Raises e)).
Proof.
  split; [vm_compute; reflexivity|]. split; [reflexivity|].
  split; [vm_compute; reflexivity|].
  split; intros [e He]; vm_compute in He; discriminate He.
Qed.

(** C6 fails on the code: in a pyramid of 2 levels, the call for tile
    (0, 0) of the empty level 0 does not return within 2 nested activations
    of [getTile]; it takes 3: the call, the call back of the synthesizer at
    level 1, and the fallback of that call to level 0.  The call for level
    -2, which Python reads as the same slot, takes 4: the fallback goes on
    from level -1 to -2 and -3, so that 3 calls of [getTile] are nested
    inside the first. *)
Lemma getTile_depth_exceeds_levels :
  __init__ (host := plainHost) brokenFile = Returns brokenSource
  ∧ levels brokenSource = 2
  ∧ getTile_fuel (host := plainHost) 2 brokenSource 0 0 0 false false [] = None
  ∧ getTile_fuel (host := plainHost) 3 brokenSource 0 0 0 false false []
    = Some (Raises (TileSourceException
                      "Internal I/O failure: Missing z level 0"))
  ∧ getTile_fuel (host := plainHost) 3 brokenSource 0 0 (-2) false false []
    = None
  ∧ getTile_fuel (host := plainHost) 4 brokenSource 0 0 (-2) false false []
    = Some (Raises (TileSourceException "z layer does not exist")).
Proof. repeat split; vm_compute; reflexivity. Qed.

(** C3 on the sparse file. *)
Lemma pyramid_invariant_kept_witness :
  __init__ (host := plainHost) sparseFile = Returns sparseSource
  ∧ ∃ ref,
      Returns ref ∈ ifds sparseFile ∧ usable (Returns ref) = true
      ∧ pyramidInvariant sparseSource ref
      ∧ ∀ calls, invokeAll (host := plainHost) sparseSource calls = sparseSource
                 ∧ pyramidInvariant
                     (invokeAll (host := plainHost) sparseSource calls) ref.
Proof.
  split; [vm_compute; reflexivity|].
  apply (pyramid_invariant_kept (host := plainHost) sparseFile sparseSource).
  vm_compute; reflexivity.
Defined.

(** C1, as amended, at level 1 of the sparse file. *)
Lemma getTile_empty_level_witness :
  0 ≤ 1 < levels sparseSource
  ∧ _tiffDirectories sparseSource !! Z.to_nat 1 = Some None
  ∧ getTile (host := plainHost) sparseSource 0 0 1 false true [] =
      (if negb (1 =? 0) && PIL (Host := plainHost) then
         fbind (getTile (host := plainHost) sparseSource (0 / 2) (0 / 2) (1 - 1)
                  true true edge_False)
           (λ image,
            Some (_outputTile (Host := plainHost) sparseSource
                    (fallbackTile sparseSource 0 0 image) "PIL" 0 0 1 false []))
       else
         Some (Raises (TileSourceException
                         ("Internal I/O failure: Missing z level "
                          +:+ str_of_Z 1))))
  ∧ getTile (host := plainHost) sparseSource 0 0 1 false false [] =
      match
        fbind (getTileFromEmptyDirectory (host := plainHost)
                 (getTile (host := plainHost) sparseSource) sparseSource 0 0 1)
          (λ tile,
           Some (_outputTile (Host := plainHost) sparseSource (TileImage tile)
                   (TILE_FORMAT_PIL (Host := plainHost)) 0 0 1 false []))
      with
      | Some (Raises e) => Some (Raises (surfaced e))
      | r => r
      end.
Proof.
  assert (0 ≤ 1 < levels sparseSource) as H1 by (simpl; lia).
  assert (_tiffDirectories sparseSource !! Z.to_nat 1 = Some None) as H2
    by reflexivity.
  split; [exact H1|]. split; [exact H2|].
  exact (getTile_empty_level (host := plainHost) sparseSource 0 0 1 false []
           H1 H2).
Defined.

(** C5 at the requests for levels 1 and 5 of the sparse file. *)
Lemma getPreferredLevel_correct_witness :
  __init__ (host := plainHost) sparseFile = Returns sparseSource
  ∧ getPreferredLevel sparseSource 1
    = Some (Returns (preferredLevel_spec sparseSource 1))
  ∧ 0 ≤ preferredLevel_spec sparseSource 1 ≤ levels sparseSource - 1
  ∧ is_Some (mjoin (_tiffDirectories sparseSource
                      !! Z.to_nat (preferredLevel_spec sparseSource 1)))
  ∧ ∃ r1 r2,
      getPreferredLevel sparseSource 1 = Some (Returns r1)
      ∧ getPreferredLevel sparseSource 5 = Some (Returns r2)
      ∧ (1 ≤ 5 → r1 ≤ r2).
Proof.
  assert (__init__ (host := plainHost) sparseFile = Returns sparseSource)
    as H1 by (vm_compute; reflexivity).
  split; [exact H1|].
  exact (getPreferredLevel_correct (host := plainHost) sparseFile sparseSource
           1 5 H1).
Defined.

(** C6, as amended, at tile (0, 0) of the empty level 0 of the file whose
    only directory cannot be read. *)
Lemma getTile_terminates_witness :
  __init__ (host := plainHost) brokenFile = Returns brokenSource
  ∧ (∃ r, getTile (host := plainHost) brokenSource 0 0 0 false false []
          = Some r)
  ∧ (0 ≤ 0 < levels brokenSource →
     ∃ r, getTile_fuel (host := plainHost)
            (S (Z.to_nat (levels brokenSource))) brokenSource 0 0 0
            false false []
          = Some r)
  ∧ (0 ≤ 0 < levels brokenSource →
     _tiffDirectories brokenSource !! Z.to_nat 0 = Some None →
     ∃ scale z',
       scanUp (Z.to_nat (Z.of_nat (length (_tiffDirectories brokenSource)) - 0))
         (_tiffDirectories brokenSource) 1 0 = Some (Returns (scale, z'))
       ∧ 0 < z' ≤ levels brokenSource - 1
       ∧ is_Some (mjoin (_tiffDirectories brokenSource !! Z.to_nat z'))
       ∧ ∀ g1 g2,
           (∀ x' y', g1 x' y' z' true true edge_False
                     = g2 x' y' z' true true edge_False) →
           getTileFromEmptyDirectory (host := plainHost) g1 brokenSource 0 0 0
           = getTileFromEmptyDirectory (host := plainHost) g2 brokenSource 0 0 0).
Proof.
  assert (__init__ (host := plainHost) brokenFile = Returns brokenSource)
    as H1 by (vm_compute; reflexivity).
  split; [exact H1|].
  exact (getTile_terminates (host := plainHost) brokenFile brokenSource
           0 0 0 false false [] H1).
Defined.

(** C8 on the sparse file. *)
Lemma getAssociatedImagesList_sparse_witness :
  __init__ (host := plainHost) sparseFile = Returns sparseSource
  ∧ None ∈ _tiffDirectories sparseSource
  ∧ getAssociatedImagesList sparseSource =
    Raises (AttributeError
              "'NoneType' object has no attribute '_embeddedImages'").
Proof.
  assert (__init__ (host := plainHost) sparseFile = Returns sparseSource)
    as H1 by (vm_compute; reflexivity).
  assert (None ∈ _tiffDirectories sparseSource) as H2.
  { simpl. apply elem_of_cons. right. apply elem_of_cons. by left. }
  split; [exact H1|]. split; [exact H2|].
  exact (getAssociatedImagesList_sparse (host := plainHost) sparseFile
           sparseSource H1 H2).
Defined.

(** ** More about [__init__] *)

Section InitMore.

Context `{host : Host}.

Lemma maxKey_bound (m : gmap nat Directory) (top k : nat) :
  maxKey m = Returns top → is_Some (m !! k) → (k ≤ top)%nat.
Proof.
  unfold maxKey. intros Hmax [d Hd].
  assert (k ∈ (map_to_list m).*1) as Hin.
  { apply list_elem_of_fmap. exists (k, d). split; [done|].
    by apply elem_of_map_to_list. }
  destruct ((map_to_list m).*1) as [|k0 ks]; [done|].
  injection Hmax as <-. by apply (max_list_elem_of_le k (k0 :: ks)).
Qed.

(** The parts of a source that lines 85-115 return. *)
Lemma pyramid_shape (alldir : list DirEntry) (path : string)
    (lastException : option exn) (self : TiffFileTileSource) :
  pyramid alldir path lastException = Returns self →
  ∃ (s : list DirEntry) (h : DirEntry),
    merge_sort entry_le alldir = (s ++ [h])%list
    ∧ tileWidth self = TiledTiffDirectory.tileWidth h.2
    ∧ tileHeight self = TiledTiffDirectory.tileHeight h.2
    ∧ sizeX self = TiledTiffDirectory.imageWidth h.2
    ∧ sizeY self = TiledTiffDirectory.imageHeight h.2
    ∧ levels self = Z.of_nat (length (_tiffDirectories self))
    ∧ ∀ i, mjoin (_tiffDirectories self !! i)
           = foldl (keepDirectory h.2) ∅ (s ++ [h]) !! i.
Proof.
  unfold pyramid.
  destruct (Nat.eqb_spec (length alldir) 0) as [|Hne]; [done|].
  pose proof (merge_sort_Permutation entry_le alldir) as Hperm.
  destruct (merge_sort entry_le alldir) as [|h s _] using rev_ind.
  { apply Permutation_nil_l in Hperm. by subst alldir. }
  rewrite py_index_last. simpl.
  destruct (maxKey (foldl (keepDirectory h.2) ∅ (s ++ [h]))) as [top|e] eqn:Hmax;
    [|done].
  simpl. intros [= <-]. exists s, h. simpl. do 6 (split; [done|]).
  intros i. rewrite list_lookup_fmap.
  destruct (Nat.lt_ge_cases i (top + 1)) as [Hi|Hi].
  - by rewrite lookup_seq_lt.
  - rewrite lookup_seq_ge by done. simpl.
    destruct (foldl (keepDirectory h.2) ∅ (s ++ [h]) !! i) as [d|] eqn:Hd;
      [|done].
    pose proof (maxKey_bound _ _ i Hmax (ltac:(by eexists))). lia.
Qed.

(** The loop of lines 65-83 collects the usable directories among those it
    looks at. *)
Lemma enumerate_enumerated (rs : list (outcome Directory)) (endMessage : string)
    (lastException : option exn) (alldir : list DirEntry) (st : Enumerated) :
  enumerate rs endMessage lastException alldir = Returns st →
  alldir_of st = (alldir ++ candidates (enumerated rs))%list.
Proof.
  revert lastException alldir.
  induction rs as [|r rs IH]; intros lastException alldir; simpl.
  - intros [= <-]. simpl. by rewrite app_nil_r.
  - destruct r as [td|e].
    + destruct ((TiledTiffDirectory.tileWidth td =? 0)
                || (TiledTiffDirectory.tileHeight td =? 0)) eqn:Hz.
      * intros H. rewrite (IH _ _ H). unfold candidates. simpl.
        apply orb_true_iff in Hz. destruct Hz as [->| ->]; simpl; [done|].
        by rewrite andb_false_r.
      * intros H. rewrite (IH _ _ H). unfold candidates. simpl.
        apply orb_false_iff in Hz. destruct Hz as [-> ->]. simpl.
        by rewrite <- app_assoc.
    + destruct e; simpl;
        try (intros [= <-]; simpl; by rewrite app_nil_r);
        try (destruct lastException; intros [= <-]; simpl; by rewrite app_nil_r).
      intros H. by rewrite (IH _ _ H).
Qed.

Lemma elem_of_candidates (rs : list (outcome Directory)) (e : DirEntry) :
  e ∈ candidates rs ↔
  ∃ d, Returns d ∈ rs ∧ usable (Returns d) = true ∧ e = entryOf d.
Proof.
  unfold candidates. rewrite list_elem_of_omap. split.
  - intros ([d|x] & Hin & Hf); [|done].
    destruct (usable (Returns d)) eqn:Hu; [|done].
    injection Hf as <-. by exists d.
  - intros (d & Hin & Hu & ->). exists (Returns d). split; [done|].
    by rewrite Hu.
Qed.

Lemma entry_le_objId (a b : DirEntry) :
  entry_le a b → a.1.1 = b.1.1 → a.1.2 = b.1.2 →
  TiledTiffDirectory.objId a.2 ≤ TiledTiffDirectory.objId b.2.
Proof.
  destruct a as [[aa al] ad], b as [[ba bl] bd]. unfold entry_le, entry_leb.
  simpl. intros H -> ->.
  rewrite Z.ltb_irrefl, Z.eqb_refl, Nat.ltb_irrefl, Nat.eqb_refl in H.
  simpl in H. lia.
Qed.

Lemma entry_le_area (a b : DirEntry) : entry_le a b → a.1.1 ≤ b.1.1.
Proof.
  destruct a as [[aa al] ad], b as [[ba bl] bd]. unfold entry_le, entry_leb.
  simpl. destruct (Z.ltb_spec aa ba); [lia|].
  destruct (Z.eqb_spec aa ba); [lia|done].
Qed.

(** After the loop of lines 98-104, the level of an entry with the tile
    size of [highest] holds that entry or one that comes later in the
    list. *)
Lemma keepDirectory_latest (highest : Directory) (s : list DirEntry)
    (m : gmap nat Directory) (e : DirEntry) :
  e ∈ s →
  TiledTiffDirectory.tileWidth e.2 = TiledTiffDirectory.tileWidth highest →
  TiledTiffDirectory.tileHeight e.2 = TiledTiffDirectory.tileHeight highest →
  ∃ e', e' ∈ s ∧ e'.1.2 = e.1.2
        ∧ foldl (keepDirectory highest) m s !! e.1.2 = Some e'.2
        ∧ (e' = e ∨ ∃ s1 s2 : list DirEntry, s = (s1 ++ s2)%list ∧ e ∈ s1 ∧ e' ∈ s2).
Proof.
  intros Hin Hw Hh. induction s as [|x s IH] using rev_ind.
  { by apply elem_of_nil in Hin. }
  rewrite foldl_app. simpl. unfold keepDirectory at 1.
  destruct (Z.eqb_spec (TiledTiffDirectory.tileWidth x.2)
              (TiledTiffDirectory.tileWidth highest)) as [Hxw|Hxw];
    destruct (Z.eqb_spec (TiledTiffDirectory.tileHeight x.2)
                (TiledTiffDirectory.tileHeight highest)) as [Hxh|Hxh];
    simpl.
  1: destruct (decide (x.1.2 = e.1.2)) as [Hlev|Hlev].
  1: { exists x. split; [apply elem_of_app; right; by left|].
       split; [done|]. rewrite Hlev, lookup_insert_eq. split; [done|].
       apply elem_of_app in Hin as [Hin|Hin].
       - right. exists s, [x]. split; [done|]. split; [done|]. by left.
       - left. apply list_elem_of_singleton in Hin. done. }
  1: rewrite lookup_insert_ne by done.
  all: assert (e ∈ s) as Hs
      by (apply elem_of_app in Hin as [|Hx]; [done|];
          apply list_elem_of_singleton in Hx; subst x; congruence).
  all: destruct (IH Hs) as (e' & He' & Hl & Hlook & Hpos).
  all: exists e'; split; [apply elem_of_app; by left|].
  all: split; [done|]; split; [done|].
  all: destruct Hpos as [->|(s1 & s2 & -> & H1 & H2)]; [by left|].
  all: right; exists s1, (s2 ++ [x])%list; split; [by rewrite app_assoc|].
  all: split; [done|]; apply elem_of_app; by left.
Qed.

(** What a source that [__init__] returns is made of: the sorted list of
    the usable directories that the loop looked at, and its last entry. *)
Lemma init_shape (file : TiffFile) (self : TiffFileTileSource) :
  __init__ file = Returns self →
  ∃ (s : list DirEntry) (h : DirEntry),
    StronglySorted entry_le (s ++ [h])
    ∧ (∀ e, e ∈ (s ++ [h])%list ↔
         ∃ d, Returns d ∈ enumerated (ifds file)
              ∧ usable (Returns d) = true ∧ e = entryOf d)
    ∧ tileWidth self = TiledTiffDirectory.tileWidth h.2
    ∧ tileHeight self = TiledTiffDirectory.tileHeight h.2
    ∧ levels self = Z.of_nat (length (_tiffDirectories self))
    ∧ ∀ i, mjoin (_tiffDirectories self !! i)
           = foldl (keepDirectory h.2) ∅ (s ++ [h]) !! i.
Proof.
  unfold __init__. intros H.
  destruct (enumerate (ifds file) (pastEnd file) None []) as [st|e] eqn:Hen;
    [|done].
  simpl in H. apply enumerate_enumerated in Hen. simpl in Hen.
  apply pyramid_shape in H as (s & h & Hs & Hw & Hh & _ & _ & Hlen & Hslots).
  exists s, h. split.
  { rewrite <- Hs. apply StronglySorted_merge_sort; apply _. }
  split; [|done].
  intros e. rewrite <- Hs, merge_sort_Permutation, Hen.
  apply elem_of_candidates.
Qed.

(** X1.  In a source that [__init__] returned, the directory in slot [i] is
    a tiled directory that the loop read from the file, and [i] is the level
    that line 79 computed for it. *)
Theorem slot_holds_its_level (file : TiffFile) (self : TiffFileTileSource)
    (i : nat) (d : Directory) :
  __init__ file = Returns self →
  _tiffDirectories self !! i = Some (Some d) →
  Returns d ∈ enumerated (ifds file)
  ∧ usable (Returns d) = true
  ∧ levelOf d = i.
Proof.
  intros Hinit Hslot.
  destruct (init_shape file self Hinit) as (s & h & _ & Hmem & _ & _ & _ & Hslots).
  specialize (Hslots i). rewrite Hslot in Hslots. simpl in Hslots.
  symmetry in Hslots.
  apply keepDirectory_keys in Hslots as [Hempty|(e & He & Hlev & Hd)].
  { by rewrite lookup_empty in Hempty. }
  apply Hmem in He as (d' & Hin & Hu & ->). simpl in Hd, Hlev. by subst d'.
Qed.

(** X2.  In a source that [__init__] returned, no tiled directory with the
    tile size of the source is lost except to another of its level: the slot
    of its level is inside the pyramid and holds a directory of that level
    that sorts no earlier (among directories of one tile size and level,
    the one with the highest identity). *)
Theorem tiled_directory_kept (file : TiffFile) (self : TiffFileTileSource)
    (d : Directory) :
  __init__ file = Returns self →
  Returns d ∈ enumerated (ifds file) →
  usable (Returns d) = true →
  sameTiling self d →
  Z.of_nat (levelOf d) < levels self
  ∧ ∃ d', _tiffDirectories self !! levelOf d = Some (Some d')
          ∧ levelOf d' = levelOf d
          ∧ TiledTiffDirectory.objId d ≤ TiledTiffDirectory.objId d'.
Proof.
  intros Hinit Hin Hu [Hw Hh].
  destruct (init_shape file self Hinit)
    as (s & h & Hsorted & Hmem & Htw & Hth & Hlen & Hslots).
  assert (entryOf d ∈ (s ++ [h])%list) as He by (apply Hmem; by exists d).
  destruct (keepDirectory_latest h.2 (s ++ [h]) ∅ (entryOf d) He)
    as (e' & He' & Hlev & Hlook & Hpos); simpl; [congruence|congruence|].
  simpl in Hlev, Hlook. fold (levelOf d) in Hlev, Hlook.
  rewrite <- Hslots in Hlook.
  destruct (_tiffDirectories self !! levelOf d) as [slot|] eqn:Hslot; [|done].
  simpl in Hlook. subst slot.
  split. { apply lookup_lt_Some in Hslot. lia. }
  exists e'.2. split; [done|].
  apply Hmem in He' as (d' & _ & _ & ->). simpl in *.
  split; [done|].
  destruct Hpos as [Heq|(s1 & s2 & Hs & H1 & H2)].
  - apply (f_equal snd) in Heq. simpl in Heq. by subst d'.
  - rewrite Hs in Hsorted. apply StronglySorted_app in Hsorted as (Hle & _ & _).
    pose proof (Hle _ _ H1 H2) as Hord.
    assert (TiledTiffDirectory.tileWidth d' = TiledTiffDirectory.tileWidth h.2
            ∧ TiledTiffDirectory.tileHeight d' = TiledTiffDirectory.tileHeight h.2)
      as [Hw' Hh'].
    { specialize (Hslots (levelOf d)). rewrite Hslot in Hslots. simpl in Hslots.
      symmetry in Hslots. revert Hslots. apply keepDirectory_geometry.
      intros k x Hk. by rewrite lookup_empty in Hk. }
    apply (entry_le_objId _ _ Hord); simpl; [|done]. congruence.
Qed.

(** X3.  In a source that [__init__] returned, no tiled directory that the
    loop read has a larger tile area than the source, and one of the same
    tile area has a level inside the pyramid: the reference directory is the
    one of the largest tile area and, among those, of the highest level. *)
Theorem reference_is_largest (file : TiffFile) (self : TiffFileTileSource)
    (d : Directory) :
  __init__ file = Returns self →
  Returns d ∈ enumerated (ifds file) →
  usable (Returns d) = true →
  TiledTiffDirectory.tileWidth d * TiledTiffDirectory.tileHeight d
    ≤ tileWidth self * tileHeight self
  ∧ (TiledTiffDirectory.tileWidth d * TiledTiffDirectory.tileHeight d
       = tileWidth self * tileHeight self →
     Z.of_nat (levelOf d) < levels self).
Proof.
  intros Hinit Hin Hu.
  destruct (init_shape file self Hinit)
    as (s & h & Hsorted & Hmem & Htw & Hth & Hlen & Hslots).
  assert (entryOf d ∈ (s ++ [h])%list) as He by (apply Hmem; by exists d).
  assert (h ∈ (s ++ [h])%list) as Hh by (apply elem_of_app; right; by left).
  apply Hmem in Hh as (dh & _ & _ & Hhd).
  assert (entry_le (entryOf d) h) as Hord.
  { apply elem_of_app in He as [He|He].
    - apply StronglySorted_app in Hsorted as (Hle & _ & _).
      apply Hle; [done|by left].
    - apply list_elem_of_singleton in He. rewrite <- He.
      destruct (total entry_le (entryOf d) (entryOf d)); done. }
  assert (h.1.1 = tileWidth self * tileHeight self) as Harea.
  { rewrite Htw, Hth, Hhd. done. }
  split.
  - rewrite <- Harea. by apply (entry_le_area (entryOf d)).
  - intros Heq.
    assert (levelOf d ≤ h.1.2)%nat as Hlev.
    { apply (entry_le_level (entryOf d) h Hord). simpl. congruence. }
    pose proof (keepDirectory_last s h ∅) as Htop.
    rewrite <- Hslots in Htop.
    destruct (_tiffDirectories self !! h.1.2) as [slot|] eqn:Hslot; [|done].
    apply lookup_lt_Some in Hslot. lia.
Qed.

(** The loop of lines 65-83 stops at the first exception of the reader that
    is a TiffException but no ValidationTiffException. *)
Lemma enumerate_stops (pre post post' : list (outcome Directory)) (e : exn)
    (m m' : string) (lastException : option exn) (alldir : list DirEntry) :
  isTiffException e = true →
  (∀ msg, e ≠ ValidationTiffException msg) →
  enumerate (pre ++ Raises e :: post) m lastException alldir
  = enumerate (pre ++ Raises e :: post') m' lastException alldir.
Proof.
  intros Htiff Hval. revert lastException alldir.
  induction pre as [|r pre IH]; intros lastException alldir; simpl.
  - destruct e; try done. by destruct (Hval message).
  - destruct r as [td|x].
    + destruct (_ || _); apply IH.
    + destruct x; first [done | apply IH].
Qed.

(** X4.  Once the reader has answered a directory number with a
    TiffException that is no ValidationTiffException, [__init__] looks at
    nothing that follows: its result is the same whatever the later
    directories are. *)
Theorem init_ignores_what_follows (path : string)
    (pre post post' : list (outcome Directory)) (e : exn) (m m' : string) :
  isTiffException e = true →
  (∀ msg, e ≠ ValidationTiffException msg) →
  __init__ {| largeImagePath := path; ifds := pre ++ Raises e :: post;
              pastEnd := m |}
  = __init__ {| largeImagePath := path; ifds := pre ++ Raises e :: post';
                pastEnd := m' |}.
Proof.
  intros Htiff Hval. unfold __init__. simpl.
  by rewrite (enumerate_stops pre post post' e m m').
Qed.


End InitMore.

(** ** More about [getTile] *)

Section GetTileMore.

Context `{host : Host}.

Implicit Types (self : TiffFileTileSource) (x y z : Z) (kwargs : Kwargs).

Lemma getTile_fuel_uncaught (n : nat) self x y z pil sf kwargs (e : exn) :
  (∀ s t f x' y' z' p k e',
     _outputTile s t f x' y' z' p k = Raises e' → caught e' = false) →
  getTile_fuel n self x y z pil sf kwargs = Some (Raises e) →
  caught e = false.
Proof.
  intros Hout. revert x y z pil sf kwargs e.
  induction n as [|n IH]; intros x y z pil sf kwargs e; [done|].
  simpl. unfold getTile_body.
  destruct (getTile_try (getTile_fuel n self) self x y z pil sf kwargs)
    as [[tile|e0]|]; try done.
  destruct e0; try (by intros [= <-]).
  destruct (sf && negb (z =? 0) && PIL); [|by intros [= <-]].
  destruct (getTile_fuel n self (x / 2) (y / 2) (z - 1) true sf edge_False)
    as [[image|e1]|] eqn:Hrec; simpl; try done.
  - destruct (_outputTile _ _ _ _ _ _ _ _) as [out|e2] eqn:Ho; [done|].
    intros [= <-]. by eapply Hout.
  - intros [= <-]. by eapply IH.
Qed.

(** X7.  No IndexError, InvalidOperationTiffException or IOTiffException
    leaves [getTile], whatever the reader raises, as long as [_outputTile]
    raises none of them: these three are turned into TileSourceException or
    answered by the lower-resolution fallback. *)
Theorem getTile_raises_nothing_caught self x y z pil sf kwargs (e : exn) :
  (∀ s t f x' y' z' p k e',
     _outputTile s t f x' y' z' p k = Raises e' → caught e' = false) →
  getTile self x y z pil sf kwargs = Some (Raises e) →
  caught e = false.
Proof. intros Hout. unfold getTile. by apply getTile_fuel_uncaught. Qed.

(** X8.  In a source that [__init__] returned, a request for a level from
    [levels] upward, or below [-levels], raises TileSourceException 'z layer
    does not exist', with or without [sparseFallback]. *)
Theorem getTile_level_out_of_range (file : TiffFile) self x y z pil sf kwargs :
  __init__ file = Returns self →
  z < - levels self ∨ levels self ≤ z →
  getTile self x y z pil sf kwargs
  = Some (Raises (TileSourceException "z layer does not exist")).
Proof.
  intros Hinit Hz.
  destruct (init_invariant file self Hinit) as (ref & (_ & _ & Hlen & _) & _).
  apply getTile_outside. lia.
Qed.

(** X9.  A tile of a populated level that the reader returns is handed to
    [_outputTile] as it was read, under the format 'JPEG' unless it is a PIL
    image, and what [_outputTile] returns is the result: neither the
    synthesizer nor the fallback takes part, and [sparseFallback] makes no
    difference. *)
Theorem getTile_reads_populated_level self x y z pil sf kwargs
    (td : Directory) (tile out : Tile) :
  0 ≤ z →
  _tiffDirectories self !! Z.to_nat z = Some (Some td) →
  TiledTiffDirectory.getTile td x y = Returns tile →
  _outputTile self tile
    (if PIL && isImage tile then TILE_FORMAT_PIL else "JPEG")
    x y z pil kwargs = Returns out →
  getTile self x y z pil sf kwargs = Some (Returns out)
  ∧ ∀ g, getTile_body g self x y z pil sf kwargs = Some (Returns out).
Proof.
  intros Hz Hslot Hread Hout.
  assert (∀ g, getTile_body g self x y z pil sf kwargs = Some (Returns out))
    as Hbody.
  { intros g. unfold getTile_body, getTile_try.
    replace z with (Z.of_nat (Z.to_nat z)) at 1 by lia.
    rewrite py_index_nat, Hslot. simpl. rewrite Hread. simpl.
    by rewrite Hout. }
  split; [|done]. rewrite getTile_unfold. apply Hbody.
Qed.

(** X10.  A failure of the reader at a populated level that is no
    IOTiffException is not answered by the fallback, with or without
    [sparseFallback]: an InvalidOperationTiffException becomes a
    TileSourceException of the same message, an IndexError of the reader
    becomes TileSourceException 'z layer does not exist' although the level
    exists, and any other exception leaves [getTile] as it is. *)
Theorem getTile_reader_failure self x y z pil sf kwargs (td : Directory)
    (e : exn) :
  0 ≤ z →
  _tiffDirectories self !! Z.to_nat z = Some (Some td) →
  TiledTiffDirectory.getTile td x y = Raises e →
  (∀ m, e ≠ IOTiffException m) →
  getTile self x y z pil sf kwargs = Some (Raises (surfaced e))
  ∧ (∀ m, e = InvalidOperationTiffException m →
          surfaced e = TileSourceException m)
  ∧ (∀ m, e = IndexError m →
          surfaced e = TileSourceException "z layer does not exist").
Proof.
  intros Hz Hslot Hread Hio. split; [|split; by intros m ->].
  rewrite getTile_unfold. unfold getTile_body, getTile_try.
  replace z with (Z.of_nat (Z.to_nat z)) at 1 by lia.
  rewrite py_index_nat, Hslot. simpl. rewrite Hread. simpl.
  destruct e; try done. by destruct (Hio message).
Qed.

(** A loop that returns has run its body to a return on every item. *)
Lemma forEach_Returns_all {A S} (items : list A)
    (body : A → S → option (outcome S)) (s r : S) (a : A) :
  forEach items body s = Some (Returns r) →
  a ∈ items →
  ∃ s1 s2, body a s1 = Some (Returns s2).
Proof.
  revert s. induction items as [|b items IH]; intros s Hrun Hin.
  { by apply elem_of_nil in Hin. }
  simpl in Hrun.
  destruct (body b s) as [[s'|e]|] eqn:Hb; simpl in Hrun; try done.
  apply elem_of_cons in Hin as [->|Hin]; [by exists s, s'|].
  by eapply IH.
Qed.

(** X13.  The synthesizer returns an image only when the fetch of every
    sub-cell that it does not pass over returned a tile: a failed fetch is
    never left out of a returned canvas. *)
Theorem synthesis_needs_every_cell (file : TiffFile) self x y z (im : Image) :
  __init__ file = Returns self →
  PIL = true →
  0 ≤ z < levels self →
  getTileFromEmptyDirectory (getTile self) self x y z = Some (Returns im) →
  ∃ k : nat,
    climb self z = Some k
    ∧ ∀ c,
        c ∈ filter (λ c,
                 fetched x y (2 ^ Z.of_nat k)
                   (gridBound (z + Z.of_nat k) (levels self) (sizeX self)
                      (tileWidth self))
                   (gridBound (z + Z.of_nat k) (levels self) (sizeY self)
                      (tileHeight self)) c = true)
              (subCells (2 ^ Z.of_nat k)) →
        ∃ t, getTile self (x * 2 ^ Z.of_nat k + c.1) (y * 2 ^ Z.of_nat k + c.2)
               (z + Z.of_nat k) true true edge_False
             = Some (Returns t).
Proof.
  intros Hinit HPIL Hz Hret.
  destruct (init_invariant file self Hinit) as (ref & Hinv & _ & Hw & Hh).
  destruct (climb_populated self ref z Hinv Hz) as (k & Hk & _).
  pose proof Hinv as (_ & _ & _ & _ & _ & Htw & Hth & _).
  rewrite (getTileFromEmptyDirectory_spec (getTile self)) in Hret;
    [|lia|done|congruence|congruence|by eexists].
  exists k. split; [done|]. intros c Hc.
  unfold synthesize_spec in Hret. rewrite Hk in Hret.
  fold (gridBound (z + Z.of_nat k) (levels self) (sizeX self) (tileWidth self))
    in Hret.
  fold (gridBound (z + Z.of_nat k) (levels self) (sizeY self) (tileHeight self))
    in Hret.
  destruct (pasteCells _ _ _ _ _ _ _ _) as [[canvas|e]|] eqn:Hpaste;
    simpl in Hret; try done.
  unfold pasteCells in Hpaste.
  destruct (forEach_Returns_all _ _ _ _ c Hpaste Hc) as (s1 & s2 & Hbody).
  destruct (getTile self _ _ _ true true edge_False) as [[t|e]|]; try done.
  by exists t.
Qed.

End GetTileMore.

(** ** More about [getPreferredLevel] *)

Section PreferredLevelMore.

Context `{host : Host}.

Implicit Types (self : TiffFileTileSource) (level z : Z).

(** A populated level of the pyramid is its own preferred level. *)
Lemma preferredLevel_spec_fixed self (ref : Directory) level :
  pyramidInvariant self ref →
  0 ≤ level ≤ levels self - 1 →
  is_Some (mjoin (_tiffDirectories self !! Z.to_nat level)) →
  preferredLevel_spec self level = level.
Proof.
  intros Hinv Hl Hpop.
  destruct (preferredLevel_spec_char self ref level Hinv) as (Hr & _ & Hempty).
  assert (clampLevel self level = level) as Hc by (unfold clampLevel; lia).
  rewrite Hc in Hr, Hempty.
  destruct (Z.eq_dec (preferredLevel_spec self level) level) as [|Hne]; [done|].
  rewrite (Hempty level) in Hpop by lia. by destruct Hpop.
Qed.

(** X11.  In a source that [__init__] returned, [getPreferredLevel] returns
    a level that is no lower than the requested one when that is at most
    levels - 1, returns a populated level of the pyramid itself, and returns
    its own result again when asked for it. *)
Theorem getPreferredLevel_no_lower (file : TiffFile) self level :
  __init__ file = Returns self →
  ∃ r, getPreferredLevel self level = Some (Returns r)
       ∧ (level ≤ levels self - 1 → level ≤ r)
       ∧ (0 ≤ level < levels self →
          is_Some (mjoin (_tiffDirectories self !! Z.to_nat level)) →
          r = level)
       ∧ getPreferredLevel self r = Some (Returns r).
Proof.
  intros Hinit.
  destruct (init_invariant file self Hinit) as (ref & Hinv & _).
  destruct (preferredLevel_spec_char self ref level Hinv) as (Hr & Hpop & _).
  pose proof Hinv as (_ & Hmax & _).
  pose proof (clampLevel_range self level ltac:(lia)) as Hc.
  exists (preferredLevel_spec self level).
  split; [by eapply getPreferredLevel_spec|].
  split; [unfold clampLevel in *; lia|].
  split; [intros; eapply preferredLevel_spec_fixed; [done|lia|done]|].
  rewrite (getPreferredLevel_spec self ref) by done.
  do 2 f_equal. eapply preferredLevel_spec_fixed; [done|lia|done].
Qed.

(** X12.  In a source that [__init__] returned, the level at which the loop
    of [getTileFromEmptyDirectory] stops, started at a level of the pyramid,
    is the level that [getPreferredLevel] returns for it, and the scale is
    2 to the number of levels between them. *)
Theorem synthesizer_climbs_to_preferred (file : TiffFile) self z :
  __init__ file = Returns self →
  0 ≤ z < levels self →
  ∃ r,
    scanUp (Z.to_nat (Z.of_nat (length (_tiffDirectories self)) - z))
      (_tiffDirectories self) 1 z = Some (Returns (2 ^ (r - z), r))
    ∧ getPreferredLevel self z = Some (Returns r)
    ∧ z ≤ r.
Proof.
  intros Hinit Hz.
  destruct (init_invariant file self Hinit) as (ref & Hinv & _).
  destruct (climb_populated self ref z Hinv Hz) as (k & Hk & Hle & Hpop & Hempty).
  destruct (preferredLevel_spec_char self ref z Hinv) as (Hr & Hpop' & Hempty').
  assert (clampLevel self z = z) as Hc by (unfold clampLevel; lia).
  rewrite Hc in Hr, Hempty'.
  assert (preferredLevel_spec self z = z + Z.of_nat k) as Heq.
  { destruct (Z.lt_trichotomy (preferredLevel_spec self z) (z + Z.of_nat k))
      as [Hlt|[Heq|Hgt]]; [|done|].
    - exfalso.
      specialize (Hempty (Z.to_nat (preferredLevel_spec self z - z)) ltac:(lia)).
      replace (Z.to_nat z + Z.to_nat (preferredLevel_spec self z - z))%nat
        with (Z.to_nat (preferredLevel_spec self z)) in Hempty by lia.
      rewrite Hempty in Hpop'. by destruct Hpop'.
    - exfalso.
      replace (Z.to_nat z + k)%nat with (Z.to_nat (z + Z.of_nat k)) in Hpop
        by lia.
      rewrite (Hempty' (z + Z.of_nat k)) in Hpop by lia. by destruct Hpop. }
  exists (z + Z.of_nat k). split; [|split; [|lia]].
  - rewrite scanUp_climb by lia. unfold climb in Hk.
    destruct (list_find is_Some (drop (Z.to_nat z) (_tiffDirectories self)))
      as [[k' o]|]; [|done].
    simpl in Hk. injection Hk as ->.
    by replace (z + Z.of_nat k - z) with (Z.of_nat k) by lia; rewrite Z.mul_1_l.
  - rewrite (getPreferredLevel_spec self ref) by done. by rewrite Heq.
Qed.

End PreferredLevelMore.

(** ** More about the associated images *)

Section AssociatedImagesMore.

Context `{host : Host} `{codec : Codec}.

Lemma String_compare_trans (a b c : string) :
  String.compare a b ≠ Gt → String.compare b c ≠ Gt → String.compare a c ≠ Gt.
Proof.
  revert b c. induction a as [|x a IH]; intros [|y b] [|w c]; simpl; try done.
  unfold Ascii.compare.
  destruct (N.compare_spec (Ascii.N_of_ascii x) (Ascii.N_of_ascii y)),
    (N.compare_spec (Ascii.N_of_ascii y) (Ascii.N_of_ascii w)),
    (N.compare_spec (Ascii.N_of_ascii x) (Ascii.N_of_ascii w));
    try done; try lia.
  apply IH.
Qed.

Global Instance str_le_trans : Transitive str_le.
Proof.
  intros a b c. unfold str_le, String.leb. intros Hab Hbc.
  pose proof (String_compare_trans a b c) as H.
  destruct (String.compare a b), (String.compare b c), (String.compare a c);
    try done; exfalso; by apply H.
Qed.

(** X14.  On a pyramid without empty slots [getAssociatedImagesList]
    returns the keys of the embedded images of all its directories, each
    key once, in ascending order. *)
Theorem associated_images_listed (self : TiffFileTileSource) :
  Forall is_Some (_tiffDirectories self) →
  ∃ names, getAssociatedImagesList self = Returns names
    ∧ StronglySorted str_le names
    ∧ NoDup names
    ∧ ∀ name, name ∈ names ↔
        ∃ d, Some d ∈ _tiffDirectories self ∧ name ∈ imageKeys d.
Proof.
  intros Hdense.
  destruct (getAssociatedImagesList_dense self Hdense)
    as (names & Hret & Hsorted & Hnodup & Hmem).
  exists names. split; [done|]. split; [|done].
  by apply Sorted_StronglySorted; [apply _|].
Qed.

Lemma dictGet_None (items : list (string * bytes)) (key : string) :
  dictGet items key = None ↔ key ∉ items.*1.
Proof. unfold dictGet. symmetry. apply not_elem_of_list_to_map. Qed.

(** The loop passes over the directories that do not hold the key. *)
Lemma findAssociatedImage_skip (pre rest : list (option Directory))
    (imageKey : string) :
  Forall (λ o, ∃ d, o = Some d ∧ imageKey ∉ imageKeys d) pre →
  findAssociatedImage (pre ++ rest) imageKey = findAssociatedImage rest imageKey.
Proof.
  induction 1 as [|o pre (d & -> & Hd) _ IH]; [done|].
  simpl. apply dictGet_None in Hd. by rewrite Hd.
Qed.

(** X15.  [_getAssociatedImage] is decided by the first slot that is empty
    or holds the key: a directory that holds the key gives its decoded
    image (or the TypeError of the decoder, or AttributeError without PIL),
    whatever the slots after it are; an empty slot raises AttributeError;
    and when there is neither, the result is [None]. *)
Theorem getAssociatedImage_first_slot (self : TiffFileTileSource)
    (pre rest : list (option Directory)) (imageKey : string) :
  _tiffDirectories self = (pre ++ rest)%list →
  Forall (λ o, ∃ d, o = Some d ∧ imageKey ∉ imageKeys d) pre →
  (rest = [] → _getAssociatedImage self imageKey = NoAssociated)
  ∧ (∀ rest', rest = None :: rest' →
       _getAssociatedImage self imageKey
       = AssociatedRaises
           (AttributeError
              "'NoneType' object has no attribute '_embeddedImages'"))
  ∧ (∀ d rest' data, rest = Some d :: rest' →
       dictGet (TiledTiffDirectory._embeddedImages d) imageKey = Some data →
       _getAssociatedImage self imageKey =
       if PIL then
         match b64decode data with
         | Some raw => Associated (Image_open raw)
         | None => AssociatedTypeError
         end
       else
         AssociatedRaises
           (AttributeError "'NoneType' object has no attribute 'Image'")).
Proof.
  intros Hdirs Hpre. unfold _getAssociatedImage.
  rewrite Hdirs, findAssociatedImage_skip by done.
  split; [by intros ->|]. split; [by intros rest' ->|].
  intros d rest' data -> Hdata. simpl. by rewrite Hdata.
Qed.

(** X16.  On a pyramid without empty slots and with PIL,
    [_getAssociatedImage] agrees with [getAssociatedImagesList]: for a key
    of the list it decodes what a directory stores under the key (and
    raises the decoder's TypeError when that does not decode), and it
    returns [None] exactly for the keys that are not in the list. *)
Theorem getAssociatedImage_agrees_with_list (self : TiffFileTileSource)
    (imageKey : string) :
  Forall is_Some (_tiffDirectories self) →
  PIL = true →
  ∃ names, getAssociatedImagesList self = Returns names
    ∧ (imageKey ∈ names →
       ∃ d data,
         Some d ∈ _tiffDirectories self
         ∧ dictGet (TiledTiffDirectory._embeddedImages d) imageKey = Some data
         ∧ _getAssociatedImage self imageKey =
           match b64decode data with
           | Some raw => Associated (Image_open raw)
           | None => AssociatedTypeError
           end)
    ∧ (imageKey ∉ names ↔ _getAssociatedImage self imageKey = NoAssociated).
Proof.
  intros Hdense HPIL.
  destruct (getAssociatedImagesList_dense self Hdense)
    as (names & Hret & _ & _ & Hmem).
  exists names. split; [done|].
  assert ((∃ d data,
             Some d ∈ _tiffDirectories self
             ∧ dictGet (TiledTiffDirectory._embeddedImages d) imageKey = Some data
             ∧ _getAssociatedImage self imageKey =
               match b64decode data with
               | Some raw => Associated (Image_open raw)
               | None => AssociatedTypeError
               end)
          ∨ (¬ ∃ d, Some d ∈ _tiffDirectories self ∧ imageKey ∈ imageKeys d)
            ∧ _getAssociatedImage self imageKey = NoAssociated) as Hcases.
  { unfold _getAssociatedImage. clear Hret Hmem.
    induction Hdense as [|o dirs [d ->] _ IH].
    - right. split; [|done]. intros (d & Hd & _). by apply elem_of_nil in Hd.
    - simpl.
      destruct (dictGet (TiledTiffDirectory._embeddedImages d) imageKey)
        as [data|] eqn:Hget.
      + left. exists d, data. split; [by left|]. split; [done|].
        by rewrite HPIL.
      + apply dictGet_None in Hget.
        destruct IH as [(d' & data & Hd' & Hdata & Himg)|[Hno Hnone]].
        * left. exists d', data. split; [by right|done].
        * right. split; [|done]. intros (d' & Hd' & Hk).
          apply elem_of_cons in Hd' as [[= <-]|Hd']; [done|].
          apply Hno. by exists d'. }
  rewrite Hmem.
  destruct Hcases as [(d & data & Hd & Hdata & Himg)|[Hno Hnone]].
  - split; [intros _; by exists d, data|].
    split.
    + intros Hnot. exfalso. apply Hnot. exists d. split; [done|].
      destruct (decide (imageKey ∈ imageKeys d)) as [|Hk]; [done|].
      apply dictGet_None in Hk. congruence.
    + intros Hnone. rewrite Hnone in Himg. by destruct (b64decode data).
  - split; [done|]. split; done.
Qed.

End AssociatedImagesMore.

(** ** [getNativeMagnification] *)

Section MagnificationProperties.

Context `{host : Host} `{pixels : PixelReader}.

(** X17.  In a source that [__init__] returned, [getNativeMagnification]
    raises nothing and reports the pixel information of the reference
    directory, the one whose image size is the size of the source: its mm_x
    and mm_y as stored, its magnification when the key is stored (even as
    [None]), and otherwise 0.01 / mm_x when mm_x is stored and not zero,
    and [None] when it is not. *)
Theorem getNativeMagnification_of_reference (file : TiffFile)
    (self : TiffFileTileSource) :
  __init__ file = Returns self →
  ∃ ref info,
    pyramidInvariant self ref
    ∧ getNativeMagnification self = Returns info
    ∧ mm_x info = dictGetNone (pixelInfo ref) "mm_x"
    ∧ mm_y info = dictGetNone (pixelInfo ref) "mm_y"
    ∧ (∀ v, pixelInfo ref !! "magnification" = Some v → magnification info = v)
    ∧ (pixelInfo ref !! "magnification" = None →
       (∀ v, mm_x info = Some v → truthy v = true →
             magnification info = Some (hundredthOver v))
       ∧ (∀ v, mm_x info = Some v → truthy v = false →
               magnification info = None)
       ∧ (mm_x info = None → magnification info = None)).
Proof.
  intros Hinit.
  destruct (init_invariant file self Hinit) as (ref & Hinv & _).
  pose proof Hinv as (_ & Hmax & Hlen & Htop & _).
  assert (py_index (_tiffDirectories self) (-1) = Returns (Some ref)) as Hlast.
  { rewrite py_index_negative by lia.
    replace (-1 + Z.of_nat (length (_tiffDirectories self)))
      with (Z.of_nat (Z.to_nat (levels self - 1))) by lia.
    by rewrite py_index_nat, Htop. }
  unfold getNativeMagnification. rewrite Hlast. simpl.
  eexists ref, _. split; [done|]. split; [reflexivity|]. simpl.
  split; [done|]. split; [done|]. split.
  - by intros v ->.
  - intros ->. simpl. unfold estimatedMagnification.
    split; [|split].
    + intros v Hv Ht. by rewrite Hv, Ht.
    + intros v Hv Ht. by rewrite Hv, Ht.
    + intros Hv. by rewrite Hv.
Qed.

End MagnificationProperties.

(** ** The further properties on concrete files *)

Import MoreExamples.

Lemma slot_holds_its_level_witness :
  __init__ (host := plainHost) sparseFile = Returns sparseSource
  ∧ _tiffDirectories sparseSource !! 2%nat = Some (Some d2)
  ∧ Returns d2 ∈ enumerated (ifds sparseFile)
  ∧ usable (Returns d2) = true
  ∧ levelOf (host := plainHost) d2 = 2%nat.
Proof.
  assert (__init__ (host := plainHost) sparseFile = Returns sparseSource)
    as H1 by (vm_compute; reflexivity).
  assert (_tiffDirectories sparseSource !! 2%nat = Some (Some d2)) as H2
    by reflexivity.
  split; [exact H1|]. split; [exact H2|].
  exact (slot_holds_its_level (host := plainHost) sparseFile sparseSource
           2 d2 H1 H2).
Defined.

Lemma tiled_directory_kept_witness :
  __init__ (host := plainHost) sparseFile = Returns sparseSource
  ∧ Returns d0 ∈ enumerated (ifds sparseFile)
  ∧ usable (Returns d0) = true
  ∧ sameTiling sparseSource d0
  ∧ Z.of_nat (levelOf (host := plainHost) d0) < levels sparseSource
  ∧ ∃ d', _tiffDirectories sparseSource !! levelOf (host := plainHost) d0
          = Some (Some d')
          ∧ levelOf (host := plainHost) d' = levelOf (host := plainHost) d0
          ∧ TiledTiffDirectory.objId d0 ≤ TiledTiffDirectory.objId d'.
Proof.
  assert (__init__ (host := plainHost) sparseFile = Returns sparseSource)
    as H1 by (vm_compute; reflexivity).
  assert (Returns d0 ∈ enumerated (ifds sparseFile)) as H2 by (simpl; by left).
  assert (usable (Returns d0) = true) as H3 by reflexivity.
  assert (sameTiling sparseSource d0) as H4 by (split; reflexivity).
  split; [exact H1|]. split; [exact H2|]. split; [exact H3|].
  split; [exact H4|].
  exact (tiled_directory_kept (host := plainHost) sparseFile sparseSource d0
           H1 H2 H3 H4).
Defined.

Lemma reference_is_largest_witness :
  __init__ (host := plainHost) sparseFile = Returns sparseSource
  ∧ Returns d0 ∈ enumerated (ifds sparseFile)
  ∧ usable (Returns d0) = true
  ∧ TiledTiffDirectory.tileWidth d0 * TiledTiffDirectory.tileHeight d0
      ≤ tileWidth sparseSource * tileHeight sparseSource
  ∧ (TiledTiffDirectory.tileWidth d0 * TiledTiffDirectory.tileHeight d0
       = tileWidth sparseSource * tileHeight sparseSource →
     Z.of_nat (levelOf (host := plainHost) d0) < levels sparseSource).
Proof.
  assert (__init__ (host := plainHost) sparseFile = Returns sparseSource)
    as H1 by (vm_compute; reflexivity).
  assert (Returns d0 ∈ enumerated (ifds sparseFile)) as H2 by (simpl; by left).
  assert (usable (Returns d0) = true) as H3 by reflexivity.
  split; [exact H1|]. split; [exact H2|]. split; [exact H3|].
  exact (reference_is_largest (host := plainHost) sparseFile sparseSource d0
           H1 H2 H3).
Defined.

Lemma init_ignores_what_follows_witness :
  isTiffException (IOTiffException "Read error") = true
  ∧ (∀ msg, IOTiffException "Read error" ≠ ValidationTiffException msg)
  ∧ __init__ (host := plainHost)
      {| largeImagePath := "cut.tif";
         ifds := [Returns d0] ++ Raises (IOTiffException "Read error")
                   :: [Returns d2];
         pastEnd := "Could not set TIFF directory to 3" |}
    = __init__ (host := plainHost)
        {| largeImagePath := "cut.tif";
           ifds := [Returns d0] ++ Raises (IOTiffException "Read error") :: [];
           pastEnd := "Could not set TIFF directory to 2" |}.
Proof.
  assert (isTiffException (IOTiffException "Read error") = true) as H1
    by reflexivity.
  assert (∀ msg, IOTiffException "Read error" ≠ ValidationTiffException msg)
    as H2 by (intros msg H; discriminate H).
  split; [exact H1|]. split; [exact H2|].
  exact (init_ignores_what_follows (host := plainHost) "cut.tif" [Returns d0]
           [Returns d2] [] (IOTiffException "Read error")
           "Could not set TIFF directory to 3"
           "Could not set TIFF directory to 2" H1 H2).
Defined.


Lemma getTile_raises_nothing_caught_witness :
  (∀ s t f x' y' z' p k e',
     _outputTile (Host := plainHost) s t f x' y' z' p k = Raises e' →
     caught e' = false)
  ∧ getTile (host := plainHost) sparseSource 0 0 3 false false []
    = Some (Raises (TileSourceException "z layer does not exist"))
  ∧ caught (TileSourceException "z layer does not exist") = false.
Proof.
  assert (∀ s t f x' y' z' p k e',
            _outputTile (Host := plainHost) s t f x' y' z' p k = Raises e' →
            caught e' = false) as H1
    by (intros s t f x' y' z' p k e' H; discriminate H).
  assert (getTile (host := plainHost) sparseSource 0 0 3 false false []
          = Some (Raises (TileSourceException "z layer does not exist"))) as H2
    by (vm_compute; reflexivity).
  split; [exact H1|]. split; [exact H2|].
  exact (getTile_raises_nothing_caught (host := plainHost) sparseSource 0 0 3
           false false [] _ H1 H2).
Defined.

Lemma getTile_level_out_of_range_witness :
  __init__ (host := plainHost) sparseFile = Returns sparseSource
  ∧ (3 < - levels sparseSource ∨ levels sparseSource ≤ 3)
  ∧ getTile (host := plainHost) sparseSource 0 0 3 false true []
    = Some (Raises (TileSourceException "z layer does not exist")).
Proof.
  assert (__init__ (host := plainHost) sparseFile = Returns sparseSource)
    as H1 by (vm_compute; reflexivity).
  assert (3 < - levels sparseSource ∨ levels sparseSource ≤ 3) as H2
    by (right; simpl; lia).
  split; [exact H1|]. split; [exact H2|].
  exact (getTile_level_out_of_range (host := plainHost) sparseFile sparseSource
           0 0 3 false true [] H1 H2).
Defined.

Lemma getTile_reads_populated_level_witness :
  0 ≤ 2
  ∧ _tiffDirectories sparseSource !! Z.to_nat 2 = Some (Some d2)
  ∧ TiledTiffDirectory.getTile d2 1 0 = Returns (TileBytes "L2/1/0")
  ∧ _outputTile (Host := plainHost) sparseSource (TileBytes "L2/1/0")
      (if PIL (Host := plainHost) && isImage (TileBytes "L2/1/0")
       then TILE_FORMAT_PIL (Host := plainHost) else "JPEG")
      1 0 2 false [] = Returns (TileBytes "L2/1/0")
  ∧ getTile (host := plainHost) sparseSource 1 0 2 false true []
    = Some (Returns (TileBytes "L2/1/0"))
  ∧ ∀ g, getTile_body (host := plainHost) g sparseSource 1 0 2 false true []
         = Some (Returns (TileBytes "L2/1/0")).
Proof.
  assert (0 ≤ 2) as H1 by lia.
  assert (_tiffDirectories sparseSource !! Z.to_nat 2 = Some (Some d2)) as H2
    by reflexivity.
  assert (TiledTiffDirectory.getTile d2 1 0 = Returns (TileBytes "L2/1/0"))
    as H3 by (vm_compute; reflexivity).
  assert (_outputTile (Host := plainHost) sparseSource (TileBytes "L2/1/0")
            (if PIL (Host := plainHost) && isImage (TileBytes "L2/1/0")
             then TILE_FORMAT_PIL (Host := plainHost) else "JPEG")
            1 0 2 false [] = Returns (TileBytes "L2/1/0")) as H4
    by reflexivity.
  split; [exact H1|]. split; [exact H2|]. split; [exact H3|].
  split; [exact H4|].
  exact (getTile_reads_populated_level (host := plainHost) sparseSource 1 0 2
           false true [] d2 (TileBytes "L2/1/0") (TileBytes "L2/1/0")
           H1 H2 H3 H4).
Defined.

Lemma getTile_reader_failure_witness :
  0 ≤ 0
  ∧ _tiffDirectories refusingSource !! Z.to_nat 0 = Some (Some refusingDir)
  ∧ TiledTiffDirectory.getTile refusingDir 5 5
    = Raises (InvalidOperationTiffException "Tile x=5, y=5 does not exist")
  ∧ (∀ m, InvalidOperationTiffException "Tile x=5, y=5 does not exist"
          ≠ IOTiffException m)
  ∧ getTile (host := plainHost) refusingSource 5 5 0 false true []
    = Some (Raises
        (surfaced
           (InvalidOperationTiffException "Tile x=5, y=5 does not exist")))
  ∧ (∀ m, InvalidOperationTiffException "Tile x=5, y=5 does not exist"
          = InvalidOperationTiffException m →
          surfaced
            (InvalidOperationTiffException "Tile x=5, y=5 does not exist")
          = TileSourceException m)
  ∧ (∀ m, InvalidOperationTiffException "Tile x=5, y=5 does not exist"
          = IndexError m →
          surfaced
            (InvalidOperationTiffException "Tile x=5, y=5 does not exist")
          = TileSourceException "z layer does not exist").
Proof.
  assert (0 ≤ 0) as H1 by lia.
  assert (_tiffDirectories refusingSource !! Z.to_nat 0
          = Some (Some refusingDir)) as H2 by reflexivity.
  assert (TiledTiffDirectory.getTile refusingDir 5 5
          = Raises (InvalidOperationTiffException
                      "Tile x=5, y=5 does not exist")) as H3 by reflexivity.
  assert (∀ m, InvalidOperationTiffException "Tile x=5, y=5 does not exist"
               ≠ IOTiffException m) as H4 by (intros m H; discriminate H).
  split; [exact H1|]. split; [exact H2|]. split; [exact H3|].
  split; [exact H4|].
  exact (getTile_reader_failure (host := plainHost) refusingSource 5 5 0
           false true [] refusingDir _ H1 H2 H3 H4).
Defined.

Lemma getPreferredLevel_no_lower_witness :
  __init__ (host := plainHost) sparseFile = Returns sparseSource
  ∧ ∃ r, getPreferredLevel sparseSource 1 = Some (Returns r)
         ∧ (1 ≤ levels sparseSource - 1 → 1 ≤ r)
         ∧ (0 ≤ 1 < levels sparseSource →
            is_Some (mjoin (_tiffDirectories sparseSource !! Z.to_nat 1)) →
            r = 1)
         ∧ getPreferredLevel sparseSource r = Some (Returns r).
Proof.
  assert (__init__ (host := plainHost) sparseFile = Returns sparseSource)
    as H1 by (vm_compute; reflexivity).
  split; [exact H1|].
  exact (getPreferredLevel_no_lower (host := plainHost) sparseFile sparseSource
           1 H1).
Defined.

Lemma synthesizer_climbs_to_preferred_witness :
  __init__ (host := plainHost) sparseFile = Returns sparseSource
  ∧ 0 ≤ 1 < levels sparseSource
  ∧ ∃ r,
      scanUp (Z.to_nat (Z.of_nat (length (_tiffDirectories sparseSource)) - 1))
        (_tiffDirectories sparseSource) 1 1 = Some (Returns (2 ^ (r - 1), r))
      ∧ getPreferredLevel sparseSource 1 = Some (Returns r)
      ∧ 1 ≤ r.
Proof.
  assert (__init__ (host := plainHost) sparseFile = Returns sparseSource)
    as H1 by (vm_compute; reflexivity).
  assert (0 ≤ 1 < levels sparseSource) as H2 by (simpl; lia).
  split; [exact H1|]. split; [exact H2|].
  exact (synthesizer_climbs_to_preferred (host := plainHost) sparseFile
           sparseSource 1 H1 H2).
Defined.

Lemma synthesis_needs_every_cell_witness :
  __init__ (host := plainHost) sparseFile = Returns sparseSource
  ∧ PIL (Host := plainHost) = true
  ∧ 0 ≤ 1 < levels sparseSource
  ∧ getTileFromEmptyDirectory (host := plainHost)
      (getTile (host := plainHost) sparseSource) sparseSource 0 0 1
    = Some (Returns
        (Image_resize
           (Image_paste
              (Image_paste
                 (Image_paste
                    (Image_paste (Image_new "RGBA" 512 512)
                       (Image_open "L2/0/0") 0 0)
                    (Image_open "L2/0/1") 0 256)
                 (Image_open "L2/1/0") 256 0)
              (Image_open "L2/1/1") 256 256)
           256 256 LANCZOS))
  ∧ ∃ k : nat,
      climb sparseSource 1 = Some k
      ∧ ∀ c,
          c ∈ filter (λ c,
                   fetched 0 0 (2 ^ Z.of_nat k)
                     (gridBound (1 + Z.of_nat k) (levels sparseSource)
                        (sizeX sparseSource) (tileWidth sparseSource))
                     (gridBound (1 + Z.of_nat k) (levels sparseSource)
                        (sizeY sparseSource) (tileHeight sparseSource)) c
                   = true)
                (subCells (2 ^ Z.of_nat k)) →
          ∃ t, getTile (host := plainHost) sparseSource
                 (0 * 2 ^ Z.of_nat k + c.1) (0 * 2 ^ Z.of_nat k + c.2)
                 (1 + Z.of_nat k) true true edge_False
               = Some (Returns t).
Proof.
  assert (__init__ (host := plainHost) sparseFile = Returns sparseSource)
    as H1 by (vm_compute; reflexivity).
  assert (PIL (Host := plainHost) = true) as H2 by reflexivity.
  assert (0 ≤ 1 < levels sparseSource) as H3 by (simpl; lia).
  assert (getTileFromEmptyDirectory (host := plainHost)
            (getTile (host := plainHost) sparseSource) sparseSource 0 0 1
          = Some (Returns
              (Image_resize
                 (Image_paste
                    (Image_paste
                       (Image_paste
                          (Image_paste (Image_new "RGBA" 512 512)
                             (Image_open "L2/0/0") 0 0)
                          (Image_open "L2/0/1") 0 256)
                       (Image_open "L2/1/0") 256 0)
                    (Image_open "L2/1/1") 256 256)
                 256 256 LANCZOS))) as H4 by (vm_compute; reflexivity).
  split; [exact H1|]. split; [exact H2|]. split; [exact H3|].
  split; [exact H4|].
  exact (synthesis_needs_every_cell (host := plainHost) sparseFile sparseSource
           0 0 1 _ H1 H2 H3 H4).
Defined.

Lemma associated_images_listed_witness :
  Forall is_Some (_tiffDirectories denseSource)
  ∧ ∃ names, getAssociatedImagesList denseSource = Returns names
      ∧ StronglySorted str_le names
      ∧ NoDup names
      ∧ ∀ name, name ∈ names ↔
          ∃ d, Some d ∈ _tiffDirectories denseSource ∧ name ∈ imageKeys d.
Proof.
  assert (Forall is_Some (_tiffDirectories denseSource)) as H1
    by (simpl; repeat constructor; by eexists).
  split; [exact H1|].
  exact (associated_images_listed denseSource H1).
Defined.

Lemma getAssociatedImage_first_slot_witness :
  _tiffDirectories sparseSource = ([Some d0] ++ [None; Some d2])%list
  ∧ Forall (λ o, ∃ d, o = Some d ∧ "macro" ∉ imageKeys d) [Some d0]
  ∧ (([None; Some d2] : list (option Directory)) = [] →
     _getAssociatedImage (host := plainHost) (codec := plainCodec)
       sparseSource "macro" = NoAssociated)
  ∧ (∀ rest', [None; Some d2] = None :: rest' →
       _getAssociatedImage (host := plainHost) (codec := plainCodec)
         sparseSource "macro"
       = AssociatedRaises
           (AttributeError
              "'NoneType' object has no attribute '_embeddedImages'"))
  ∧ (∀ d rest' data, [None; Some d2] = Some d :: rest' →
       dictGet (TiledTiffDirectory._embeddedImages d) "macro" = Some data →
       _getAssociatedImage (host := plainHost) (codec := plainCodec)
         sparseSource "macro" =
       if PIL (Host := plainHost) then
         match b64decode (Codec := plainCodec) data with
         | Some raw => Associated (Image_open raw)
         | None => AssociatedTypeError
         end
       else
         AssociatedRaises
           (AttributeError "'NoneType' object has no attribute 'Image'")).
Proof.
  assert (_tiffDirectories sparseSource = ([Some d0] ++ [None; Some d2])%list)
    as H1 by reflexivity.
  assert (Forall (λ o, ∃ d, o = Some d ∧ "macro" ∉ imageKeys d) [Some d0])
    as H2.
  { apply Forall_singleton. exists d0. split; [reflexivity|].
    simpl. intros H. apply list_elem_of_singleton in H. discriminate H. }
  split; [exact H1|]. split; [exact H2|].
  exact (getAssociatedImage_first_slot (host := plainHost)
           (codec := plainCodec) sparseSource [Some d0] [None; Some d2]
           "macro" H1 H2).
Defined.

Lemma getAssociatedImage_agrees_with_list_witness :
  Forall is_Some (_tiffDirectories denseSource)
  ∧ PIL (Host := plainHost) = true
  ∧ ∃ names, getAssociatedImagesList denseSource = Returns names
      ∧ ("macro" ∈ names →
         ∃ d data,
           Some d ∈ _tiffDirectories denseSource
           ∧ dictGet (TiledTiffDirectory._embeddedImages d) "macro" = Some data
           ∧ _getAssociatedImage (host := plainHost) (codec := plainCodec)
               denseSource "macro" =
             match b64decode (Codec := plainCodec) data with
             | Some raw => Associated (Image_open raw)
             | None => AssociatedTypeError
             end)
      ∧ ("macro" ∉ names ↔
         _getAssociatedImage (host := plainHost) (codec := plainCodec)
           denseSource "macro" = NoAssociated).
Proof.
  assert (Forall is_Some (_tiffDirectories denseSource)) as H1
    by (simpl; repeat constructor; by eexists).
  assert (PIL (Host := plainHost) = true) as H2 by reflexivity.
  split; [exact H1|]. split; [exact H2|].
  exact (getAssociatedImage_agrees_with_list (host := plainHost)
           (codec := plainCodec) denseSource "macro" H1 H2).
Defined.

Lemma getNativeMagnification_of_reference_witness :
  __init__ (host := plainHost) sparseFile = Returns sparseSource
  ∧ ∃ ref info,
      pyramidInvariant sparseSource ref
      ∧ getNativeMagnification (pixels := quarterMicron) sparseSource
        = Returns info
      ∧ mm_x info = dictGetNone (pixelInfo (PixelReader := quarterMicron) ref)
                      "mm_x"
      ∧ mm_y info = dictGetNone (pixelInfo (PixelReader := quarterMicron) ref)
                      "mm_y"
      ∧ (∀ v, pixelInfo (PixelReader := quarterMicron) ref !! "magnification"
              = Some v → magnification info = v)
      ∧ (pixelInfo (PixelReader := quarterMicron) ref !! "magnification" = None →
         (∀ v, mm_x info = Some v →
               truthy (PixelReader := quarterMicron) v = true →
               magnification info
               = Some (hundredthOver (PixelReader := quarterMicron) v))
         ∧ (∀ v, mm_x info = Some v →
                 truthy (PixelReader := quarterMicron) v = false →
                 magnification info = None)
         ∧ (mm_x info = None → magnification info = None)).
Proof.
  assert (__init__ (host := plainHost) sparseFile = Returns sparseSource)
    as H1 by (vm_compute; reflexivity).
  split; [exact H1|].
  exact (getNativeMagnification_of_reference (host := plainHost)
           (pixels := quarterMicron) sparseFile sparseSource H1).
Defined.

(** ** Which exceptions reach the caller *)

Section SurfacedExceptions.

Context `{host : Host}.

Implicit Types (self : TiffFileTileSource) (x y z : Z) (kwargs : Kwargs).




End SurfacedExceptions.


(** ** The synthesis of a tile, cell by cell *)

Section SynthesisClaim.

Context `{host : Host}.

Implicit Types (self : TiffFileTileSource) (x y z : Z).

Lemma elem_of_range (n a : Z) : a ∈ range n ↔ 0 ≤ a < n.
Proof.
  unfold range. rewrite list_elem_of_fmap. split.
  - intros (i & -> & Hi). apply elem_of_seq in Hi. lia.
  - intros Ha. exists (Z.to_nat a). split; [lia|]. apply elem_of_seq. lia.
Qed.

Lemma seq_sorted (j n : nat) : StronglySorted lt (seq j n).
Proof.
  revert j. induction n as [|n IH]; intros j; simpl; constructor; [apply IH|].
  apply Forall_forall. intros i Hi. apply elem_of_seq in Hi. lia.
Qed.

Lemma range_sorted (n : Z) : StronglySorted Z.lt (range n).
Proof.
  unfold range. apply (StronglySorted_fmap _ lt); [lia|apply seq_sorted].
Qed.

Lemma elem_of_subCells (scale dx dy : Z) :
  (dx, dy) ∈ subCells scale ↔ 0 ≤ dx < scale ∧ 0 ≤ dy < scale.
Proof.
  unfold subCells. rewrite list_elem_of_bind. split.
  - intros (a & Hin & Ha). apply list_elem_of_bind in Hin as (b & Hin & Hb).
    apply list_elem_of_singleton in Hin. injection Hin as -> ->.
    by rewrite <- !elem_of_range.
  - intros [Hx Hy]. exists dx. rewrite elem_of_range. split; [|done].
    apply list_elem_of_bind. exists dy. rewrite elem_of_range. split; [|done].
    by apply list_elem_of_singleton.
Qed.

(** The nest of the two loops reaches the sub-cells in the order
    [cellBefore], each cell once. *)
Lemma subCells_sorted (scale : Z) : StronglySorted cellBefore (subCells scale).
Proof.
  unfold subCells.
  assert (∀ a (m : list Z), StronglySorted Z.lt m →
            StronglySorted cellBefore (m ≫= λ dy, [(a, dy)])) as Hrow.
  { intros a m Hm. induction Hm as [|b m Hm IH Hall]; [constructor|].
    rewrite bind_cons. simpl. constructor; [done|].
    apply Forall_forall. intros [a' b'] Hin.
    apply list_elem_of_bind in Hin as (b'' & Hin & Hb).
    apply list_elem_of_singleton in Hin. injection Hin as -> ->.
    rewrite Forall_forall in Hall. right. split; [done|]. by apply Hall. }
  assert (∀ l (m : list Z), StronglySorted Z.lt l → StronglySorted Z.lt m →
            StronglySorted cellBefore (l ≫= λ dx, m ≫= λ dy, [(dx, dy)]))
    as Hgrid.
  { intros l m Hl Hm. induction Hl as [|a l Hl IH Hall]; [constructor|].
    rewrite bind_cons. apply StronglySorted_app_2; [|by apply Hrow|done].
    intros [a1 b1] [a2 b2] H1 H2.
    apply list_elem_of_bind in H1 as (b & H1 & _).
    apply list_elem_of_singleton in H1. injection H1 as -> ->.
    apply list_elem_of_bind in H2 as (a' & H2 & Ha').
    apply list_elem_of_bind in H2 as (b' & H2 & _).
    apply list_elem_of_singleton in H2. injection H2 as -> ->.
    rewrite Forall_forall in Hall. left. by apply Hall. }
  apply Hgrid; apply range_sorted.
Qed.

Lemma filter_sorted {A} (R : relation A) (P : A → Prop)
    `{∀ a, Decision (P a)} (l : list A) :
  StronglySorted R l → StronglySorted R (filter P l).
Proof.
  induction 1 as [|a l Hl IH Hall]; [constructor|].
  rewrite filter_cons. destruct (decide (P a)); [|done].
  constructor; [done|]. rewrite Forall_forall in Hall |- *.
  intros b Hb. apply list_elem_of_filter in Hb as [_ Hb]. by apply Hall.
Qed.

(** A cell is fetched when it is the origin or lies below both bounds. *)
Lemma fetched_below (x y scale : Z) (maxX maxY : Q) (dx dy : Z) :
  fetched x y scale maxX maxY (dx, dy) = true
  ↔ (dx = 0 ∧ dy = 0)
    ∨ ((inject_Z (x * scale + dx) < maxX)%Q
       ∧ (inject_Z (y * scale + dy) < maxY)%Q).
Proof.
  unfold fetched. simpl.
  rewrite orb_true_iff, !andb_true_iff, !negb_true_iff, !Z.eqb_eq.
  assert (∀ a b, Qle_bool a b = false ↔ (b < a)%Q) as Hlt.
  { intros a b. split.
    - intros Hf. apply Qnot_le_lt. intros Hle.
      apply Qle_bool_iff in Hle. congruence.
    - intros Hl. destruct (Qle_bool a b) eqn:Hle; [|done].
      apply Qle_bool_iff in Hle. by apply Qlt_not_le in Hl. }
  by rewrite !Hlt.
Qed.

(** A loop whose body returns on every item is the fold of its steps. *)
Lemma forEach_foldl {A S} (items : list A)
    (body : A → S → option (outcome S)) (step : S → A → S) (s : S) :
  (∀ a s', a ∈ items → body a s' = Some (Returns (step s' a))) →
  forEach items body s = Some (Returns (foldl step s items)).
Proof.
  revert s. induction items as [|a items IH]; intros s Hb; [done|].
  simpl. rewrite Hb by (by left). simpl. apply IH.
  intros a' s' Hin. apply Hb. by right.
Qed.

(** A loop whose body raises on an item, after items on which it returns,
    raises the same, whatever items follow. *)
Lemma forEach_raises_at {A S} (pre post : list A) (a : A)
    (body : A → S → option (outcome S)) (e : exn) (s : S) :
  (∀ a' s', a' ∈ pre → ∃ s'', body a' s' = Some (Returns s'')) →
  (∀ s', body a s' = Some (Raises e)) →
  forEach (pre ++ a :: post) body s = Some (Raises e).
Proof.
  revert s. induction pre as [|b pre IH]; intros s Hpre Ha.
  - simpl. by rewrite Ha.
  - simpl. destruct (Hpre b s) as [s'' ->]; [by left|]. simpl.
    apply IH; [|done]. intros a' s' Hin. apply Hpre. by right.
Qed.

(** C4.  In a source that [__init__] returned, with PIL, for a level [z] of
    the pyramid whose slot is empty, there are a least [k] >= 1 with level
    z + k populated (every level from z to z + k - 1 is empty) and a list
    [cells] of sub-cells such that, with scale = 2^k,
    maxX = 2^(z+k+1-levels) * sizeX / tileWidth and
    maxY = 2^(z+k+1-levels) * sizeY / tileHeight:
    - [cells] holds exactly the sub-cells (dx, dy) of
      [0, scale) x [0, scale) that are the origin or have
      x*scale+dx < maxX and y*scale+dy < maxY, each once, by dx and then by
      dy; the origin is among them;
    - when the fetch of every cell of [cells] at level z + k (with
      pilImageAllowed and sparseFallback set and edge=False) returns a tile,
      [getTileFromEmptyDirectory] returns the canvas
      PIL.Image.new('RGBA', (tileWidth*scale, tileHeight*scale)) on which
      the tile of each cell, in the order of [cells], was pasted at
      (dx*tileWidth, dy*tileHeight) (a tile that is a byte string as the
      image PIL.Image.open makes of it), resized to (tileWidth, tileHeight)
      with LANCZOS;
    - when the fetch of a cell raises after the fetches of the cells before
      it returned, [getTileFromEmptyDirectory] raises that exception;
    - an image that is returned measures tileWidth by tileHeight. *)
Theorem synthesis_as_described (file : TiffFile) self x y z :
  __init__ file = Returns self →
  PIL = true →
  0 ≤ z < levels self →
  _tiffDirectories self !! Z.to_nat z = Some None →
  ∃ (k : nat) (cells : list (Z * Z)),
    let scale := 2 ^ Z.of_nat k in
    let zk := z + Z.of_nat k in
    let maxX := (Qpower (2 # 1) (zk + 1 - levels self)
                 * inject_Z (sizeX self) / inject_Z (tileWidth self))%Q in
    let maxY := (Qpower (2 # 1) (zk + 1 - levels self)
                 * inject_Z (sizeY self) / inject_Z (tileHeight self))%Q in
    (1 ≤ k)%nat
    ∧ zk ≤ levels self - 1
    ∧ is_Some (mjoin (_tiffDirectories self !! Z.to_nat zk))
    ∧ (∀ j, (j < k)%nat →
            _tiffDirectories self !! (Z.to_nat z + j)%nat = Some None)
    ∧ (∀ dx dy,
         (dx, dy) ∈ cells
         ↔ 0 ≤ dx < scale ∧ 0 ≤ dy < scale
           ∧ ((dx = 0 ∧ dy = 0)
              ∨ ((inject_Z (x * scale + dx) < maxX)%Q
                 ∧ (inject_Z (y * scale + dy) < maxY)%Q)))
    ∧ StronglySorted cellBefore cells
    ∧ (0, 0) ∈ cells
    ∧ (∀ tiles : Z * Z → Tile,
         (∀ c, c ∈ cells →
               getTile self (x * scale + c.1) (y * scale + c.2) zk
                 true true [("edge", PyBool false)]
               = Some (Returns (tiles c))) →
         getTileFromEmptyDirectory (getTile self) self x y z
         = Some (Returns
             (Image_resize
                (foldl (λ canvas c,
                          Image_paste canvas
                            match tiles c with
                            | TileImage im => im
                            | TileBytes data => Image_open data
                            end
                            (c.1 * tileWidth self) (c.2 * tileHeight self))
                   (Image_new "RGBA" (tileWidth self * scale)
                      (tileHeight self * scale))
                   cells)
                (tileWidth self) (tileHeight self) LANCZOS)))
    ∧ (∀ (pre post : list (Z * Z)) (c : Z * Z) (e : exn),
         cells = (pre ++ c :: post)%list →
         (∀ c', c' ∈ pre →
                ∃ t, getTile self (x * scale + c'.1) (y * scale + c'.2) zk
                       true true [("edge", PyBool false)]
                     = Some (Returns t)) →
         getTile self (x * scale + c.1) (y * scale + c.2) zk
           true true [("edge", PyBool false)]
         = Some (Raises e) →
         getTileFromEmptyDirectory (getTile self) self x y z
         = Some (Raises e))
    ∧ (∀ im, getTileFromEmptyDirectory (getTile self) self x y z
             = Some (Returns im) →
             imageSize im = Some (tileWidth self, tileHeight self)).
Proof.
  intros Hinit HPIL Hz Hslot.
  destruct (init_invariant file self Hinit) as (ref & Hinv & _ & Hw & Hh).
  destruct (climb_populated self ref z Hinv Hz) as (k & Hk & Hle & Hpop & Hempty).
  pose proof Hinv as (_ & _ & _ & _ & _ & Htw & Hth & _).
  assert (getTileFromEmptyDirectory (getTile self) self x y z
          = synthesize_spec (λ x' y' z', getTile self x' y' z' true true edge_False)
              self x y z) as Hspec.
  { apply getTileFromEmptyDirectory_spec; [lia|done|congruence|congruence|].
    by eexists. }
  unfold synthesize_spec in Hspec. rewrite Hk in Hspec.
  unfold pasteCells, edge_False in Hspec.
  exists k.
  exists (filter
            (λ c, fetched x y (2 ^ Z.of_nat k)
                    (Qpower (2 # 1) (z + Z.of_nat k + 1 - levels self)
                     * inject_Z (sizeX self) / inject_Z (tileWidth self))%Q
                    (Qpower (2 # 1) (z + Z.of_nat k + 1 - levels self)
                     * inject_Z (sizeY self) / inject_Z (tileHeight self))%Q
                    c = true)
            (subCells (2 ^ Z.of_nat k))).
  simpl. split.
  { destruct k; [|lia]. rewrite Nat.add_0_r, Hslot in Hpop. by destruct Hpop. }
  split; [done|]. split.
  { by replace (Z.to_nat (z + Z.of_nat k)) with (Z.to_nat z + k)%nat by lia. }
  split; [done|]. split.
  { intros dx dy. rewrite list_elem_of_filter, elem_of_subCells, fetched_below.
    tauto. }
  split; [apply filter_sorted, subCells_sorted|].
  split; [apply origin_fetched|]. split.
  { intros tiles Hfetch. rewrite Hspec.
    erewrite (forEach_foldl _ _
                (λ canvas c,
                   Image_paste canvas
                     match tiles c with
                     | TileImage im => im
                     | TileBytes data => Image_open data
                     end
                     (c.1 * tileWidth self) (c.2 * tileHeight self))).
    - done.
    - intros c canvas Hc. rewrite (Hfetch c Hc). simpl.
      by destruct (tiles c). }
  split.
  { intros pre post c e Hcells Hpre Hc. rewrite Hspec, Hcells.
    erewrite forEach_raises_at; [done| |].
    - intros c' canvas Hc'. destruct (Hpre c' Hc') as [t ->]. simpl.
      by eexists.
    - intros canvas. by rewrite Hc. }
  intros im Him. rewrite Hspec in Him.
  destruct (forEach _ _ _) as [[c|e]|]; simpl in Him; try done.
  by injection Him as <-.
Qed.

End SynthesisClaim.

(** The synthesis of tile (0, 0) of the missing level 1 of the sparse file:
    the four tiles of level 2 below it, pasted by dx and then by dy. *)
Example synthesis_of_sparse_level :
  getTileFromEmptyDirectory (host := plainHost)
    (getTile (host := plainHost) sparseSource) sparseSource 0 0 1
  = Some (Returns
      (Image_resize
         (Image_paste
            (Image_paste
               (Image_paste
                  (Image_paste (Image_new "RGBA" 512 512)
                     (Image_open "L2/0/0") 0 0)
                  (Image_open "L2/0/1") 0 256)
               (Image_open "L2/1/0") 256 0)
            (Image_open "L2/1/1") 256 256)
         256 256 LANCZOS)).
Proof. vm_compute. reflexivity. Qed.

(** C4 at tile (0, 0) of the missing level 1 of the sparse file. *)
Lemma synthesis_as_described_witness :
  __init__ (host := plainHost) sparseFile = Returns sparseSource
  ∧ PIL (Host := plainHost) = true
  ∧ 0 ≤ 1 < levels sparseSource
  ∧ _tiffDirectories sparseSource !! Z.to_nat 1 = Some None
  ∧ ∃ (k : nat) (cells : list (Z * Z)),
      let self := sparseSource in
      let scale := 2 ^ Z.of_nat k in
      let zk := 1 + Z.of_nat k in
      let maxX := (Qpower (2 # 1) (zk + 1 - levels self)
                   * inject_Z (sizeX self) / inject_Z (tileWidth self))%Q in
      let maxY := (Qpower (2 # 1) (zk + 1 - levels self)
                   * inject_Z (sizeY self) / inject_Z (tileHeight self))%Q in
      (1 ≤ k)%nat
      ∧ zk ≤ levels self - 1
      ∧ is_Some (mjoin (_tiffDirectories self !! Z.to_nat zk))
      ∧ (∀ j, (j < k)%nat →
              _tiffDirectories self !! (Z.to_nat 1 + j)%nat = Some None)
      ∧ (∀ dx dy,
           (dx, dy) ∈ cells
           ↔ 0 ≤ dx < scale ∧ 0 ≤ dy < scale
             ∧ ((dx = 0 ∧ dy = 0)
                ∨ ((inject_Z (0 * scale + dx) < maxX)%Q
                   ∧ (inject_Z (0 * scale + dy) < maxY)%Q)))
      ∧ StronglySorted cellBefore cells
      ∧ (0, 0) ∈ cells
      ∧ (∀ tiles : Z * Z → Tile,
           (∀ c, c ∈ cells →
                 getTile (host := plainHost) self
                   (0 * scale + c.1) (0 * scale + c.2) zk
                   true true [("edge", PyBool false)]
                 = Some (Returns (tiles c))) →
           getTileFromEmptyDirectory (host := plainHost)
             (getTile (host := plainHost) self) self 0 0 1
           = Some (Returns
               (Image_resize
                  (foldl (λ canvas c,
                            Image_paste canvas
                              match tiles c with
                              | TileImage im => im
                              | TileBytes data => Image_open data
                              end
                              (c.1 * tileWidth self) (c.2 * tileHeight self))
                     (Image_new "RGBA" (tileWidth self * scale)
                        (tileHeight self * scale))
                     cells)
                  (tileWidth self) (tileHeight self) LANCZOS)))
      ∧ (∀ (pre post : list (Z * Z)) (c : Z * Z) (e : exn),
           cells = (pre ++ c :: post)%list →
           (∀ c', c' ∈ pre →
                  ∃ t, getTile (host := plainHost) self
                         (0 * scale + c'.1) (0 * scale + c'.2) zk
                         true true [("edge", PyBool false)]
                       = Some (Returns t)) →
           getTile (host := plainHost) self
             (0 * scale + c.1) (0 * scale + c.2) zk
             true true [("edge", PyBool false)]
           = Some (Raises e) →
           getTileFromEmptyDirectory (host := plainHost)
             (getTile (host := plainHost) self) self 0 0 1
           = Some (Raises e))
      ∧ (∀ im, getTileFromEmptyDirectory (host := plainHost)
                 (getTile (host := plainHost) self) self 0 0 1
               = Some (Returns im) →
               imageSize im = Some (tileWidth self, tileHeight self)).
Proof.
  assert (__init__ (host := plainHost) sparseFile = Returns sparseSource)
    as H1 by (vm_compute; reflexivity).
  assert (PIL (Host := plainHost) = true) as H2 by reflexivity.
  assert (0 ≤ 1 < levels sparseSource) as H3 by (simpl; lia).
  assert (_tiffDirectories sparseSource !! Z.to_nat 1 = Some None) as H4
    by reflexivity.
  split; [exact H1|]. split; [exact H2|]. split; [exact H3|].
  split; [exact H4|].
  exact (synthesis_as_described (host := plainHost) sparseFile sparseSource
           0 0 1 H1 H2 H3 H4).
Defined.

(** ** The lower-resolution fallback, step by step *)

Section FallbackClaim.

Context `{host : Host}.

Implicit Types (self : TiffFileTileSource) (x y z : Z) (kwargs : Kwargs).

(** When the fetch fails at every level from [n] down to 0, at the tile
    that holds (x, y), the failure of level 0 leaves the call. *)
Lemma getTile_fallback_chain_fails self (n : nat) x y pil kwargs (m0 : string) :
  PIL = true →
  (∀ j : nat, (j ≤ n)%nat →
     ∃ mj, levelFails self (x / 2 ^ Z.of_nat (n - j)) (y / 2 ^ Z.of_nat (n - j))
             (Z.of_nat j) mj) →
  levelFails self (x / 2 ^ Z.of_nat n) (y / 2 ^ Z.of_nat n) 0 m0 →
  getTile self x y (Z.of_nat n) pil true kwargs
  = Some (Raises (TileSourceException ("Internal I/O failure: " +:+ m0))).
Proof.
  intros HPIL. revert x y pil kwargs.
  induction n as [|n IH]; intros x y pil kwargs Hall H0.
  - simpl in H0. rewrite !Z.div_1_r in H0.
    by rewrite (getTile_level_fails self x y 0 pil kwargs m0) by (lia || done).
  - destruct (Hall (S n)) as [m Hm]; [lia|].
    rewrite Nat.sub_diag in Hm. simpl in Hm. rewrite !Z.div_1_r in Hm.
    rewrite (getTile_level_fails self x y (Z.of_nat (S n)) pil kwargs m)
      by (lia || done).
    rewrite HPIL. destruct (Z.eqb_spec (Z.of_nat (S n)) 0) as [|_]; [lia|].
    simpl negb. simpl andb.
    replace (Z.of_nat (S n) - 1) with (Z.of_nat n) by lia.
    assert (∀ a (i : nat), a / 2 / 2 ^ Z.of_nat i = a / 2 ^ Z.of_nat (S i))
      as Hdiv.
    { intros a i. rewrite Z.div_div by (try apply Z.pow_pos_nonneg; lia).
      f_equal. rewrite Nat2Z.inj_succ, Z.pow_succ_r by lia. done. }
    rewrite (IH (x / 2) (y / 2) true edge_False); [done| |].
    + intros j Hj. destruct (Hall j) as [mj Hmj]; [lia|]. exists mj.
      rewrite !Hdiv. by replace (S (n - j)) with (S n - j)%nat by lia.
    + by rewrite !Hdiv.
Qed.

(** C10, as the code has it.  A call of [getTile] with [sparseFallback]
    set, at a level [z] >= 0 where the fetch fails with an IOTiffException
    of message [m] (the slot is empty, or the read of its directory raises
    it):
    - for [z] > 0 with PIL, fetches tile (x div 2, y div 2) of level z - 1
      with pilImageAllowed and sparseFallback set and edge=False; when that
      fetch returns a tile, the result is what [_outputTile] makes, for
      format 'PIL', of that tile (a byte string as the image PIL.Image.open
      makes of it) cropped to the box that starts at tileWidth div 2 for an
      odd x and at 0 for an even x, at tileHeight div 2 for an odd y and at
      0 for an even y, and ends at tileWidth for an odd x and at
      tileWidth div 2 for an even x, at tileHeight for an odd y and at
      tileHeight div 2 for an even y, resized to (tileWidth, tileHeight);
    - for [z] > 0 with PIL, when that fetch raises, raises the same
      exception; this is so when the fetch fails with an IOTiffException at
      every level from z down to 0, and then the exception is
      TileSourceException with the message of the failure of level 0;
    - for [z] = 0 or without PIL, raises TileSourceException 'Internal I/O
      failure: ' followed by [m]. *)
Theorem getTile_lower_resolution_fallback self x y z pil kwargs (m : string) :
  0 ≤ z →
  levelFails self x y z m →
  (0 < z → PIL = true →
   (∀ t : Tile,
      getTile self (x / 2) (y / 2) (z - 1) true true [("edge", PyBool false)]
      = Some (Returns t) →
      getTile self x y z pil true kwargs
      = Some (_outputTile self
                (TileImage
                   (Image_resize
                      (Image_crop
                         match t with
                         | TileImage im => im
                         | TileBytes data => Image_open data
                         end
                         (if Z.odd x then tileWidth self / 2 else 0)
                         (if Z.odd y then tileHeight self / 2 else 0)
                         (if Z.odd x then tileWidth self
                          else tileWidth self / 2)
                         (if Z.odd y then tileHeight self
                          else tileHeight self / 2))
                      (tileWidth self) (tileHeight self) DEFAULT))
                "PIL" x y z pil kwargs))
   ∧ (∀ e : exn,
        getTile self (x / 2) (y / 2) (z - 1) true true [("edge", PyBool false)]
        = Some (Raises e) →
        getTile self x y z pil true kwargs = Some (Raises e))
   ∧ (∀ m0 : string,
        (∀ j, 0 ≤ j ≤ z →
           ∃ mj, levelFails self (x / 2 ^ (z - j)) (y / 2 ^ (z - j)) j mj) →
        levelFails self (x / 2 ^ z) (y / 2 ^ z) 0 m0 →
        getTile self x y z pil true kwargs
        = Some (Raises (TileSourceException
                          ("Internal I/O failure: " +:+ m0)))))
  ∧ (z = 0 ∨ PIL = false →
     getTile self x y z pil true kwargs
     = Some (Raises (TileSourceException ("Internal I/O failure: " +:+ m)))).
Proof.
  intros Hz Hfail.
  pose proof (getTile_level_fails self x y z pil kwargs m Hz Hfail) as Heq.
  split.
  - intros Hpos HPIL. rewrite HPIL in Heq.
    destruct (Z.eqb_spec z 0) as [|_]; [lia|]. simpl in Heq.
    unfold edge_False in Heq. split; [|split].
    + intros t Ht. rewrite Heq, Ht. simpl. unfold fallbackTile, quadrant.
      rewrite !Zmod_odd.
      by destruct t, (Z.odd x), (Z.odd y).
    + intros e He. by rewrite Heq, He.
    + intros m0 Hall H0.
      pose proof (getTile_fallback_chain_fails self (Z.to_nat z) x y pil
                    kwargs m0 HPIL) as Hchain.
      rewrite Z2Nat.id in Hchain by lia. apply Hchain; [|done].
      intros j Hj. destruct (Hall (Z.of_nat j)) as [mj Hmj]; [lia|].
      exists mj. by replace (Z.of_nat (Z.to_nat z - j)) with (z - Z.of_nat j)
        by lia.
  - intros [->|HPIL]; rewrite Heq; [done|].
    rewrite HPIL. by rewrite andb_false_r.
Qed.

End FallbackClaim.

(** The source of the file that stores level 2 only. *)
Lemma opened_more :
  __init__ (host := plainHost) topOnlyFile = Returns topOnlySource.
Proof. vm_compute. reflexivity. Qed.

(** C10 fails on the code as it is worded: in the file that stores level 2
    only, with PIL, the call for tile (0, 0) of level 1 with
    [sparseFallback] set finds the slot of level 1 empty, falls back to
    level 0, whose slot is empty too, and the failure of level 0 leaves the
    call as a TileSourceException although z = 1 > 0: no quadrant is
    returned. *)
Lemma getTile_fallback_failure_surfaces :
  __init__ (host := plainHost) topOnlyFile = Returns topOnlySource
  ∧ PIL (Host := plainHost) = true
  ∧ 0 < 1
  ∧ levelFails topOnlySource 0 0 1 "Missing z level 1"
  ∧ getTile (host := plainHost) topOnlySource 0 0 1 false true []
    = Some (Raises (TileSourceException
                      "Internal I/O failure: Missing z level 0"))
  ∧ ¬ ∃ t, getTile (host := plainHost) topOnlySource 0 0 1 false true []
           = Some (Returns t).
Proof.
  split; [vm_compute; reflexivity|]. split; [reflexivity|]. split; [lia|].
  split; [left; split; vm_compute; reflexivity|].
  split; [vm_compute; reflexivity|].
  intros [t Ht]. vm_compute in Ht. discriminate Ht.
Qed.

(** The fallback at tile (1, 0) of the missing level 1 of the sparse file:
    the right upper quadrant of tile (0, 0) of level 0. *)
Example fallback_of_sparse_level :
  getTile (host := plainHost) sparseSource 1 0 1 false true []
  = Some (Returns
      (TileImage
         (Image_resize (Image_crop (Image_open "L0/0/0") 128 0 256 128)
            256 256 DEFAULT))).
Proof. vm_compute. reflexivity. Qed.

(** C10 at tile (1, 0) of the missing level 1 of the sparse file. *)
Lemma getTile_lower_resolution_fallback_witness :
  0 ≤ 1
  ∧ levelFails sparseSource 1 0 1 "Missing z level 1"
  ∧ (0 < 1 → PIL (Host := plainHost) = true →
     (∀ t : Tile,
        getTile (host := plainHost) sparseSource (1 / 2) (0 / 2) (1 - 1)
          true true [("edge", PyBool false)]
        = Some (Returns t) →
        getTile (host := plainHost) sparseSource 1 0 1 false true []
        = Some (_outputTile (Host := plainHost) sparseSource
                  (TileImage
                     (Image_resize
                        (Image_crop
                           match t with
                           | TileImage im => im
                           | TileBytes data => Image_open data
                           end
                           (if Z.odd 1 then tileWidth sparseSource / 2 else 0)
                           (if Z.odd 0 then tileHeight sparseSource / 2 else 0)
                           (if Z.odd 1 then tileWidth sparseSource
                            else tileWidth sparseSource / 2)
                           (if Z.odd 0 then tileHeight sparseSource
                            else tileHeight sparseSource / 2))
                        (tileWidth sparseSource) (tileHeight sparseSource)
                        DEFAULT))
                  "PIL" 1 0 1 false []))
     ∧ (∀ e : exn,
          getTile (host := plainHost) sparseSource (1 / 2) (0 / 2) (1 - 1)
            true true [("edge", PyBool false)]
          = Some (Raises e) →
          getTile (host := plainHost) sparseSource 1 0 1 false true []
          = Some (Raises e))
     ∧ (∀ m0 : string,
          (∀ j, 0 ≤ j ≤ 1 →
             ∃ mj, levelFails sparseSource (1 / 2 ^ (1 - j)) (0 / 2 ^ (1 - j))
                     j mj) →
          levelFails sparseSource (1 / 2 ^ 1) (0 / 2 ^ 1) 0 m0 →
          getTile (host := plainHost) sparseSource 1 0 1 false true []
          = Some (Raises (TileSourceException
                            ("Internal I/O failure: " +:+ m0)))))
  ∧ (1 = 0 ∨ PIL (Host := plainHost) = false →
     getTile (host := plainHost) sparseSource 1 0 1 false true []
     = Some (Raises (TileSourceException
                       ("Internal I/O failure: " +:+ "Missing z level 1")))).
Proof.
  assert (0 ≤ 1) as H1 by lia.
  assert (levelFails sparseSource 1 0 1 "Missing z level 1") as H2
    by (left; split; vm_compute; reflexivity).
  split; [exact H1|]. split; [exact H2|].
  exact (getTile_lower_resolution_fallback (host := plainHost) sparseSource
           1 0 1 false [] "Missing z level 1" H1 H2).
Defined.

(** ** How [__init__] ends when directories fail *)

Section OpenClaim.

Context `{host : Host}.

Lemma readOrRejected_cases (r : outcome Directory) :
  readOrRejected r
  ↔ (∃ td, r = Returns td) ∨ (∃ m, r = Raises (ValidationTiffException m)).
Proof.
  split.
  - destruct r as [td|e]; [intros _; left; by eexists|].
    destruct e; simpl; try done. intros _. right. by eexists.
  - intros [[td ->]|[m ->]]; done.
Qed.

(** The loop of lines 65-83 over directories that are read or fail
    validation: the tiled ones are collected, the last validation failure is
    remembered, and the loop goes on with what follows. *)
Lemma enumerate_seen (seen tail : list (outcome Directory)) (endMessage : string)
    (lastException : option exn) (alldir : list DirEntry) :
  Forall readOrRejected seen →
  enumerate (seen ++ tail) endMessage lastException alldir
  = enumerate tail endMessage
      match last (validationFailures seen) with
      | Some v => Some v
      | None => lastException
      end
      (alldir ++ candidates seen).
Proof.
  intros Hseen. revert lastException alldir.
  induction Hseen as [|r seen Hr Hseen IH]; intros lastException alldir.
  - simpl. by rewrite app_nil_r.
  - destruct r as [td|e].
    + simpl.
      destruct ((TiledTiffDirectory.tileWidth td =? 0)
                || (TiledTiffDirectory.tileHeight td =? 0)) eqn:Hz.
      * rewrite IH. apply orb_true_iff in Hz.
        unfold candidates. simpl.
        destruct Hz as [->| ->]; simpl; [done|].
        by rewrite andb_false_r.
      * rewrite IH. apply orb_false_iff in Hz. destruct Hz as [-> ->].
        unfold candidates. simpl. by rewrite <- app_assoc.
    + destruct e; simpl in Hr; try done.
      simpl. rewrite IH. unfold candidates. simpl.
      fold (validationFailures seen).
      destruct (validationFailures seen) as [|v vs] eqn:Hv; [done|].
      rewrite !last_cons. by destruct (last vs).
Qed.

(** Lines 85-115 look at [lastException] only when no tiled directory was
    collected. *)
Lemma pyramid_lastException (alldir : list DirEntry) (path : string)
    (l1 l2 : option exn) :
  alldir ≠ [] → pyramid alldir path l1 = pyramid alldir path l2.
Proof. intros Hne. unfold pyramid. by destruct alldir. Qed.

Lemma candidates_cons (r : outcome Directory) (rs : list (outcome Directory)) :
  candidates (r :: rs)
  = (match r with
     | Returns td => if usable r then [entryOf td] else []
     | Raises _ => []
     end ++ candidates rs)%list.
Proof.
  unfold candidates. simpl. destruct r as [td|e]; [|done].
  by destruct (usable (Returns td)).
Qed.

Lemma candidates_none (rs : list (outcome Directory)) :
  Forall (λ r, usable r = false) rs → candidates rs = [].
Proof.
  induction 1 as [|r rs Hr _ IH]; [done|].
  rewrite candidates_cons, IH. destruct r as [td|e]; [|done].
  by rewrite Hr.
Qed.

Lemma candidates_some (rs : list (outcome Directory)) :
  Exists (λ r, usable r = true) rs → candidates rs ≠ [].
Proof.
  induction 1 as [r rs Hr|r rs _ IH]; rewrite candidates_cons.
  - destruct r as [td|e]; [|done]. by rewrite Hr.
  - intros Hnil. by apply app_eq_nil in Hnil as [_ Hnil].
Qed.

Lemma candidates_filter (rs : list (outcome Directory)) :
  candidates (filter (λ r, usable r = true) rs) = candidates rs.
Proof.
  induction rs as [|r rs IH]; [done|].
  rewrite filter_cons. destruct (usable r) eqn:Hu.
  - rewrite decide_True by done. by rewrite !candidates_cons, IH.
  - rewrite decide_False by done.
    rewrite candidates_cons, IH. destruct r as [td|e]; [|done].
    by rewrite Hu.
Qed.

Lemma validationFailures_none (rs : list (outcome Directory)) :
  (∀ m, Raises (ValidationTiffException m) ∉ rs) →
  validationFailures rs = [].
Proof.
  intros Hrs. induction rs as [|r rs IH]; [done|].
  unfold validationFailures. simpl. fold (validationFailures rs).
  destruct r as [td|e].
  - apply IH. intros m Hin. apply (Hrs m). by right.
  - destruct e; try (apply IH; intros m Hin; apply (Hrs m); by right).
    exfalso. apply (Hrs message). by left.
Qed.

Lemma validationFailures_last (before after : list (outcome Directory))
    (m : string) :
  (∀ m', Raises (ValidationTiffException m') ∉ after) →
  last (validationFailures
          (before ++ Raises (ValidationTiffException m) :: after))
  = Some (ValidationTiffException m).
Proof.
  intros Hafter.
  assert (validationFailures
            (before ++ Raises (ValidationTiffException m) :: after)
          = (validationFailures before
             ++ ValidationTiffException m :: validationFailures after)%list)
    as -> by (unfold validationFailures; by rewrite omap_app).
  rewrite (validationFailures_none after Hafter). apply last_snoc.
Qed.

(** What [__init__] does with a file of which [seen] are the directories up
    to the end of the enumeration, each read or failing validation, and
    [stop] the message of the exception that ended it. *)
Lemma init_of_seen (file : TiffFile) (seen rest : list (outcome Directory))
    (stop : string) :
  Forall readOrRejected seen →
  (ifds file = seen ∧ pastEnd file = stop)
  ∨ (∃ e, ifds file = (seen ++ Raises e :: rest)%list
          ∧ (e = TiffException stop ∨ e = InvalidOperationTiffException stop
             ∨ e = IOTiffException stop)) →
  ∃ ended,
    message_of ended = stop
    ∧ __init__ file
      = pyramid (candidates seen) (largeImagePath file)
          match last (validationFailures seen) with
          | Some v => Some v
          | None => Some ended
          end.
Proof.
  intros Hseen [[Hifds Hend]|(e & Hifds & He)]; unfold __init__.
  - exists (IOTiffException stop). split; [done|].
    rewrite Hifds, Hend. rewrite <- (app_nil_r seen) at 1.
    rewrite enumerate_seen by done. simpl.
    by destruct (last (validationFailures seen)).
  - exists e. split; [by destruct He as [->|[->| ->]]|].
    rewrite Hifds, enumerate_seen by done.
    destruct He as [->|[->| ->]]; simpl;
      by destruct (last (validationFailures seen)).
Qed.

(** C7, as the code has it.  Let [seen] be the directories of the file up
    to the end of the enumeration, each read or failing validation, and
    [stop] the message of the exception that ended the enumeration: the
    IOTiffException of the reader for the directory number past the end, or
    the first TiffException, InvalidOperationTiffException or
    IOTiffException that the reader raised for a directory, after which no
    directory ([rest]) is read.
    - When none of [seen] is a tiled directory, [__init__] raises
      TileSourceException 'File <path> didn't meet requirements for tile
      source: <m>', where <m> is the message of the last validation failure
      among [seen], and [stop] when there is none.
    - When one of [seen] is a tiled directory, [__init__] does what it does
      on the file that holds the tiled directories of [seen] and nothing
      else: directories that fail validation and untiled directories are
      passed over, the tiled directories after them are taken, and [rest]
      makes no difference. *)
Theorem init_without_usable (file : TiffFile)
    (seen rest : list (outcome Directory)) (stop : string) :
  Forall (λ r, (∃ td, r = Returns td)
               ∨ (∃ m, r = Raises (ValidationTiffException m))) seen →
  (ifds file = seen ∧ pastEnd file = stop)
  ∨ (∃ e, ifds file = (seen ++ Raises e :: rest)%list
          ∧ (e = TiffException stop ∨ e = InvalidOperationTiffException stop
             ∨ e = IOTiffException stop)) →
  (Forall (λ r, usable r = false) seen →
   ((∀ m, Raises (ValidationTiffException m) ∉ seen) →
    __init__ file
    = Raises (TileSourceException
                ("File " +:+ largeImagePath file
                 +:+ " didn't meet requirements for tile source: "
                 +:+ stop)))
   ∧ (∀ (before after : list (outcome Directory)) (m : string),
        seen = (before ++ Raises (ValidationTiffException m) :: after)%list →
        (∀ m', Raises (ValidationTiffException m') ∉ after) →
        __init__ file
        = Raises (TileSourceException
                    ("File " +:+ largeImagePath file
                     +:+ " didn't meet requirements for tile source: "
                     +:+ m))))
  ∧ (Exists (λ r, usable r = true) seen →
     __init__ file
     = __init__ {| largeImagePath := largeImagePath file;
                   ifds := filter (λ r, usable r = true) seen;
                   pastEnd := stop |}).
Proof.
  intros Hseen Hshape.
  assert (Forall readOrRejected seen) as Hseen'.
  { eapply Forall_impl; [exact Hseen|]. intros r Hr.
    by apply readOrRejected_cases. }
  destruct (init_of_seen file seen rest stop Hseen' Hshape)
    as (ended & Hended & Hinit).
  split.
  - intros Hnone.
    assert (candidates seen = []) as Hc by (by apply candidates_none).
    rewrite Hc in Hinit. split.
    + intros Hval. rewrite Hinit, (validationFailures_none seen Hval).
      unfold pyramid, openMessage, str_of_lastException. simpl.
      by rewrite Hended.
    + intros before after m -> Hafter.
      rewrite Hinit, (validationFailures_last before after m Hafter).
      done.
  - intros Hsome.
    assert (candidates seen ≠ []) as Hc by (by apply candidates_some).
    destruct (init_of_seen
                {| largeImagePath := largeImagePath file;
                   ifds := filter (λ r, usable r = true) seen;
                   pastEnd := stop |}
                (filter (λ r, usable r = true) seen) [] stop)
      as (ended' & _ & Hinit').
    { apply Forall_forall. intros r Hr.
      apply list_elem_of_filter in Hr as [_ Hr].
      rewrite Forall_forall in Hseen'. by apply Hseen'. }
    { by left. }
    rewrite Hinit, Hinit'. simpl. rewrite candidates_filter.
    by apply pyramid_lastException.
Qed.

End OpenClaim.

(** C7 fails on the code as it is worded.  A directory for which the reader
    raises an IOTiffException is not passed over: the enumeration ends
    there, the tiled directory after it is never read, and opening the file
    fails although the file has a usable directory, with which alone it
    opens.  And when a directory fails validation and a later one fails
    with another exception of the reader, the message is that of the
    validation failure, not of the error that came last. *)
Lemma init_aborts_on_reader_failure :
  ifds abortedFile = [Raises (IOTiffException "Read error"); Returns d0]
  ∧ usable (Returns d0) = true
  ∧ __init__ (host := plainHost) abortedFile
    = Raises (TileSourceException
                "File aborted.tif didn't meet requirements for tile source: Read error")
  ∧ __init__ (host := plainHost)
      {| largeImagePath := "aborted.tif"; ifds := [Returns d0];
         pastEnd := "Could not set TIFF directory to 1" |}
    = Returns singleSource
  ∧ ifds rejectedThenFailedFile
    = [Raises (ValidationTiffException "Not a tiled TIFF");
       Raises (InvalidOperationTiffException "Directory is corrupt")]
  ∧ __init__ (host := plainHost) rejectedThenFailedFile
    = Raises (TileSourceException
                "File failed.tif didn't meet requirements for tile source: Not a tiled TIFF").
Proof. repeat split; vm_compute; reflexivity. Qed.

(** The file without a directory that passes validation: the message is
    that of the last validation failure. *)
Example init_of_unusable_file :
  __init__ (host := plainHost) unusableFile
  = Raises (TileSourceException
              "File flat.tif didn't meet requirements for tile source: Unsupported compression").
Proof. vm_compute. reflexivity. Qed.

(** C7 at the file without a directory that passes validation. *)
Lemma init_without_usable_witness :
  Forall (λ r : outcome Directory,
            (∃ td, r = Returns td)
            ∨ (∃ m, r = Raises (ValidationTiffException m)))
    (ifds unusableFile)
  ∧ ((ifds unusableFile = ifds unusableFile
      ∧ pastEnd unusableFile = "Could not set TIFF directory to 2")
     ∨ (∃ e, ifds unusableFile = (ifds unusableFile ++ Raises e :: [])%list
             ∧ (e = TiffException "Could not set TIFF directory to 2"
                ∨ e = InvalidOperationTiffException
                        "Could not set TIFF directory to 2"
                ∨ e = IOTiffException "Could not set TIFF directory to 2")))
  ∧ (Forall (λ r, usable r = false) (ifds unusableFile) →
     ((∀ m, Raises (ValidationTiffException m) ∉ ifds unusableFile) →
      __init__ (host := plainHost) unusableFile
      = Raises (TileSourceException
                  ("File " +:+ largeImagePath unusableFile
                   +:+ " didn't meet requirements for tile source: "
                   +:+ "Could not set TIFF directory to 2")))
     ∧ (∀ (before after : list (outcome Directory)) (m : string),
          ifds unusableFile
          = (before ++ Raises (ValidationTiffException m) :: after)%list →
          (∀ m', Raises (ValidationTiffException m') ∉ after) →
          __init__ (host := plainHost) unusableFile
          = Raises (TileSourceException
                      ("File " +:+ largeImagePath unusableFile
                       +:+ " didn't meet requirements for tile source: "
                       +:+ m))))
  ∧ (Exists (λ r, usable r = true) (ifds unusableFile) →
     __init__ (host := plainHost) unusableFile
     = __init__ (host := plainHost)
         {| largeImagePath := largeImagePath unusableFile;
            ifds := filter (λ r, usable r = true) (ifds unusableFile);
            pastEnd := "Could not set TIFF directory to 2" |}).
Proof.
  assert (Forall (λ r : outcome Directory,
                    (∃ td, r = Returns td)
                    ∨ (∃ m, r = Raises (ValidationTiffException m)))
            (ifds unusableFile)) as H1.
  { simpl. repeat (constructor; [right; eexists; reflexivity|]). constructor. }
  assert ((ifds unusableFile = ifds unusableFile
           ∧ pastEnd unusableFile = "Could not set TIFF directory to 2")
          ∨ (∃ e, ifds unusableFile = (ifds unusableFile ++ Raises e :: [])%list
                  ∧ (e = TiffException "Could not set TIFF directory to 2"
                     ∨ e = InvalidOperationTiffException
                             "Could not set TIFF directory to 2"
                     ∨ e = IOTiffException "Could not set TIFF directory to 2")))
    as H2 by (left; split; reflexivity).
  split; [exact H1|]. split; [exact H2|].
  exact (init_without_usable (host := plainHost) unusableFile
           (ifds unusableFile) [] "Could not set TIFF directory to 2" H1 H2).
Defined.

(** ** The order of the directories and the identity of their objects *)

Section OrderIndependence.

Context `{host : Host}.

Variable newId : Directory → Z.

Lemma candidates_reidentified (rs : list (outcome Directory)) :
  candidates (reidentifiedOutcome newId <$> rs)
  = reidentifiedEntry newId <$> candidates rs.
Proof.
  induction rs as [|r rs IH]; [done|].
  rewrite fmap_cons, !candidates_cons, fmap_app, IH. f_equal.
  destruct r as [td|e]; [|done]. simpl.
  by destruct (negb _ && negb _).
Qed.

(** Tuples that differ in area or level are ordered by these alone. *)
Lemma entry_le_reidentified (a b : DirEntry) :
  a.1 ≠ b.1 → entry_le a b →
  entry_le (reidentifiedEntry newId a) (reidentifiedEntry newId b).
Proof.
  destruct a as [[aa al] ad], b as [[ba bl] bd]. unfold entry_le. simpl.
  intros Hne.
  destruct (Z.ltb_spec aa ba); [done|]. simpl.
  destruct (Z.eqb_spec aa ba) as [->|]; [|done]. simpl.
  destruct (Nat.ltb_spec al bl); [done|]. simpl.
  destruct (Nat.eqb_spec al bl) as [->|]; [|done]. done.
Qed.

Lemma StronglySorted_fmap_elem_of {A B} (R : relation A) (R' : relation B)
    (f : A → B) (l : list A) :
  (∀ x y, x ∈ l → y ∈ l → R x y → R' (f x) (f y)) →
  StronglySorted R l → StronglySorted R' (f <$> l).
Proof.
  intros Hf Hl. induction Hl as [|a l Hl IH Hall]; [constructor|].
  rewrite fmap_cons. constructor.
  - apply IH. intros x y Hx Hy. apply Hf; by right.
  - rewrite Forall_fmap. rewrite Forall_forall in Hall |- *.
    intros y Hy. simpl. apply Hf; [by left|by right|by apply Hall].
Qed.

(** The sort of lines 92 on tuples without a tie of area and level does not
    look at the identities. *)
Lemma sort_reidentified (alldir alldir' : list DirEntry) :
  (∀ a b, a ∈ alldir → b ∈ alldir → a.1 = b.1 → a = b) →
  alldir' ≡ₚ reidentifiedEntry newId <$> alldir →
  merge_sort entry_le alldir'
  = reidentifiedEntry newId <$> merge_sort entry_le alldir.
Proof.
  intros Htie Hperm.
  apply (StronglySorted_unique_strong entry_le).
  - intros x1 x2 H1 H2 H12 H21.
    rewrite merge_sort_Permutation, Hperm in H1.
    apply list_elem_of_fmap in H1 as (a & -> & Ha).
    apply list_elem_of_fmap in H2 as (b & -> & Hb).
    rewrite merge_sort_Permutation in Hb.
    f_equal. apply Htie; [done|done|].
    pose proof (entry_le_area _ _ H12) as Ha1.
    pose proof (entry_le_area _ _ H21) as Ha2.
    assert ((reidentifiedEntry newId a).1.1 = (reidentifiedEntry newId b).1.1)
      as Harea by lia.
    pose proof (entry_le_level _ _ H12 Harea) as Hl1.
    pose proof (entry_le_level _ _ H21 (eq_sym Harea)) as Hl2.
    destruct a as [[aa al] ad], b as [[ba bl] bd]. simpl in *.
    f_equal; lia.
  - apply StronglySorted_merge_sort; apply _.
  - apply (StronglySorted_fmap_elem_of entry_le).
    + intros a b Ha Hb Hab. rewrite merge_sort_Permutation in Ha, Hb.
      destruct (decide (a.1 = b.1)) as [Heq|Hne].
      * rewrite (Htie a b Ha Hb Heq).
        by destruct (total entry_le (reidentifiedEntry newId b)
                      (reidentifiedEntry newId b)).
      * by apply entry_le_reidentified.
    + apply StronglySorted_merge_sort; apply _.
  - by rewrite !merge_sort_Permutation.
Qed.

Lemma keepDirectory_reidentified (highest : Directory) (s : list DirEntry)
    (m : gmap nat Directory) :
  foldl (keepDirectory (reidentified newId highest))
    (reidentified newId <$> m) (reidentifiedEntry newId <$> s)
  = reidentified newId <$> foldl (keepDirectory highest) m s.
Proof.
  revert m. induction s as [|e s IH]; intros m; [done|].
  rewrite fmap_cons. simpl. rewrite <- IH. f_equal.
  unfold keepDirectory. simpl.
  destruct (negb _ || negb _); [done|]. by rewrite fmap_insert.
Qed.

Lemma maxKey_reidentified (m : gmap nat Directory) :
  maxKey (reidentified newId <$> m) = maxKey m.
Proof.
  unfold maxKey.
  assert ((map_to_list (reidentified newId <$> m)).*1 ≡ₚ (map_to_list m).*1)
    as Hkeys.
  { rewrite map_to_list_fmap, <- list_fmap_compose.
    erewrite list_fmap_ext; [reflexivity|]. by intros i [k d]. }
  destruct ((map_to_list (reidentified newId <$> m)).*1) as [|k ks] eqn:H1,
           ((map_to_list m).*1) as [|k' ks'] eqn:H2; try done.
  - by apply Permutation_nil_l in Hkeys.
  - by apply Permutation_nil_r in Hkeys.
  - by rewrite Hkeys.
Qed.

(** Lines 85-115 on the same tuples in another order and under other
    identities. *)
Lemma pyramid_reidentified (alldir alldir' : list DirEntry)
    (path path' : string) (l l' : option exn) (self : TiffFileTileSource) :
  (∀ a b, a ∈ alldir → b ∈ alldir → a.1 = b.1 → a = b) →
  alldir' ≡ₚ reidentifiedEntry newId <$> alldir →
  pyramid alldir path l = Returns self →
  pyramid alldir' path' l' = Returns (reidentifiedSource newId self).
Proof.
  intros Htie Hperm. unfold pyramid.
  rewrite (sort_reidentified alldir alldir' Htie Hperm).
  rewrite (Permutation_length Hperm), length_fmap.
  destruct (length alldir =? 0)%nat; [done|].
  destruct (merge_sort entry_le alldir) as [|h s _] using rev_ind; [done|].
  rewrite fmap_app. simpl. rewrite !py_index_last. simpl. intros Hp.
  rewrite <- (fmap_empty (reidentified newId)).
  pose proof (keepDirectory_reidentified h.2 (s ++ [h]) ∅) as Hfold.
  rewrite fmap_app in Hfold. simpl in Hfold. rewrite Hfold.
  rewrite maxKey_reidentified.
  destruct (maxKey (foldl (keepDirectory h.2) ∅ (s ++ [h]))) as [top|e];
    simpl in *; [|done].
  injection Hp as <-. unfold reidentifiedSource. simpl.
  rewrite !length_fmap. f_equal. f_equal.
  rewrite <- list_fmap_compose. apply list_fmap_ext.
  intros i key _. simpl. by rewrite lookup_fmap.
Qed.

(** X6.  The pyramid depends neither on the order of the directories in
    the file nor on the identities of the directory objects, when no two
    tiled directories of the file have the same tile area and the same
    level: if the directories of a file are each read or rejected by
    validation, and a second file holds the same directories in any order
    and under any identities, then for a source that [__init__] returns for
    the first it returns for the second the same source, with the
    directories of the second file in its slots. *)
Theorem init_order_independent (file1 file2 : TiffFile)
    (self : TiffFileTileSource) :
  Forall (λ r, (∃ td, r = Returns td)
               ∨ (∃ m, r = Raises (ValidationTiffException m))) (ifds file1) →
  ifds file2 ≡ₚ reidentifiedOutcome newId <$> ifds file1 →
  (∀ d1 d2, Returns d1 ∈ ifds file1 → Returns d2 ∈ ifds file1 →
            usable (Returns d1) = true → usable (Returns d2) = true →
            TiledTiffDirectory.tileWidth d1 * TiledTiffDirectory.tileHeight d1
            = TiledTiffDirectory.tileWidth d2 * TiledTiffDirectory.tileHeight d2 →
            levelOf d1 = levelOf d2 →
            d1 = d2) →
  __init__ file1 = Returns self →
  __init__ file2 = Returns (reidentifiedSource newId self).
Proof.
  intros Hrs1 Hperm Htie.
  assert (Forall readOrRejected (ifds file1)) as Hrs1'.
  { eapply Forall_impl; [exact Hrs1|]. intros r Hr.
    by apply readOrRejected_cases. }
  assert (Forall readOrRejected (ifds file2)) as Hrs2.
  { rewrite Hperm, Forall_fmap. eapply Forall_impl; [exact Hrs1'|].
    intros [td|e]; simpl; [done|]. by destruct e. }
  assert (candidates (ifds file2)
          ≡ₚ reidentifiedEntry newId <$> candidates (ifds file1))
    as Hcand.
  { rewrite <- candidates_reidentified. unfold candidates. by rewrite Hperm. }
  unfold __init__. rewrite !enumerate_all by done. simpl.
  apply pyramid_reidentified; [|done].
  intros a b Ha Hb Hab.
  apply elem_of_candidates in Ha as (d1 & Hd1 & Hu1 & ->).
  apply elem_of_candidates in Hb as (d2 & Hd2 & Hu2 & ->).
  f_equal. unfold entryOf in Hab. simpl in Hab. injection Hab as Harea Hlevel.
  by apply Htie.
Qed.

End OrderIndependence.

(** With a tie of area and level, the directory kept for the level follows
    the identities: of two directories of 256 x 256 tiles over the same
    image size, the slot of level 0 holds the one of the higher identity,
    whichever comes first in the file. *)
Example init_tie_follows_identity :
  obind (__init__ (host := plainHost)
           {| largeImagePath := "tie.tif";
              ifds := [Returns (squareDir 10 256 "A" []);
                       Returns (squareDir 11 256 "B" [])];
              pastEnd := "Could not set TIFF directory to 2" |})
    (λ self, Returns (_tiffDirectories self))
  = Returns [Some (squareDir 11 256 "B" [])]
  ∧ obind (__init__ (host := plainHost)
             {| largeImagePath := "tie.tif";
                ifds := [Returns (squareDir 11 256 "A" []);
                         Returns (squareDir 10 256 "B" [])];
                pastEnd := "Could not set TIFF directory to 2" |})
      (λ self, Returns (_tiffDirectories self))
    = Returns [Some (squareDir 11 256 "A" [])].
Proof. split; vm_compute; reflexivity. Qed.

(** ** Which exceptions reach the caller, when sub-tiles are PIL images *)

Section SurfacedClaims.

Context `{host : Host}.

Implicit Types (self : TiffFileTileSource) (x y z : Z) (kwargs : Kwargs).




End SurfacedClaims.

(** X6 at the dense file and the same file at a later open. *)
Lemma init_order_independent_witness :
  Forall (λ r : outcome Directory,
            (∃ td, r = Returns td)
            ∨ (∃ m, r = Raises (ValidationTiffException m)))
    (ifds denseFile)
  ∧ ifds reopenedFile ≡ₚ reidentifiedOutcome laterId <$> ifds denseFile
  ∧ (∀ a b, Returns a ∈ ifds denseFile → Returns b ∈ ifds denseFile →
            usable (Returns a) = true → usable (Returns b) = true →
            TiledTiffDirectory.tileWidth a * TiledTiffDirectory.tileHeight a
            = TiledTiffDirectory.tileWidth b * TiledTiffDirectory.tileHeight b →
            levelOf (host := plainHost) a = levelOf (host := plainHost) b →
            a = b)
  ∧ __init__ (host := plainHost) denseFile = Returns denseSource
  ∧ __init__ (host := plainHost) reopenedFile
    = Returns (reidentifiedSource laterId denseSource).
Proof.
  assert (Forall (λ r : outcome Directory,
                    (∃ td, r = Returns td)
                    ∨ (∃ m, r = Raises (ValidationTiffException m)))
            (ifds denseFile)) as H1.
  { simpl. repeat (constructor; [left; eexists; reflexivity|]). constructor. }
  assert (ifds reopenedFile ≡ₚ reidentifiedOutcome laterId <$> ifds denseFile)
    as H2.
  { simpl.
    apply (Permutation_cons_append
             [Returns (reidentified laterId d2);
              Returns (reidentified laterId d0)]
             (Returns (reidentified laterId d1))). }
  assert (∀ a b, Returns a ∈ ifds denseFile → Returns b ∈ ifds denseFile →
                 usable (Returns a) = true → usable (Returns b) = true →
                 TiledTiffDirectory.tileWidth a * TiledTiffDirectory.tileHeight a
                 = TiledTiffDirectory.tileWidth b
                   * TiledTiffDirectory.tileHeight b →
                 levelOf (host := plainHost) a = levelOf (host := plainHost) b →
                 a = b) as H3.
  { simpl. intros a b Ha Hb _ _ _.
    repeat (apply elem_of_cons in Ha as [Ha|Ha]; [injection Ha as ->|]);
      [| | |by apply elem_of_nil in Ha];
      (repeat (apply elem_of_cons in Hb as [Hb|Hb]; [injection Hb as ->|]);
       [| | |by apply elem_of_nil in Hb]);
      intros Hl; first [reflexivity | vm_compute in Hl; discriminate Hl]. }
  assert (__init__ (host := plainHost) denseFile = Returns denseSource) as H4
    by (vm_compute; reflexivity).
  split; [exact H1|]. split; [exact H2|]. split; [exact H3|].
  split; [exact H4|].
  exact (init_order_independent (host := plainHost) laterId denseFile
           reopenedFile denseSource H1 H2 H3 H4).
Defined.



(** The request of the witness of X19 does raise. *)
Example broken_request_raises :
  getTile (host := pilHost) brokenSource 0 0 0 false false []
  = Some (Raises (TileSourceException
                    "Internal I/O failure: Missing z level 0")).
Proof. vm_compute. reflexivity. Qed.
